(** * WordPress backup tool (scripts/wp_backup.py): a shallow embedding

    The development follows the class [WordPressBackup]:

    - [Collector]: [_backup_content_type], the paginated fetch with its
      retry and backoff policy;
    - [Sanitize]: [_sanitize_filename];
    - [Media]: [_download_media_file] and the tally of
      [_download_media_files];
    - [Orchestrator]: [_init_wp_client] and [run_backup].

    Python integers are [Z]; dictionaries keyed by strings are [gmap string];
    exceptions are values of [exn], handled in the order of the [except]
    clauses of the source.  Calls to [logger] are not modelled. *)

From Stdlib Require Import ZArith String Ascii List Lia Bool.
From stdpp Require Import base tactics option list gmap strings fin_maps.
Import ListNotations.

Local Open Scope string_scope.
Local Open Scope list_scope.
Local Open Scope Z_scope.

(** ** Exceptions

    The classes the source distinguishes in its [except] clauses.  The
    [wp_api.exceptions] classes all derive from [WPAPIError]; [WPAPIError]
    below stands for an instance that is none of the more specific classes
    (for example [WPAPIRequestError]).  [OtherException] is an [Exception]
    outside that hierarchy ([OSError], [ValueError], ...).
    [KeyboardInterrupt] and [SystemExit] derive from [BaseException] only. *)

Inductive exn : Type :=
| WPAPIRateLimitError (msg : string)
| WPAPINotFoundError (msg : string)
| WPAPIPermissionError (msg : string)
| WPAPIAuthError (msg : string)
| WPAPIError (msg : string)
| OtherException (msg : string)
| KeyboardInterrupt
| SystemExit (code : Z).

(** [isinstance(e, Exception)] *)
Definition is_Exception (e : exn) : bool :=
  match e with
  | KeyboardInterrupt | SystemExit _ => false
  | _ => true
  end.

(** [isinstance(e, WPAPIError)] *)
Definition is_WPAPIError (e : exn) : bool :=
  match e with
  | WPAPIRateLimitError _ | WPAPINotFoundError _ | WPAPIPermissionError _
  | WPAPIAuthError _ | WPAPIError _ => true
  | _ => false
  end.

(** [str(e)] for the exceptions whose text the source stores. *)
Definition str (e : exn) : string :=
  match e with
  | WPAPIRateLimitError m | WPAPINotFoundError m | WPAPIPermissionError m
  | WPAPIAuthError m | WPAPIError m | OtherException m => m
  | KeyboardInterrupt => ""
  | SystemExit _ => ""
  end.

(** ** Entries of [backup_info['stats']] *)

Inductive stat_entry : Type :=
| count_pages (count pages : Z)          (* {'count': .., 'pages': ..} *)
| count_only (count : Z)                 (* {'count': ..} *)
| count_errors (count errors : Z)        (* {'count': .., 'errors': ..} *)
| error_entry (error : string).          (* {'error': ..} *)

Definition is_error_entry (e : stat_entry) : bool :=
  match e with error_entry _ => true | _ => false end.

(** What a method either returns or raises. *)
Inductive outcome (A : Type) : Type :=
| Returned (a : A)
| Raised (e : exn).
Arguments Returned {A} a.
Arguments Raised {A} e.

(** ** The paginated collector: [_backup_content_type] *)

Module Collector.

Section WithRecord.

(** A record of the remote API: an opaque document. *)
Context {record : Type}.

(** A call of [endpoint_client.list] returns a batch or raises. *)
Inductive response : Type :=
| Batch (batch : list record)
| Raise (e : exn).

(** The keyword arguments of one list call. *)
Record params : Type := Params {
  param_page : Z;
  param_per_page : Z;
  param_status : option string
}.

(** The endpoint client is an external collaborator: its answer to the
    n-th list call of a pass (counting from 0) may depend on the call's
    number and on the parameters. *)
Definition endpoint_client : Type := nat -> params -> response.

(** Files under [content_dir]. *)
Inductive file : Type :=
| page_json (page : Z)     (* page_<page>.json *)
| all_json.                (* all.json *)

(** Observable actions of one pass, in program order.  [save_json_file]
    records a call [_save_json_file(path, data)]. *)
Inductive event : Type :=
| list_call (p : params)
| sleep (secs : Z)
| save_json_file (f : file) (data : list record).

(** The local variables of the method, with the trace of actions so far
    and [calls], the number of list calls issued. *)
Record locals : Type := Locals {
  items : list record;
  page : Z;
  total_items : Z;
  retry_count : Z;
  calls : nat;
  trace : list event
}.

(** The fields of [self] the method reads. *)
Record self_cfg : Type := Self {
  is_authenticated : bool;
  max_items_per_type : Z
}.

Definition per_page : Z := 100.
Definition max_retries : Z := 5.

(** [type_name in ['posts', 'pages'] or type_name.startswith('cpt_')] *)
Definition public_restricted (type_name : string) : bool :=
  bool_decide (type_name ∈ ["posts"; "pages"]) || String.prefix "cpt_" type_name.

(** Lines 586-595. *)
Definition build_params (self : self_cfg) (type_name : string) (pg : Z) : params :=
  if public_restricted type_name && negb (is_authenticated self)
  then Params pg per_page (Some "publish")
  else Params pg per_page None.

Definition emit (e : event) (st : locals) : locals :=
  Locals (items st) (page st) (total_items st) (retry_count st) (calls st)
         (trace st ++ [e]).

Definition set_retry_count (r : Z) (st : locals) : locals :=
  Locals (items st) (page st) (total_items st) r (calls st) (trace st).

Definition set_page (p : Z) (st : locals) : locals :=
  Locals (items st) p (total_items st) (retry_count st) (calls st) (trace st).

(** The effect of a successful non-empty batch, lines 604-614. *)
Definition accept_batch (batch : list record) (st : locals) : locals :=
  Locals (items st ++ batch) (page st)
         (total_items st + Z.of_nat (length batch)) 0 (calls st)
         (trace st ++ [save_json_file (page_json (page st)) batch]).

(** How one iteration of the [while] body ends. *)
Inductive step : Type :=
| Continue (st : locals)
| Break (st : locals)
| Propagate (e : exn) (st : locals).

(** The retry branch shared in shape by the two backoff handlers: [cap]
    is 60 for the rate limit and 30 for the other API errors. *)
Definition backoff (cap : Z) (st : locals) : step :=
  let r := retry_count st + 1 in
  if r >? max_retries then Break (set_retry_count r st)
  else Continue (emit (sleep (Z.min (2 ^ (r - 1)) cap)) (set_retry_count r st)).

(** One iteration of the loop body, lines 584-651. *)
Definition loop_body (self : self_cfg) (type_name : string)
    (client : endpoint_client) (st : locals) : step :=
  let p := build_params self type_name (page st) in
  let st1 := Locals (items st) (page st) (total_items st) (retry_count st)
                    (S (calls st)) (trace st ++ [list_call p]) in
  match client (calls st) p with
  | Batch [] => Break st1
  | Batch batch =>
      let st2 := accept_batch batch st1 in
      if Z.of_nat (length batch) <? per_page then Break st2
      else Continue (set_page (page st2 + 1) st2)
  | Raise (WPAPIRateLimitError _) => backoff 60 st1
  | Raise (WPAPINotFoundError _) => Break st1
  | Raise (WPAPIPermissionError _) => Break st1
  | Raise (WPAPIAuthError _) | Raise (WPAPIError _) => backoff 30 st1
  | Raise e => Propagate e st1
  end.

(** How the [while] loop ends: normally, or by an exception that leaves
    it. *)
Inductive loop_exit : Type :=
| Done (st : locals)
| Escaped (e : exn) (st : locals).

Definition exit_locals (x : loop_exit) : locals :=
  match x with Done st | Escaped _ st => st end.

(** [while total_items < self.max_items_per_type: ...], with fuel. *)
Fixpoint while_loop (fuel : nat) (self : self_cfg) (type_name : string)
    (client : endpoint_client) (st : locals) : option loop_exit :=
  if total_items st <? max_items_per_type self then
    match fuel with
    | O => None
    | S fuel' =>
        match loop_body self type_name client st with
        | Continue st' => while_loop fuel' self type_name client st'
        | Break st' => Some (Done st')
        | Propagate e st' => Some (Escaped e st')
        end
    end
  else Some (Done st).

Definition initial : locals := Locals [] 1 0 0 O [].

(** Every cap on the items leaves at most this many iterations: each
    batch that continues adds at least one item, and at most
    [max_retries] failures separate two batches. *)
Definition enough_fuel (self : self_cfg) : nat :=
  Z.to_nat (6 * max_items_per_type self + 6).

Definition pagination (self : self_cfg) (type_name : string)
    (client : endpoint_client) : option loop_exit :=
  while_loop (enough_fuel self) self type_name client initial.

(** Lines 653-679: what follows the loop, and the outer handlers. *)
Definition finish (type_name : string) (stats : gmap string stat_entry)
    (x : loop_exit) : outcome (list record) * gmap string stat_entry * list event :=
  match x with
  | Done st =>
      let tr := match items st with
                | [] => trace st
                | _ => trace st ++ [save_json_file all_json (items st)]
                end in
      (Returned (items st),
       <[type_name := count_pages (Z.of_nat (length (items st))) (page st)]> stats,
       tr)
  | Escaped (WPAPIPermissionError m) st =>
      (Returned [], <[type_name := error_entry ("Permission denied: " +:+ m)]> stats,
       trace st)
  | Escaped e st =>
      if is_Exception e
      then (Returned [], <[type_name := error_entry (str e)]> stats, trace st)
      else (Raised e, stats, trace st)
  end.

(** [_backup_content_type(type_name, endpoint_client)].  [mkdir] is the
    outcome of creating [content_dir]: [Some msg] when it raises
    [OSError], which the method lets through. *)
Definition _backup_content_type (self : self_cfg) (mkdir : option string)
    (type_name : string) (client : endpoint_client)
    (stats : gmap string stat_entry)
    : option (outcome (list record) * gmap string stat_entry * list event) :=
  match mkdir with
  | Some msg => Some (Raised (OtherException msg), stats, [])
  | None =>
      match pagination self type_name client with
      | Some x => Some (finish type_name stats x)
      | None => None
      end
  end.

(** Projections of a trace. *)
Definition list_calls (tr : list event) : list params :=
  omap (fun e => match e with list_call p => Some p | _ => None end) tr.

Definition sleeps (tr : list event) : list Z :=
  omap (fun e => match e with sleep n => Some n | _ => None end) tr.

(** The per-page files written, with their page numbers. *)
Definition page_files (tr : list event) : list (Z * list record) :=
  omap (fun e => match e with
                 | save_json_file (page_json n) data => Some (n, data)
                 | _ => None
                 end) tr.

(** The contents written to all.json. *)
Definition aggregates (tr : list event) : list (list record) :=
  omap (fun e => match e with
                 | save_json_file all_json data => Some data
                 | _ => None
                 end) tr.

(** The number of records over a list of per-page files. *)
Definition record_count (fs : list (Z * list record)) : nat :=
  sum_list (map (fun f => length (snd f)) fs).

(** The measure that decreases along [Continue]. *)
Definition remaining (self : self_cfg) (st : locals) : Z :=
  6 * (max_items_per_type self - total_items st) + (max_retries - retry_count st).

Definition step_locals (s : step) : locals :=
  match s with Continue st | Break st | Propagate _ st => st end.

(** An API error that is none of rate limit, not found and permission
    denied: what the clause [except WPAPIError] of line 642 receives. *)
Definition generic_api_error (e : exn) : bool :=
  match e with
  | WPAPIAuthError _ | WPAPIError _ => true
  | _ => false
  end.

(** The loop was left because the retries were used up. *)
Definition abandoned (st : locals) : Prop := retry_count st > max_retries.

(** The files of a pass, at the head of an iteration of the loop. *)
Definition files_invariant (st : locals) : Prop :=
  aggregates (trace st) = [] /\
  items st = concat (map snd (page_files (trace st))) /\
  NoDup (map fst (page_files (trace st))) /\
  Forall (fun n => n < page st) (map fst (page_files (trace st))) /\
  Forall (fun f => snd f <> []) (page_files (trace st)).

(** The same, when the loop is left. *)
Definition files_at_exit (st : locals) : Prop :=
  aggregates (trace st) = [] /\
  items st = concat (map snd (page_files (trace st))) /\
  NoDup (map fst (page_files (trace st))) /\
  Forall (fun f => snd f <> []) (page_files (trace st)).

End WithRecord.

Arguments response : clear implicits.
Arguments endpoint_client : clear implicits.
Arguments event : clear implicits.
Arguments locals : clear implicits.
Arguments step : clear implicits.
Arguments loop_exit : clear implicits.

End Collector.

(** ** Filename sanitization: [_sanitize_filename] *)

Module Sanitize.

(** A Python [str] is a sequence of Unicode code points; [len] counts
    code points. *)
Definition char : Type := N.
Definition pystr : Type := list char.

(** An ASCII literal as a [str]. *)
Definition of_string (s : string) : pystr :=
  map N_of_ascii (list_ascii_of_string s).

Definition len (s : pystr) : Z := Z.of_nat (length s).

(** The length of the UTF-8 encoding, in bytes. *)
Definition utf8_len (c : char) : Z :=
  if (c <? 128)%N then 1
  else if (c <? 2048)%N then 2
  else if (c <? 65536)%N then 3
  else 4.

Definition utf8_length (s : pystr) : Z :=
  fold_right (fun c n => utf8_len c + n) 0 s.

Definition underscore : char := 95%N.
Definition dot : char := 46%N.
Definition slash : char := 47%N.

(** [invalid_chars]: the characters < > : double quote / backslash | ? *
    in the order of the source. *)
Definition invalid_chars : pystr :=
  [60; 62; 58; 34; 47; 92; 124; 63; 42]%N.

(** [s.replace(old, new)] for one-character [old] and [new]. *)
Definition replace (old new : char) (s : pystr) : pystr :=
  map (fun c => if (c =? old)%N then new else c) s.

(** [s.rfind(c)] for a one-character [c]: the highest index, or -1. *)
Fixpoint rfind_from (i : Z) (c : char) (s : pystr) : Z :=
  match s with
  | [] => -1
  | x :: s' =>
      let r := rfind_from (i + 1) c s' in
      if r >=? 0 then r else if (x =? c)%N then i else -1
  end.

Definition rfind (c : char) (s : pystr) : Z := rfind_from 0 c s.

(** [s[:k]], where a negative [k] counts from the end. *)
Definition slice_to (s : pystr) (k : Z) : pystr :=
  if k <? 0 then take (Z.to_nat (Z.max 0 (len s + k))) s
  else take (Z.to_nat k) s.

(** [s[i:j]] for [0 <= i]. *)
Definition slice (s : pystr) (i j : Z) : pystr :=
  drop (Z.to_nat i) (take (Z.to_nat j) s).

(** [os.path.splitext] (posixpath over [genericpath._splitext]): the
    extension starts at the last dot, provided that dot comes after the
    last separator and some character between the two is not a dot. *)
Definition splitext (p : pystr) : pystr * pystr :=
  let sepIndex := rfind slash p in
  let dotIndex := rfind dot p in
  if sepIndex <? dotIndex then
    if existsb (fun c => negb (c =? dot)%N) (slice p (sepIndex + 1) dotIndex)
    then (take (Z.to_nat dotIndex) p, drop (Z.to_nat dotIndex) p)
    else (p, [])
  else (p, []).

(** [c in invalid_chars] *)
Definition is_invalid (c : char) : bool :=
  existsb (N.eqb c) invalid_chars.

(** [s.endswith(t)] *)
Definition endswith (s t : pystr) : Prop := exists u, s = u ++ t.

Section WithUnicode.

(** [str.isprintable] and [str.isspace] of one character follow the
    Unicode character database.  For U+0000..U+00FF the tables are
    written out below; above that range they are taken as given. *)
Variable printable_above_latin1 : char -> bool.
Variable space_above_latin1 : char -> bool.

Definition isprintable (c : char) : bool :=
  if (c <? 256)%N then
    ((32 <=? c) && (c <? 127) || (161 <=? c) && negb (c =? 173))%N
  else printable_above_latin1 c.

Definition isspace (c : char) : bool :=
  if (c <? 256)%N then
    ((9 <=? c) && (c <=? 13) || (28 <=? c) && (c <=? 32)
     || (c =? 133) || (c =? 160))%N
  else space_above_latin1 c.

Fixpoint lstrip (s : pystr) : pystr :=
  match s with
  | [] => []
  | c :: s' => if isspace c then lstrip s' else s
  end.

Definition rstrip (s : pystr) : pystr := rev (lstrip (rev s)).

(** [s.strip()] *)
Definition strip (s : pystr) : pystr := rstrip (lstrip s).

Definition placeholder : pystr := of_string "unnamed_file".

(** Lines 925-927. *)
Definition replace_invalid (filename : pystr) : pystr :=
  fold_left (fun f c => replace c underscore f) invalid_chars filename.

(** Line 930. *)
Definition replace_unprintable (filename : pystr) : pystr :=
  map (fun c => if isprintable c then c else underscore) filename.

(** Lines 933-935. *)
Definition truncate (filename : pystr) : pystr :=
  if len filename >? 255 then
    let '(base, ext) := splitext filename in
    slice_to base (255 - len ext) ++ ext
  else filename.

(** Lines 938-939: [not filename or filename.strip() == ''] *)
Definition blank (filename : pystr) : bool :=
  match filename with
  | [] => true
  | _ => match strip filename with [] => true | _ => false end
  end.

(** The two replacements, character by character. *)
Definition clean_char (c : char) : char :=
  if is_invalid c || negb (isprintable c) then underscore else c.

(** The file name after lines 925-930. *)
Definition cleaned (filename : pystr) : pystr :=
  replace_unprintable (replace_invalid filename).

Definition _sanitize_filename (filename : pystr) : pystr :=
  match filename with
  | [] => placeholder
  | _ =>
      let filename := replace_invalid filename in
      let filename := replace_unprintable filename in
      let filename := truncate filename in
      if blank filename then placeholder else filename
  end.

End WithUnicode.

End Sanitize.

(** ** Media download: [_download_media_file] and the tally *)

Module Media.

Section WithPath.

(** Paths of files under [media_dir]. *)
Context {path : Type} `{Countable path}.

(** [int(media_item['filesize'])] returns, or raises one of the two
    errors [int] has. *)
Inductive int_result : Type :=
| int_ok (n : Z)
| int_ValueError
| int_TypeError.

(** The parts of a media record the skip logic reads.  [target] is the
    path lines 808-850 resolve for the record (file name, year/month
    subfolder, sanitization); [filesize] is absent when the record has no
    such key. *)
Record media_item : Type := MediaItem {
  source_url : option string;
  target : path;
  filesize : option int_result
}.

(** [requests.head] followed by [raise_for_status] and the reading of
    Content-Length (0 when the header is absent): a [RequestException] or
    a [ValueError] takes the same handler. *)
Inductive head_response : Type :=
| head_failed
| head_ok (content_length : Z).

(** [requests.get] and the streaming of the body.  [get_ok sizes] gives
    the sizes of the chunks of [iter_content]; [get_broken sizes msg] is a
    [RequestException] after these chunks were written. *)
Inductive get_response : Type :=
| get_failed (msg : string)
| get_ok (chunk_sizes : list Z)
| get_broken (chunk_sizes : list Z) (msg : string).

(** The environment of one download. *)
Record remote : Type := Remote {
  head : string -> head_response;
  get : string -> get_response;
  mkdir_parent : path -> option string;    (* [Some msg]: [OSError] *)
  open_wb : path -> option string          (* [Some msg]: [OSError] *)
}.

Inductive request : Type :=
| head_request (url : string)
| get_request (url : string).

(** The local file system: the size of each existing file. *)
Abbreviation files := (gmap path Z).

(** The tuple [(success, bytes_downloaded, error_message)]. *)
Definition result : Type := bool * Z * string.

(** [bytes_downloaded] over the chunks that pass [if chunk:]. *)
Definition received (chunk_sizes : list Z) : Z :=
  fold_right Z.add 0 (filter (fun n => n <> 0) chunk_sizes).

(** Lines 853-860: the check against the size in the record.  [None] is
    the [TypeError] of [int], which no handler catches. *)
Definition same_size_as_record (fs : files) (item : media_item) : option bool :=
  match fs !! target item with
  | None => Some false
  | Some size =>
      match filesize item with
      | None => Some false
      | Some (int_ok n) => Some (size =? n)
      | Some int_ValueError => Some false
      | Some int_TypeError => None
      end
  end.

(** Line 882. *)
Definition same_size_as_remote (fs : files) (item : media_item)
    (content_length : Z) : bool :=
  match fs !! target item with
  | None => false
  | Some size => (size =? content_length) && (content_length >? 0)
  end.

(** Lines 889-909, after the probe. *)
Definition fetch (net : remote) (url : string) (item : media_item)
    (fs : files) (reqs : list request)
    : outcome result * files * list request :=
  let reqs := reqs ++ [get_request url] in
  match get net url with
  | get_failed msg => (Returned (false, 0, "Download error: " +:+ msg), fs, reqs)
  | get_ok sizes =>
      match open_wb net (target item) with
      | Some msg => (Returned (false, 0, "File system error: " +:+ msg), fs, reqs)
      | None =>
          (Returned (true, received sizes, ""),
           <[target item := received sizes]> fs, reqs)
      end
  | get_broken sizes msg =>
      match open_wb net (target item) with
      | Some msg' => (Returned (false, 0, "File system error: " +:+ msg'), fs, reqs)
      | None =>
          (Returned (false, 0, "Download error: " +:+ msg),
           <[target item := received sizes]> fs, reqs)
      end
  end.

(** [_download_media_file(media_item, media_dir)]: the result, the file
    system afterwards and the requests sent. *)
Definition _download_media_file (net : remote) (item : media_item)
    (fs : files) : outcome result * files * list request :=
  match source_url item with
  | None | Some "" => (Returned (false, 0, "No source URL found"), fs, [])
  | Some url =>
      match same_size_as_record fs item with
      | None => (Raised (OtherException "TypeError"), fs, [])
      | Some true => (Returned (true, 0, "skipped"), fs, [])
      | Some false =>
          match mkdir_parent net (target item) with
          | Some msg =>
              (Returned (false, 0,
                         "Failed to create directory for media file: " +:+ msg),
               fs, [])
          | None =>
              match head net url with
              | head_ok content_length =>
                  if same_size_as_remote fs item content_length
                  then (Returned (true, 0, "skipped"), fs, [head_request url])
                  else fetch net url item fs [head_request url]
              | head_failed => fetch net url item fs [head_request url]
              end
          end
      end
  end.

(** [download_stats] of [_download_media_files]. *)
Record download_stats : Type := DownloadStats {
  total : Z;
  success : Z;
  failed : Z;
  skipped : Z;
  bytes_downloaded : Z
}.

(** Lines 765-783: the accounting of one completed future. *)
Definition tally (r : outcome result) (d : download_stats) : download_stats :=
  match r with
  | Returned (true, bytes, _) =>
      DownloadStats (total d) (success d + 1) (failed d) (skipped d)
                    (bytes_downloaded d + bytes)
  | Returned (false, _, error) =>
      if bool_decide (error = "skipped")
      then DownloadStats (total d) (success d) (failed d) (skipped d + 1)
                         (bytes_downloaded d)
      else DownloadStats (total d) (success d) (failed d + 1) (skipped d)
                         (bytes_downloaded d)
  | Raised _ =>
      DownloadStats (total d) (success d) (failed d + 1) (skipped d)
                    (bytes_downloaded d)
  end.

End WithPath.

Arguments media_item : clear implicits.
Arguments remote : clear implicits.

End Media.

(** ** The orchestrator: [__init__], [_init_wp_client] and [run_backup] *)

Module Orchestrator.

(** *** Client initialisation *)

(** The [auth] argument given to [WPClient]. *)
Inductive client_auth : Type :=
| anonymous                  (* auth=None *)
| credentials.               (* BasicAuth or ApplicationPasswordAuth *)

(** Truth value of an optional string: [None] and [''] are false. *)
Definition truthy (s : option string) : bool :=
  match s with
  | None | Some "" => false
  | Some _ => true
  end.

(** Line 167: [self.username and self.password and not force_public]. *)
Definition authenticated_mode (username password : option string)
    (force_public : bool) : bool :=
  truthy username && truthy password && negb force_public.

(** [_init_wp_client]: [discover] is the outcome of the connection test
    [self.client.discover_endpoints()].  The result is the [auth] of the
    client in [self.client], or the exception the method raises. *)
Definition _init_wp_client (is_authenticated : bool)
    (discover : option exn) : outcome client_auth :=
  let client := if is_authenticated then credentials else anonymous in
  match discover with
  | None => Returned client
  | Some (WPAPIAuthError msg) =>
      if is_authenticated then Raised (WPAPIAuthError msg)
      else Returned anonymous
  | Some e => Raised e
  end.

(** The end of [__init__], lines 163-172 and 224-230: the mode, then the
    client; an exception of [_init_wp_client] is logged and raised again. *)
Definition WordPressBackup (username password : option string)
    (force_public : bool) (discover : option exn)
    : outcome (bool * client_auth) :=
  let is_authenticated := authenticated_mode username password force_public in
  match _init_wp_client is_authenticated discover with
  | Returned client => Returned (is_authenticated, client)
  | Raised e => Raised e
  end.

(** *** The run *)

Inductive run_status : Type :=
| in_progress
| completed
| interrupted
| failed.

(** The keys of [backup_info] the run writes; [status] is [None] while the
    key is absent. *)
Record backup_info : Type := BackupInfo {
  status : option run_status;
  error : option string;
  stats : gmap string stat_entry;
  s3_upload_error : option string
}.

(** Actions of a run, in program order.  [save_backup_info] carries the
    dictionary written to backup_info.json. *)
Inductive event : Type :=
| save_backup_info (info : backup_info)
| detect_custom_post_types
| backup_method (content_type : string)
| upload_to_s3.

Record world : Type := World {
  info : backup_info;
  trace : list event
}.

(** A backup method reads and updates [backup_info['stats']] and returns
    or raises.  The progress reports of the media download, which write
    backup_info.json with the status as it is, are not in the trace. *)
Definition method : Type :=
  gmap string stat_entry -> option exn * gmap string stat_entry.

(** The parts of [self] the run depends on.  [methods] is the lookup
    [hasattr]/[getattr] of [_backup_<content_type>]; [s3] is [None]
    without a bucket and otherwise the outcome of [_upload_to_s3]. *)
Record self_cfg : Type := Self {
  content_types : list string;
  methods : string -> option method;
  _detect_custom_post_types : method;
  s3 : option (option exn)
}.

Definition set_status (s : run_status) (w : world) : world :=
  World (BackupInfo (Some s) (error (info w)) (stats (info w))
                    (s3_upload_error (info w)))
        (trace w).

Definition set_error (msg : string) (w : world) : world :=
  World (BackupInfo (status (info w)) (Some msg) (stats (info w))
                    (s3_upload_error (info w)))
        (trace w).

Definition set_stats (st : gmap string stat_entry) (w : world) : world :=
  World (BackupInfo (status (info w)) (error (info w)) st
                    (s3_upload_error (info w)))
        (trace w).

Definition set_s3_upload_error (msg : string) (w : world) : world :=
  World (BackupInfo (status (info w)) (error (info w)) (stats (info w))
                    (Some msg))
        (trace w).

Definition emit (e : event) (w : world) : world :=
  World (info w) (trace w ++ [e]).

Definition _save_backup_info (w : world) : world :=
  emit (save_backup_info (info w)) w.

(** Lines 331-343: the handlers around one backup method.  [None]: no
    clause matches and the exception leaves the loop. *)
Definition captured (e : exn) : option string :=
  match e with
  | WPAPIPermissionError m => Some ("Permission denied: " +:+ m)
  | WPAPINotFoundError m => Some ("Not found: " +:+ m)
  | e => if is_Exception e then Some (str e) else None
  end.

(** One iteration of the loop of lines 320-343. *)
Definition backup_one (self : self_cfg) (content_type : string)
    (w : world) : option exn * world :=
  if bool_decide (content_type = "custom_post_types") then (None, w)
  else
    match methods self content_type with
    | None => (None, w)
    | Some m =>
        let w := emit (backup_method content_type) w in
        match m (stats (info w)) with
        | (None, st) => (None, set_stats st w)
        | (Some e, st) =>
            match captured e with
            | Some msg =>
                (None, set_stats (<[content_type := error_entry msg]> st) w)
            | None => (Some e, set_stats st w)
            end
        end
    end.

(** The loop of lines 320-343 over a list of content types. *)
Fixpoint backup_each (self : self_cfg) (types : list string) (w : world)
    : option exn * world :=
  match types with
  | [] => (None, w)
  | content_type :: rest =>
      match backup_one self content_type w with
      | (None, w') => backup_each self rest w'
      | (Some e, w') => (Some e, w')
      end
  end.

(** Lines 316-317. *)
Definition detect (self : self_cfg) (w : world) : option exn * world :=
  if bool_decide ("custom_post_types" ∈ content_types self) then
    let w := emit detect_custom_post_types w in
    let '(r, st) := _detect_custom_post_types self (stats (info w)) in
    (r, set_stats st w)
  else (None, w).

(** Lines 346-352.  An upload that succeeds ends by writing
    backup_info.json (line 1086). *)
Definition upload (self : self_cfg) (w : world) : option exn * world :=
  match s3 self with
  | None => (None, w)
  | Some r =>
      let w := emit upload_to_s3 w in
      match r with
      | None => (None, _save_backup_info w)
      | Some e =>
          if is_Exception e then (None, set_s3_upload_error (str e) w)
          else (Some e, w)
      end
  end.

(** The body of the [try] of [run_backup], lines 311-364. *)
Definition try_body (self : self_cfg) (w : world) : option exn * world :=
  let w := _save_backup_info (set_status in_progress w) in
  match detect self w with
  | (Some e, w) => (Some e, w)
  | (None, w) =>
      match backup_each self (content_types self) w with
      | (Some e, w) => (Some e, w)
      | (None, w) =>
          match upload self w with
          | (Some e, w) => (Some e, w)
          | (None, w) => (None, _save_backup_info (set_status completed w))
          end
      end
  end.

(** [run_backup], with the handlers of lines 366-378. *)
Definition run_backup (self : self_cfg) (w : world)
    : outcome backup_info * world :=
  match try_body self w with
  | (None, w) => (Returned (info w), w)
  | (Some KeyboardInterrupt, w) =>
      (Raised KeyboardInterrupt, _save_backup_info (set_status interrupted w))
  | (Some e, w) =>
      if is_Exception e
      then (Raised e,
            _save_backup_info (set_error (str e) (set_status failed w)))
      else (Raised e, w)
  end.

(** [backup_info] as [__init__] leaves it: no status yet. *)
Definition not_started : world := World (BackupInfo None None ∅ None) [].

(** The handler the module installs for SIGINT, lines 78-83 (and again in
    [main], lines 1213-1217): [sys.exit(1)]. *)
Definition signal_handler : exn := SystemExit 1.

(** The statuses written to backup_info.json, in order. *)
Definition saved_statuses (tr : list event) : list (option run_status) :=
  omap (fun e => match e with
                 | save_backup_info i => Some (status i)
                 | _ => None
                 end) tr.

(** The content types whose backup method was called, in order. *)
Definition attempted (tr : list event) : list string :=
  omap (fun e => match e with
                 | backup_method content_type => Some content_type
                 | _ => None
                 end) tr.

(** The content types of a list that the loop hands to a method. *)
Definition eligible (self : self_cfg) (types : list string) : list string :=
  filter (fun content_type =>
            content_type <> "custom_post_types" /\
            is_Some (methods self content_type)) types.

(** The run goes on from [w] to [w'] without touching the status: what it
    writes to backup_info.json in between carries the status of [w]. *)
Definition quiet (w w' : world) : Prop :=
  exists evs,
    trace w' = trace w ++ evs /\
    Forall (fun s => s = status (info w)) (saved_statuses evs) /\
    status (info w') = status (info w).

(** The statuses a run writes after [in_progress], by its outcome. *)
Definition terminal_statuses (r : outcome backup_info)
    : list (option run_status) :=
  match r with
  | Returned _ => [Some completed]
  | Raised KeyboardInterrupt => [Some interrupted]
  | Raised e => if is_Exception e then [Some failed] else []
  end.

End Orchestrator.

(** ** Concrete runs

    Clients and configurations the statements below are tried on.  Records
    are numbers here. *)

Module Examples.

Import Collector.

Definition public_cfg : self_cfg := Self false 1000.
Definition authenticated_cfg : self_cfg := Self true 1000.

(** One short page of three records. *)
Definition short_page : endpoint_client nat :=
  fun _ _ => Batch [1%nat; 2%nat; 3%nat].

(** A full page, then a page of two records. *)
Definition two_pages : endpoint_client nat :=
  fun n _ => match n with
             | O => Batch (repeat 7%nat 100)
             | _ => Batch [8%nat; 9%nat]
             end.

(** Every call is rate limited. *)
Definition always_rate_limited : endpoint_client nat :=
  fun _ _ => Raise (WPAPIRateLimitError "429").

(** Every call fails with a server error. *)
Definition always_failing : endpoint_client nat :=
  fun _ _ => Raise (WPAPIError "500").

(** A full page, then server errors only. *)
Definition page_then_failing : endpoint_client nat :=
  fun n _ => match n with
             | O => Batch (repeat 7%nat 100)
             | _ => Raise (WPAPIError "500")
             end.


(** The local variables when the loop of a pass is left. *)
Definition locals_after (self : self_cfg) (type_name : string)
    (client : endpoint_client nat) : locals nat :=
  match pagination self type_name client with
  | Some x => exit_locals x
  | None => initial
  end.

(** Media records, keyed by the text of their path, and remotes. *)
Definition photo : Media.media_item string :=
  Media.MediaItem (Some "https://example.com/photo.png") "2024/01/photo.png"
                  (Some (Media.int_ok 1200)).

Definition photo_without_size : Media.media_item string :=
  Media.MediaItem (Some "https://example.com/photo.png") "2024/01/photo.png"
                  None.

(** The remote serves 1200 bytes in two chunks and reports that size. *)
Definition serving_photo : Media.remote string :=
  Media.Remote (fun _ => Media.head_ok 1200)
               (fun _ => Media.get_ok [800; 400])
               (fun _ => None) (fun _ => None).

(** The remote serves an empty body and reports Content-Length 0. *)
Definition serving_empty : Media.remote string :=
  Media.Remote (fun _ => Media.head_ok 0)
               (fun _ => Media.get_ok [])
               (fun _ => None) (fun _ => None).

(** Backup methods: one that stores a count, one that fails with a server
    error, one during which SIGINT arrives. *)
Definition storing (content_type : string) (n : Z) : Orchestrator.method :=
  fun st => (None, <[content_type := count_pages n 1]> st).

Definition failing : Orchestrator.method :=
  fun st => (Some (WPAPIError "500"), st).

Definition interrupted_by_sigint : Orchestrator.method :=
  fun st => (Some Orchestrator.signal_handler, st).

(** Posts fail, pages and tags are stored. *)
Definition posts_fail : Orchestrator.self_cfg :=
  Orchestrator.Self
    ["posts"; "custom_post_types"; "pages"; "tags"]
    (fun content_type =>
       if bool_decide (content_type = "posts") then Some failing
       else if bool_decide (content_type = "pages") then Some (storing "pages" 12)
       else if bool_decide (content_type = "tags") then Some (storing "tags" 3)
       else None)
    (fun st => (None, st))
    None.

(** Posts are stored, SIGINT arrives during pages. *)
Definition sigint_during_pages : Orchestrator.self_cfg :=
  Orchestrator.Self
    ["posts"; "pages"; "tags"]
    (fun content_type =>
       if bool_decide (content_type = "posts") then Some (storing "posts" 40)
       else if bool_decide (content_type = "pages") then Some interrupted_by_sigint
       else if bool_decide (content_type = "tags") then Some (storing "tags" 3)
       else None)
    (fun st => (None, st))
    None.

(** File names. *)
Definition long_extension : Sanitize.pystr :=
  Sanitize.of_string "a." ++ repeat 98%N 300.            (* a.bbb...b *)

Definition long_png : Sanitize.pystr :=
  repeat 97%N 296 ++ Sanitize.of_string ".png".          (* aaa...a.png *)

Definition accented : Sanitize.pystr := repeat 233%N 200.  (* 200 times U+00E9 *)

End Examples.

(** ** The order of the pages of a pass *)

Module PageOrder.

(** The page numbers of the list calls of a trace, in order. *)
Definition pages_requested {record : Type}
    (tr : list (Collector.event record)) : list Z :=
  map Collector.param_page (Collector.list_calls tr).

(** A sequence of page numbers that starts at 1 and goes on with the same
    page or the next one. *)
Inductive in_page_order : list Z -> Prop :=
| no_page : in_page_order []
| first_page : in_page_order [1]
| next_page (l : list Z) (p q : Z) :
    in_page_order (l ++ [p]) ->
    q = p \/ q = p + 1 ->
    in_page_order (l ++ [p; q]).

(** The pages at the head of an iteration of the loop: the files written
    are those of the pages before [page], and the last call was for [page]
    or the page before. *)
Definition pages_invariant {record : Type} (st : Collector.locals record)
    : Prop :=
  1 <= Collector.page st /\
  map fst (Collector.page_files (Collector.trace st))
    = seqZ 1 (Collector.page st - 1) /\
  in_page_order (pages_requested (Collector.trace st)) /\
  ((pages_requested (Collector.trace st) = [] /\ Collector.page st = 1) \/
   exists l p,
     pages_requested (Collector.trace st) = l ++ [p] /\
     (Collector.page st = p \/ Collector.page st = p + 1)).

(** The pages when the loop is left. *)
Definition pages_at_exit {record : Type} (st : Collector.locals record)
    : Prop :=
  in_page_order (pages_requested (Collector.trace st)) /\
  exists k,
    0 <= k /\
    map fst (Collector.page_files (Collector.trace st)) = seqZ 1 k /\
    (Collector.page st = k \/ Collector.page st = k + 1) /\
    1 <= Collector.page st.

End PageOrder.

(** ** The selection of the content types: [__init__], lines 174-187 *)

Module Selection.

Definition PUBLIC_CONTENT_TYPES : list string :=
  ["posts"; "pages"; "media"; "categories"; "tags"; "comments";
   "custom_post_types"].

Definition AUTH_CONTENT_TYPES : list string := ["users"; "settings"].

Definition ALL_CONTENT_TYPES : list string :=
  PUBLIC_CONTENT_TYPES ++ AUTH_CONTENT_TYPES.

(** [self.content_types] for the [content_types] argument, [None] or a
    list; an empty list counts as no list. *)
Definition select_content_types (is_authenticated : bool)
    (content_types : option (list string)) : list string :=
  match content_types with
  | None | Some [] =>
      if is_authenticated then ALL_CONTENT_TYPES else PUBLIC_CONTENT_TYPES
  | Some types =>
      if is_authenticated then types
      else
        let filtered_types :=
          filter (fun ct => ct ∉ AUTH_CONTENT_TYPES) types in
        if (length filtered_types <? length types)%nat
        then filtered_types else types
  end.

End Selection.

(** ** The entry point: [main], lines 1220-1301 *)

Module Main.

Import Orchestrator.

(** The handlers of lines 1278-1301: every [Exception] and
    [KeyboardInterrupt] gives the exit status 1; anything else goes on. *)
Definition exit_status (e : exn) : outcome Z :=
  match e with
  | KeyboardInterrupt => Returned 1
  | e => if is_Exception e then Returned 1 else Raised e
  end.

(** [main] after the parsing of the arguments: [constructed] is [Some e]
    when the construction of the tool raises [e]. *)
Definition main (constructed : option exn) (self : self_cfg)
    : outcome Z * world :=
  match constructed with
  | Some e => (exit_status e, not_started)
  | None =>
      match run_backup self not_started with
      | (Returned _, w) => (Returned 0, w)
      | (Raised e, w) => (exit_status e, w)
      end
  end.

End Main.

(** ** The discovery of custom post types: [_detect_custom_post_types] *)

Module Discovery.

(** ['/' in s] *)
Fixpoint has_slash (s : string) : bool :=
  match s with
  | EmptyString => false
  | String c rest => Ascii.eqb c "/" || has_slash rest
  end.

(** [s.split('/')[-1]]: what follows the last slash, or all of [s]. *)
Fixpoint last_segment (s : string) : string :=
  match s with
  | EmptyString => EmptyString
  | String c rest =>
      if has_slash rest then last_segment rest
      else if Ascii.eqb c "/" then rest else String c rest
  end.

(** [s.endswith(suffix)] *)
Definition endswith (s suffix : string) : bool :=
  let n := String.length s in
  let m := String.length suffix in
  (m <=? n)%nat && String.eqb (String.substring (n - m) m s) suffix.

Definition COMMON_CUSTOM_POST_TYPES : list string :=
  ["product"; "portfolio"; "testimonial"; "team"; "faq";
   "service"; "project"; "event"; "course"; "review"].

(** Lines 392-397: the post type a route stands for, if any. *)
Definition route_post_type (route : string) : option string :=
  if String.prefix "/wp/v2/" route
     && negb (existsb (fun cpt => endswith route ("/" +:+ cpt))
                      ["posts"; "pages"; "media"])
  then
    let post_type := last_segment route in
    if negb (String.eqb post_type "")
       && negb (bool_decide (post_type ∈ [""; "posts"; "pages"; "media"]))
    then Some post_type
    else None
  else None.

(** Lines 389-397, over the keys of [endpoints['routes']] in their order;
    [None] when the key 'routes' is absent. *)
Definition from_routes (routes : option (list string)) : list string :=
  match routes with
  | None => []
  | Some rs => omap route_post_type rs
  end.

(** The probe of one common name, lines 403-420: [cpt_client.list] returns
    items or none, or a call raises. *)
Inductive probe_result : Type :=
| probe_items (found : bool)
| probe_raises (e : exn).

(** Lines 402-420.  An API error skips the candidate; another exception
    leaves the loop. *)
Fixpoint try_common (probe : string -> probe_result)
    (candidates : list string) : outcome (list string) :=
  match candidates with
  | [] => Returned []
  | cpt :: rest =>
      match probe cpt with
      | probe_items found =>
          match try_common probe rest with
          | Returned l => Returned (if found then cpt :: l else l)
          | Raised e => Raised e
          end
      | probe_raises e =>
          if is_WPAPIError e then try_common probe rest else Raised e
      end
  end.

(** A candidate is kept when its probe returns items. *)
Definition confirmed (probe : string -> probe_result) (cpt : string) : bool :=
  match probe cpt with
  | probe_items true => true
  | _ => false
  end.

(** Lines 428-430: the custom post types are backed up one after the other
    until one raises.  The result lists those whose backup was started. *)
Fixpoint backup_all (backup : string -> option exn) (cpts : list string)
    : option exn * list string :=
  match cpts with
  | [] => (None, [])
  | cpt :: rest =>
      match backup cpt with
      | None => let '(r, started) := backup_all backup rest in (r, cpt :: started)
      | Some e => (Some e, [cpt])
      end
  end.

(** Lines 434-443: a permission error is logged, any other exception is
    raised again. *)
Definition handled (e : exn) : option exn :=
  match e with
  | WPAPIPermissionError _ => None
  | e => Some e
  end.

(** The remote site and the backup of one custom post type, as the method
    sees them. *)
Record site : Type := Site {
  discover_endpoints : outcome (option (list string));
  probe : string -> probe_result;
  _backup_custom_post_type : string -> option exn
}.

(** [_detect_custom_post_types]: the exception raised, if any; the list
    stored in [backup_info['custom_post_types']], if one is stored; and the
    custom post types whose backup was started. *)
Definition _detect_custom_post_types (s : site)
    : option exn * option (list string) * list string :=
  match discover_endpoints s with
  | Raised e => (handled e, None, [])
  | Returned routes =>
      let custom_post_types := from_routes routes in
      let found :=
        match custom_post_types with
        | [] => try_common (probe s) COMMON_CUSTOM_POST_TYPES
        | _ => Returned custom_post_types
        end in
      match found with
      | Raised e => (handled e, None, [])
      | Returned cpts =>
          let '(r, started) := backup_all (_backup_custom_post_type s) cpts in
          (match r with Some e => handled e | None => None end,
           Some cpts, started)
      end
  end.

End Discovery.

(** ** The custom fields of a custom post type: [_backup_custom_post_type] *)

Module Meta.

(** [meta_client.get_all(item_id)] and what follows it in the [try]:
    [meta_data nonempty written] is a dictionary, empty or not, and whether
    the writing of its file went through; [meta_raises e] is a call that
    raises. *)
Inductive meta_result : Type :=
| meta_data (nonempty written : bool)
| meta_raises (e : exn).

(** Lines 528-542 over the items, each with its 'id' if it has one: the
    exception that leaves the loop, if any, the two counters and the
    identifiers whose file was written.  An item without 'id' raises
    [KeyError] in the [try] and again in the handler, which reads
    [item['id']] for its message. *)
Fixpoint meta_loop (get_all : Z -> meta_result) (items : list (option Z))
    (meta_successes meta_errors : Z) (files : list Z)
    : option exn * Z * Z * list Z :=
  match items with
  | [] => (None, meta_successes, meta_errors, files)
  | None :: _ =>
      (Some (OtherException "KeyError"), meta_successes, meta_errors, files)
  | Some item_id :: rest =>
      match get_all item_id with
      | meta_data false _ =>
          meta_loop get_all rest meta_successes meta_errors files
      | meta_data true true =>
          meta_loop get_all rest (meta_successes + 1) meta_errors
                    (files ++ [item_id])
      | meta_data true false =>
          meta_loop get_all rest meta_successes (meta_errors + 1) files
      | meta_raises e =>
          if is_Exception e
          then meta_loop get_all rest meta_successes (meta_errors + 1) files
          else (Some e, meta_successes, meta_errors, files)
      end
  end.

(** Lines 518-552.  [setup] is the outcome of [get_meta] and of the
    creation of the directory. *)
Definition backup_meta (is_authenticated : bool) (post_type : string)
    (setup : option exn) (get_all : Z -> meta_result)
    (items : list (option Z)) (stats : gmap string stat_entry)
    : option exn * gmap string stat_entry * list Z :=
  match items with
  | [] => (None, stats, [])
  | _ =>
      if is_authenticated then
        match setup with
        | Some e => (if is_Exception e then None else Some e, stats, [])
        | None =>
            match meta_loop get_all items 0 0 [] with
            | (None, meta_successes, meta_errors, files) =>
                (None,
                 <["cpt_" +:+ post_type +:+ "_meta"
                     := count_errors meta_successes meta_errors]> stats,
                 files)
            | (Some e, _, _, files) =>
                (if is_Exception e then None else Some e, stats, files)
            end
        end
      else (None, stats, [])
  end.




End Meta.

(** ** The upload to S3: [_upload_to_s3] *)

Module Upload.

Definition backslash : ascii := ascii_of_nat 92.

(** [posixpath.join(a, b)] *)
Definition join (a b : string) : string :=
  if String.prefix "/" b then b
  else if String.eqb a "" || Discovery.endswith a "/" then a +:+ b
  else a +:+ "/" +:+ b.

(** [s.replace(backslash, '/')] *)
Fixpoint replace_backslash (s : string) : string :=
  match s with
  | EmptyString => EmptyString
  | String c rest =>
      String (if Ascii.eqb c backslash then "/"%char else c)
             (replace_backslash rest)
  end.

Fixpoint has_backslash (s : string) : bool :=
  match s with
  | EmptyString => false
  | String c rest => Ascii.eqb c backslash || has_backslash rest
  end.

(** Lines 1026-1029. *)
Definition s3_key (s3_prefix relative_path : string) : string :=
  replace_backslash (join s3_prefix relative_path).

(** [os.path.getsize] followed by [upload_file], lines 1043-1056. *)
Inductive transfer : Type :=
| transferred (file_size : Z)
| transfer_raises (e : exn).

(** A file of the walk: its path relative to the output directory, [None]
    when the preparation of lines 1023-1031 raises, and how its transfer
    goes. *)
Record walked : Type := Walked {
  relative_path : option string;
  transfer_of : transfer
}.

(** [backup_info['s3_upload']] *)
Record s3_upload : Type := S3Upload {
  files_uploaded : Z;
  upload_errors : Z;
  total_bytes : Z
}.

(** Lines 1020-1034. *)
Fixpoint prepare (s3_prefix : string) (files : list walked)
    : list (string * transfer) * Z :=
  match files with
  | [] => ([], 0)
  | f :: rest =>
      let '(files_to_upload, upload_errors) := prepare s3_prefix rest in
      match relative_path f with
      | Some rel => ((s3_key s3_prefix rel, transfer_of f) :: files_to_upload,
                     upload_errors)
      | None => (files_to_upload, upload_errors + 1)
      end
  end.

(** Lines 1041-1070: the exception that leaves the loop, if any, and the
    counters. *)
Fixpoint upload_loop (files_to_upload : list (string * transfer))
    (acc : s3_upload) : option exn * s3_upload :=
  match files_to_upload with
  | [] => (None, acc)
  | (_, transferred file_size) :: rest =>
      upload_loop rest (S3Upload (files_uploaded acc + 1) (upload_errors acc)
                                 (total_bytes acc + file_size))
  | (_, transfer_raises e) :: rest =>
      if is_Exception e
      then upload_loop rest (S3Upload (files_uploaded acc) (upload_errors acc + 1)
                                      (total_bytes acc))
      else (Some e, acc)
  end.

(** [_upload_to_s3] with a client: what it raises, if anything, and the
    summary it stores when it does not raise. *)
Definition _upload_to_s3 (s3_prefix : string) (files : list walked)
    : option exn * option s3_upload :=
  let '(files_to_upload, upload_errors) := prepare s3_prefix files in
  match upload_loop files_to_upload (S3Upload 0 upload_errors 0) with
  | (None, summary) => (None, Some summary)
  | (Some e, _) => (Some e, None)
  end.

Definition size_transferred (f : walked) : Z :=
  match relative_path f, transfer_of f with
  | Some _, transferred file_size => file_size
  | _, _ => 0
  end.

End Upload.

(** ** The end time of the manifest: [_save_backup_info] *)

Module Manifest.

(** Lines 995-996: ['end_time'] after a call at the time [now]. *)
Definition _save_backup_info (now : Z) (end_time : option Z) : option Z :=
  match end_time with
  | None => Some now
  | Some t => Some t
  end.

(** The ['end_time'] of the files written by calls at the times [clock]. *)
Fixpoint written_end_times (clock : list Z) (end_time : option Z)
    : list (option Z) :=
  match clock with
  | [] => []
  | now :: later =>
      let end_time := _save_backup_info now end_time in
      end_time :: written_end_times later end_time
  end.

End Manifest.

(** ** The settings: [_backup_settings] and [_save_json_file] *)

Module Settings.

(** [self.client.settings.get()]: a dictionary, empty or not, or a call
    that raises. *)
Inductive get_result : Type :=
| settings (nonempty : bool)
| get_raises (e : exn).

(** What [_save_json_file] leaves on disk: the file, the simplified file,
    or nothing. *)
Inductive saved : Type := written | simplified | lost.

(** [_save_json_file], lines 689-703.  [dump] is the outcome of the first
    attempt (the parent directory, [open], [json.dump]), [simplified_dump]
    that of the attempt of lines 700-701. *)
Definition _save_json_file (dump simplified_dump : option exn)
    : outcome saved :=
  match dump with
  | None => Returned written
  | Some e =>
      if is_Exception e then
        match simplified_dump with
        | None => Returned simplified
        | Some e' => if is_Exception e' then Returned lost else Raised e'
        end
      else Raised e
  end.

(** The handlers of lines 497-506. *)
Definition handlers (e : exn) (stats : gmap string stat_entry)
    : option exn * gmap string stat_entry :=
  match e with
  | WPAPIPermissionError _ =>
      (None,
       <["settings"
           := error_entry "Permission denied - requires authentication"]> stats)
  | e =>
      if is_WPAPIError e
      then (None, <["settings" := error_entry (str e)]> stats)
      else (Some e, stats)
  end.

(** [_backup_settings], lines 485-506: what it raises, the statistics, and
    what the writing of the file left, when it was tried.  [mkdir] is the
    outcome of the creation of the directory. *)
Definition _backup_settings (get : get_result)
    (mkdir dump simplified_dump : option exn)
    (stats : gmap string stat_entry)
    : option exn * gmap string stat_entry * option saved :=
  match get with
  | get_raises e => (handlers e stats, None)
  | settings false => (None, stats, None)
  | settings true =>
      match mkdir with
      | Some e => (handlers e stats, None)
      | None =>
          match _save_json_file dump simplified_dump with
          | Returned f =>
              (None, <["settings" := count_only 1]> stats, Some f)
          | Raised e => (handlers e stats, None)
          end
      end
  end.

(** The method as [run_backup] calls it. *)
Definition backup_method (get : get_result)
    (mkdir dump simplified_dump : option exn) : Orchestrator.method :=
  fun stats => fst (_backup_settings get mkdir dump simplified_dump stats).

(** The text stored for an error of the call. *)
Definition error_text (e : exn) : string :=
  match e with
  | WPAPIPermissionError _ => "Permission denied - requires authentication"
  | e => str e
  end.

End Settings.

(** ** The accounting of the media downloads: [_download_media_files] *)

Module Coordinator.

Import Media.

(** Lines 723-791.  The futures are handled one at a time, in the order in
    which they complete; [completed] lists their results in that order, one
    for each media item.  The progress reports are left out. *)
Definition _download_media_files (completed : list (outcome result))
    : download_stats :=
  fold_left (fun d r => tally r d) completed
            (DownloadStats (Z.of_nat (length completed)) 0 0 0 0).

(** The bytes reported by the results that count as successes. *)
Definition bytes_of (r : outcome result) : Z :=
  match r with
  | Returned (true, bytes, _) => bytes
  | _ => 0
  end.

End Coordinator.

(** ** More concrete runs *)

Module MoreExamples.

Import Collector.

Definition capped_at_zero : self_cfg := Self false 0.

(** The endpoint does not exist. *)
Definition missing_endpoint : endpoint_client nat :=
  fun _ _ => Raise (WPAPINotFoundError "404").

(** Rate limits and server errors in turn. *)
Definition mixed_failures : endpoint_client nat :=
  fun n _ => if Nat.even n then Raise (WPAPIRateLimitError "429")
             else Raise (WPAPIError "500").

(** The discovery of the custom post types fails with a server error. *)
Definition discovery_fails : Orchestrator.self_cfg :=
  Orchestrator.Self
    ["posts"; "custom_post_types"; "pages"]
    (fun content_type =>
       if bool_decide (content_type = "posts")
       then Some (Examples.storing "posts" 40)
       else if bool_decide (content_type = "pages")
       then Some (Examples.storing "pages" 12)
       else None)
    (fun st => (Some (WPAPIError "500"), st))
    None.

(** A site whose routes advertise three custom post types; the backup of
    the second one is refused. *)
Definition shop : Discovery.site :=
  Discovery.Site
    (Returned (Some ["/"; "/wp/v2"; "/wp/v2/posts"; "/wp/v2/product"; "/wp/v2/book";
                     "/oembed/1.0/embed"; "/wp/v2/film"]))
    (fun _ => Discovery.probe_items false)
    (fun cpt => if bool_decide (cpt = "book")
                then Some (WPAPIPermissionError "403") else None).

(** A site whose routes show no custom post type: products answer the
    probe with items, teams with none, events are refused and the other
    common names are unknown. *)
Definition plain_site : Discovery.site :=
  Discovery.Site
    (Returned (Some ["/"; "/wp/v2/posts"; "/wp/v2/pages"]))
    (fun cpt =>
       if bool_decide (cpt = "product") then Discovery.probe_items true
       else if bool_decide (cpt = "team") then Discovery.probe_items false
       else if bool_decide (cpt = "event")
       then Discovery.probe_raises (WPAPIPermissionError "403")
       else Discovery.probe_raises (WPAPINotFoundError "404"))
    (fun _ => None).

(** The custom fields of five items: a server error for item 7, no custom
    field for item 8, a file that cannot be written for item 9. *)
Definition custom_fields : Z -> Meta.meta_result :=
  fun item_id =>
    if item_id =? 7 then Meta.meta_raises (WPAPIError "500")
    else if item_id =? 8 then Meta.meta_data false false
    else Meta.meta_data true (negb (item_id =? 9)).

(** A relative path and a prefix written with backslashes. *)
Definition windows_path : string :=
  "media" +:+ String Upload.backslash "photo.jpg".

Definition windows_prefix : string :=
  "backups" +:+ String Upload.backslash "2024".

(** Three files of a backup: one uploaded, one whose path cannot be
    prepared, one refused by S3. *)
Definition walk : list Upload.walked :=
  [Upload.Walked (Some "posts/all.json") (Upload.transferred 2048);
   Upload.Walked None (Upload.transferred 10);
   Upload.Walked (Some windows_path)
                 (Upload.transfer_raises (OtherException "ClientError"))].

(** Only the settings are asked for, and the site does not have them. *)
Definition settings_missing : Orchestrator.self_cfg :=
  Orchestrator.Self
    ["settings"]
    (fun content_type =>
       if bool_decide (content_type = "settings")
       then Some (Settings.backup_method
                    (Settings.get_raises (WPAPINotFoundError "404"))
                    None None None)
       else None)
    (fun st => (None, st))
    None.

(** Only the settings are asked for; neither file can be written. *)
Definition settings_unwritable : Orchestrator.self_cfg :=
  Orchestrator.Self
    ["settings"]
    (fun content_type =>
       if bool_decide (content_type = "settings")
       then Some (Settings.backup_method
                    (Settings.settings true) None
                    (Some (OtherException "disk full"))
                    (Some (OtherException "disk full")))
       else None)
    (fun st => (None, st))
    None.

End MoreExamples.

(** * Properties of the collector *)

Section CollectorFacts.

Import Collector.

Context {record : Type}.

Implicit Types (st : locals record) (client : endpoint_client record)
  (self : self_cfg) (type_name : string).

Lemma backoff_cases cap st :
  (retry_count st + 1 <= max_retries /\
   backoff cap st =
     Continue (emit (sleep (Z.min (2 ^ retry_count st) cap))
                    (set_retry_count (retry_count st + 1) st)))
  \/ (retry_count st + 1 > max_retries /\
      backoff cap st = Break (set_retry_count (retry_count st + 1) st)).
Proof.
  unfold backoff.
  destruct (retry_count st + 1 >? max_retries) eqn:E.
  - right. split; [lia | reflexivity].
  - left. split; [lia |].
    replace (retry_count st + 1 - 1) with (retry_count st) by lia.
    reflexivity.
Qed.

Lemma loop_body_continue self type_name client st st' :
  0 <= retry_count st <= max_retries ->
  loop_body self type_name client st = Continue st' ->
  0 <= retry_count st' <= max_retries /\
  remaining self st' < remaining self st.
Proof.
  intros Hr. unfold loop_body, remaining.
  destruct (client _ _) as [[|r b]|e].
  - discriminate.
  - destruct (_ <? per_page); [discriminate|].
    intros [= <-]. cbn [retry_count total_items accept_batch set_page].
    unfold max_retries in *. cbn [length]. lia.
  - destruct e; try discriminate.
    all: match goal with |- backoff ?c ?s = _ -> _ =>
           destruct (backoff_cases c s) as [[Hle ->]|[_ ->]]; [|discriminate] end.
    all: intros [= <-]; cbn in *; unfold max_retries in *; lia.
Qed.

Lemma while_loop_fuel self type_name client fuel : forall st,
  0 <= retry_count st <= max_retries ->
  remaining self st < Z.of_nat fuel ->
  exists x, while_loop fuel self type_name client st = Some x.
Proof.
  induction fuel as [|fuel IH]; intros st Hr Hm; cbn [while_loop].
  - destruct (total_items st <? max_items_per_type self) eqn:E; [|eauto].
    apply Z.ltb_lt in E. unfold remaining, max_retries in *. lia.
  - destruct (total_items st <? max_items_per_type self) eqn:E; [|eauto].
    destruct (loop_body self type_name client st) as [st'| |] eqn:B; [|eauto..].
    destruct (loop_body_continue _ _ _ _ _ Hr B) as [Hr' Hlt].
    apply IH; [assumption | lia].
Qed.

(** The loop always comes to an end: [pagination] returns. *)
Lemma pagination_returns self type_name client :
  exists x, pagination self type_name client = Some x.
Proof.
  unfold pagination.
  destruct (Z_lt_ge_dec 0 (max_items_per_type self)) as [Hpos|Hneg].
  - apply while_loop_fuel.
    + unfold initial, max_retries. cbn [retry_count]. lia.
    + unfold remaining, enough_fuel, initial, max_retries.
      cbn [retry_count total_items]. lia.
  - destruct (enough_fuel self); cbn [while_loop];
      (destruct (total_items initial <? max_items_per_type self) eqn:E;
       [apply Z.ltb_lt in E; cbn in E; lia | eauto]).
Qed.

(** Invariant reasoning over the loop: [I] holds at the head of every
    iteration, [Q] when the loop is left. *)
Lemma while_loop_invariant self type_name client
    (I Q : locals record -> Prop) :
  (forall st, I st -> ~ total_items st < max_items_per_type self -> Q st) ->
  (forall st, I st -> total_items st < max_items_per_type self ->
     match loop_body self type_name client st with
     | Continue st' => I st'
     | Break st' => Q st'
     | Propagate _ st' => Q st'
     end) ->
  forall fuel st x,
    I st -> while_loop fuel self type_name client st = Some x ->
    Q (exit_locals x).
Proof.
  intros Hexit Hbody fuel.
  induction fuel as [|fuel IH]; intros st x HI; cbn [while_loop].
  - destruct (total_items st <? max_items_per_type self) eqn:E; [discriminate|].
    intros [= <-]. cbn [exit_locals]. apply Hexit; [assumption|].
    apply Z.ltb_ge in E. lia.
  - destruct (total_items st <? max_items_per_type self) eqn:E.
    + apply Z.ltb_lt in E. specialize (Hbody st HI E).
      destruct (loop_body self type_name client st) as [st'|st'|e st'].
      * apply IH. assumption.
      * intros [= <-]. assumption.
      * intros [= <-]. assumption.
    + intros [= <-]. cbn [exit_locals]. apply Hexit; [assumption|].
      apply Z.ltb_ge in E. lia.
Qed.

Lemma loop_body_list_calls self type_name client st :
  list_calls (trace (step_locals (loop_body self type_name client st))) =
  list_calls (trace st) ++ [build_params self type_name (page st)].
Proof.
  unfold loop_body.
  destruct (client _ _) as [[|r b]|e].
  - cbn. unfold list_calls. rewrite omap_app. reflexivity.
  - destruct (_ <? per_page); cbn; unfold list_calls;
      rewrite !omap_app; cbn; rewrite app_nil_r; reflexivity.
  - destruct e;
      try match goal with |- context [backoff ?c ?s] =>
            destruct (backoff_cases c s) as [[_ ->]|[_ ->]] end;
      cbn; unfold list_calls; rewrite !omap_app; cbn;
      rewrite ?app_nil_r; reflexivity.
Qed.

Lemma finish_list_calls type_name stats (x : loop_exit record) :
  list_calls (snd (finish type_name stats x)) =
  list_calls (trace (exit_locals x)).
Proof.
  destruct x as [st|e st]; cbn.
  - destruct (items st); [reflexivity|].
    unfold list_calls. rewrite omap_app. cbn. apply app_nil_r.
  - destruct e; reflexivity.
Qed.

Lemma build_params_public self type_name pg :
  is_authenticated self = false ->
  type_name = "posts" \/ type_name = "pages" \/
    String.prefix "cpt_" type_name = true ->
  param_status (build_params self type_name pg) = Some "publish".
Proof.
  intros Ha Ht. unfold build_params, public_restricted. rewrite Ha.
  destruct Ht as [ -> | [ -> | Hp ] ]; [reflexivity | reflexivity |].
  rewrite Hp, orb_true_r. reflexivity.
Qed.

(** C1.  In unauthenticated mode, a pass over 'posts', 'pages' or a
    collection whose name starts with 'cpt_' returns, and every list call
    it has issued carries the filter status=publish. *)
Theorem unauthenticated_list_calls_ask_for_published
    self mkdir type_name client stats :
  is_authenticated self = false ->
  type_name = "posts" \/ type_name = "pages" \/
    String.prefix "cpt_" type_name = true ->
  exists res stats' tr,
    _backup_content_type self mkdir type_name client stats
      = Some (res, stats', tr) /\
    Forall (fun p => param_status p = Some "publish") (list_calls tr).
Proof.
  intros Ha Ht. unfold _backup_content_type.
  destruct mkdir as [msg|].
  { do 3 eexists. split; [reflexivity|]. constructor. }
  destruct (pagination_returns self type_name client) as [x Hx].
  rewrite Hx.
  destruct (finish type_name stats x) as [[res stats'] tr] eqn:F.
  exists res, stats', tr. split; [reflexivity|].
  replace tr with (snd (finish type_name stats x)) by (rewrite F; reflexivity).
  rewrite finish_list_calls.
  unfold pagination in Hx.
  set (P := fun st : locals record =>
              Forall (fun p => param_status p = Some "publish")
                     (list_calls (trace st))).
  change (P (exit_locals x)).
  apply (while_loop_invariant self type_name client P P)
    with (fuel := enough_fuel self) (st := initial); [| | | exact Hx]; subst P.
  - auto.
  - cbv beta. intros st HI _.
    pose proof (loop_body_list_calls self type_name client st) as E.
    assert (Forall (fun p => param_status p = Some "publish")
              (list_calls (trace (step_locals
                 (loop_body self type_name client st))))) as HF.
    { rewrite E. apply Forall_app. split; [assumption|].
      constructor; [|constructor]. apply build_params_public; assumption. }
    destruct (loop_body self type_name client st); exact HF.
  - constructor.
Qed.

(** One failed call answered by a backoff, inside the loop. *)
Lemma while_loop_backoff self type_name client fuel st cap :
  total_items st < max_items_per_type self ->
  loop_body self type_name client st =
    backoff cap (Locals (items st) (page st) (total_items st) (retry_count st)
                        (S (calls st))
                        (trace st ++ [list_call (build_params self type_name (page st))])) ->
  retry_count st + 1 <= max_retries ->
  while_loop (S fuel) self type_name client st =
  while_loop fuel self type_name client
    (Locals (items st) (page st) (total_items st) (retry_count st + 1)
            (S (calls st))
            (trace st ++ [list_call (build_params self type_name (page st));
                          sleep (Z.min (2 ^ retry_count st) cap)])).
Proof.
  intros Hlt Hb Hr. cbn [while_loop].
  apply Z.ltb_lt in Hlt. rewrite Hlt, Hb.
  match goal with |- context [backoff ?c ?s] =>
    destruct (backoff_cases c s) as [[_ ->]|[Hgt _]] end.
  - unfold emit, set_retry_count. cbn. rewrite <- app_assoc. reflexivity.
  - cbn in Hgt. lia.
Qed.

(** Five failed calls in a row, each answered by a backoff. *)
Lemma five_backoffs self type_name client cap st fuel :
  retry_count st = 0 ->
  total_items st < max_items_per_type self ->
  (forall st1, (calls st <= calls st1 < calls st + 5)%nat ->
     loop_body self type_name client st1 =
     backoff cap (Locals (items st1) (page st1) (total_items st1)
                    (retry_count st1) (S (calls st1))
                    (trace st1 ++
                       [list_call (build_params self type_name (page st1))]))) ->
  let p := build_params self type_name (page st) in
  while_loop (5 + fuel) self type_name client st =
  while_loop fuel self type_name client
    (Locals (items st) (page st) (total_items st) 5 (5 + calls st)
            (trace st ++ [list_call p; sleep (Z.min 1 cap);
                          list_call p; sleep (Z.min 2 cap);
                          list_call p; sleep (Z.min 4 cap);
                          list_call p; sleep (Z.min 8 cap);
                          list_call p; sleep (Z.min 16 cap)])).
Proof.
  destruct st as [it pg tot rc cl tr]. cbn [retry_count total_items calls page
    items trace]. intros -> Hlt Hstep.
  change (5 + fuel)%nat with (S (S (S (S (S fuel))))).
  do 5 (rewrite while_loop_backoff with (cap := cap);
        [| assumption | apply Hstep; cbn; lia | cbn; unfold max_retries; lia]).
  cbn [items page total_items retry_count calls trace].
  rewrite <- !app_assoc. reflexivity.
Qed.

Lemma loop_body_rate_limited self type_name client st msg :
  client (calls st) (build_params self type_name (page st))
    = Raise (WPAPIRateLimitError msg) ->
  loop_body self type_name client st =
    backoff 60 (Locals (items st) (page st) (total_items st) (retry_count st)
                       (S (calls st))
                       (trace st ++ [list_call (build_params self type_name (page st))])).
Proof. intros E. unfold loop_body. rewrite E. reflexivity. Qed.

(** C2.  A rate-limit error on a page is answered by a sleep of
    min(2^(retryCount-1), 60) seconds before retry number retryCount, on the
    same page and with the items kept; past [max_retries] the loop is left
    without a sleep.  Five rate-limit errors in a row, from a retry counter
    of 0, ask for the same page five times and sleep 1, 2, 4, 8 and 16
    seconds.  A non-empty batch sets the retry counter back to 0. *)
Theorem rate_limit_backoff_schedule self type_name client :
  (forall st msg,
     client (calls st) (build_params self type_name (page st))
       = Raise (WPAPIRateLimitError msg) ->
     let r := retry_count st + 1 in
     let p := build_params self type_name (page st) in
     (r <= max_retries ->
      exists st',
        loop_body self type_name client st = Continue st' /\
        retry_count st' = r /\ page st' = page st /\ items st' = items st /\
        total_items st' = total_items st /\
        trace st' = trace st ++ [list_call p; sleep (Z.min (2 ^ (r - 1)) 60)]) /\
     (r > max_retries ->
      exists st',
        loop_body self type_name client st = Break st' /\
        page st' = page st /\ items st' = items st /\
        trace st' = trace st ++ [list_call p])) /\
  (forall st fuel,
     retry_count st = 0 ->
     total_items st < max_items_per_type self ->
     (forall i q, (i < 5)%nat ->
        exists msg, client (calls st + i)%nat q = Raise (WPAPIRateLimitError msg)) ->
     let p := build_params self type_name (page st) in
     exists st',
       while_loop (5 + fuel) self type_name client st
         = while_loop fuel self type_name client st' /\
       page st' = page st /\ retry_count st' = 5 /\ items st' = items st /\
       trace st' = trace st ++ [list_call p; sleep 1; list_call p; sleep 2;
                                list_call p; sleep 4; list_call p; sleep 8;
                                list_call p; sleep 16]) /\
  (forall st r batch,
     client (calls st) (build_params self type_name (page st))
       = Batch (r :: batch) ->
     retry_count (step_locals (loop_body self type_name client st)) = 0).
Proof.
  split; [|split].
  - intros st msg E r p.
    rewrite (loop_body_rate_limited _ _ _ _ _ E).
    match goal with |- context [backoff ?c ?s] =>
      destruct (backoff_cases c s) as [[Hle ->]|[Hgt ->]] end;
      cbn in *; subst r p.
    + split; [intros _ | lia].
      eexists. split; [reflexivity|]. cbn.
      replace (retry_count st + 1 - 1) with (retry_count st) by lia.
      rewrite <- app_assoc. auto.
    + split; [lia | intros _].
      eexists. split; [reflexivity|]. cbn. auto.
  - intros st fuel Hr Hlt Hc p.
    eexists. split.
    + apply five_backoffs with (cap := 60); [assumption | assumption |].
      intros st1 Hcalls.
      destruct (Hc (calls st1 - calls st)%nat
                   (build_params self type_name (page st1)))
        as (msg & E); [lia|].
      replace (calls st + (calls st1 - calls st))%nat with (calls st1) in E
        by lia.
      apply (loop_body_rate_limited _ _ _ _ _ E).
    + cbn. auto.
  - intros st r batch E. unfold loop_body. rewrite E.
    destruct (_ <? per_page); reflexivity.
Qed.

Lemma loop_body_generic_error self type_name client st e :
  generic_api_error e = true ->
  client (calls st) (build_params self type_name (page st)) = Raise e ->
  loop_body self type_name client st =
    backoff 30 (Locals (items st) (page st) (total_items st) (retry_count st)
                       (S (calls st))
                       (trace st ++ [list_call (build_params self type_name (page st))])).
Proof.
  intros G E. unfold loop_body. rewrite E.
  destruct e; try discriminate G; reflexivity.
Qed.

(** What one iteration does to the files and to [items]. *)
Lemma loop_body_files self type_name client st :
  let s' := step_locals (loop_body self type_name client st) in
  aggregates (trace s') = aggregates (trace st) /\
  ((items s' = items st /\ page_files (trace s') = page_files (trace st) /\
    page s' = page st) \/
   (exists batch,
      batch <> [] /\
      items s' = items st ++ batch /\
      page_files (trace s') = page_files (trace st) ++ [(page st, batch)] /\
      (page s' = page st \/ page s' = page st + 1))).
Proof.
  unfold loop_body.
  destruct (client _ _) as [[|r b]|e].
  - cbn. unfold aggregates, page_files. rewrite !omap_app. cbn.
    rewrite !app_nil_r. auto.
  - destruct (_ <? per_page); cbn; unfold aggregates, page_files;
      rewrite !omap_app; cbn; rewrite !app_nil_r;
      (split; [reflexivity|]); right; exists (r :: b);
      (split; [discriminate | auto]).
  - destruct e;
      try match goal with |- context [backoff ?c ?s] =>
            destruct (backoff_cases c s) as [[_ ->]|[_ ->]] end;
      cbn; unfold aggregates, page_files; rewrite !omap_app; cbn;
      rewrite ?app_nil_r; auto.
Qed.

Lemma loop_body_continue_page self type_name client st st' :
  loop_body self type_name client st = Continue st' ->
  page_files (trace st') = page_files (trace st) \/ page st' = page st + 1.
Proof.
  unfold loop_body.
  destruct (client _ _) as [[|r b]|e]; [discriminate | |].
  - destruct (_ <? per_page); [discriminate|]. intros [= <-]. right. reflexivity.
  - destruct e; try discriminate.
    all: match goal with |- context [backoff ?c ?s] =>
           destruct (backoff_cases c s) as [[_ ->]|[_ ->]] end;
      try discriminate; intros [= <-]; left; cbn;
      unfold page_files; rewrite !omap_app; cbn; rewrite !app_nil_r; reflexivity.
Qed.

Lemma files_invariant_exit st : files_invariant st -> files_at_exit st.
Proof. intros (A & B & C & _ & N). repeat split; assumption. Qed.

Lemma files_invariant_step self type_name client st :
  files_invariant st ->
  match loop_body self type_name client st with
  | Continue st' => files_invariant st'
  | Break st' => files_at_exit st'
  | Propagate _ st' => files_at_exit st'
  end.
Proof.
  intros (A & B & C & D & N).
  pose proof (loop_body_files self type_name client st) as [Ha F].
  pose proof (loop_body_continue_page self type_name client st) as Hc.
  cbv zeta in Ha, F.
  assert (files_at_exit (step_locals (loop_body self type_name client st))) as X.
  { destruct F as [(Hi & Hp & _)|(b & Hb & Hi & Hp & _)].
    - repeat split; [congruence | rewrite Hi, Hp; assumption
                     | rewrite Hp; assumption | rewrite Hp; assumption].
    - repeat split; [congruence | | |].
      + rewrite Hi, Hp, map_app, concat_app, B. cbn. rewrite app_nil_r.
        reflexivity.
      + rewrite Hp, map_app. cbn. apply NoDup_app. repeat split.
        * assumption.
        * intros n Hn Hn'. apply list_elem_of_singleton in Hn'. subst n.
          rewrite Forall_forall in D. specialize (D _ Hn). lia.
        * apply NoDup_singleton.
      + rewrite Hp. apply Forall_app. split; [assumption|].
        constructor; [exact Hb | constructor]. }
  destruct (loop_body self type_name client st) as [st'|st'|e st'];
    [|exact X..].
  destruct X as (A' & B' & C' & N'). repeat split; try assumption.
  cbn [step_locals] in F.
  destruct F as [(Hi & Hp & Hpg)|(b & Hb & Hi & Hp & Hpg)].
  - rewrite Hp, Hpg. assumption.
  - destruct (Hc st' eq_refl) as [Hsame|Hnext].
    + exfalso. rewrite Hsame in Hp.
      apply (f_equal length) in Hp. rewrite length_app in Hp. cbn in Hp. lia.
    + rewrite Hp, map_app, Hnext. cbn. apply Forall_app. split.
      * eapply Forall_impl; [exact D|]. cbv beta. intros; lia.
      * constructor; [lia | constructor].
Qed.

Lemma pagination_files self type_name client x :
  pagination self type_name client = Some x ->
  files_at_exit (exit_locals x).
Proof.
  unfold pagination.
  apply (while_loop_invariant self type_name client
           files_invariant files_at_exit).
  - intros st Hst _. apply files_invariant_exit. assumption.
  - intros st Hst _. apply files_invariant_step. assumption.
  - repeat split; constructor.
Qed.

Lemma record_count_concat (fs : list (Z * list record)) :
  record_count fs = length (concat (map snd fs)).
Proof.
  unfold record_count. induction fs as [|f fs IH]; cbn; [reflexivity|].
  rewrite length_app, IH. reflexivity.
Qed.

(** The files once the method has returned after a loop left normally. *)
Lemma finish_done_files type_name stats st res stats' tr :
  files_at_exit st ->
  finish type_name stats (Done st) = (res, stats', tr) ->
  res = Returned (items st) /\
  stats' = <[type_name := count_pages (Z.of_nat (length (items st))) (page st)]> stats /\
  page_files tr = page_files (trace st) /\
  NoDup (map fst (page_files tr)) /\
  record_count (page_files tr) = length (items st) /\
  items st = concat (map snd (page_files tr)) /\
  (page_files tr <> [] -> aggregates tr = [items st]) /\
  (page_files tr = [] -> aggregates tr = []).
Proof.
  intros (A & B & C & N). cbn [finish]. intros [= <- <- <-].
  assert (page_files
            match items st with
            | [] => trace st
            | _ :: _ => trace st ++ [save_json_file all_json (items st)]
            end = page_files (trace st)) as P.
  { destruct (items st); [reflexivity|].
    unfold page_files. rewrite omap_app. cbn. apply app_nil_r. }
  rewrite P, record_count_concat, <- B.
  repeat split; try assumption.
  - intros Hne. destruct (items st) eqn:E.
    + exfalso. destruct (page_files (trace st)) as [|[n d] fs]; [congruence|].
      apply Forall_cons in N as [Hd _]. cbn in Hd, B.
      destruct d; [congruence | discriminate B].
    + unfold aggregates in *. rewrite omap_app, A. reflexivity.
  - intros Hnil. rewrite Hnil in B. cbn in B. rewrite B. assumption.
Qed.

Lemma loop_body_api_errors self type_name client :
  (forall n p e, client n p = Raise e -> is_WPAPIError e = true) ->
  forall st e st', loop_body self type_name client st <> Propagate e st'.
Proof.
  intros Hc st e st'. unfold loop_body.
  destruct (client _ _) as [[|r b]|e0] eqn:E; [discriminate | |].
  - destruct (_ <? per_page); discriminate.
  - apply Hc in E.
    destruct e0; try discriminate E; try discriminate.
    all: match goal with |- context [backoff ?c ?s] =>
           destruct (backoff_cases c s) as [[_ ->]|[_ ->]] end; discriminate.
Qed.

Lemma while_loop_done self type_name client :
  (forall st e st', loop_body self type_name client st <> Propagate e st') ->
  forall fuel st x,
    while_loop fuel self type_name client st = Some x ->
    exists st', x = Done st'.
Proof.
  intros Hb fuel.
  induction fuel as [|fuel IH]; intros st x; cbn [while_loop];
    destruct (total_items st <? max_items_per_type self);
    try discriminate; try (intros [= <-]; eauto).
  destruct (loop_body self type_name client st) as [st'|st'|e st'] eqn:B.
  - apply IH.
  - intros [= <-]; eauto.
  - exfalso. exact (Hb _ _ _ B).
Qed.

(** C3, as the code has it.  An API error that is none of rate limit, not
    found and permission denied is answered by a sleep of
    min(2^(retryCount-1), 30) seconds and a retry of the same page; five
    such errors in a row sleep 1, 2, 4, 8 and 16 seconds; the error that
    takes the retry counter past [max_retries] ends the loop.  When the
    loop is left that way the method returns the items fetched so far, the
    entry of the collection in the statistics is its count and page number,
    with no error in it, and the items are those of the per-page files and,
    unless there are none, of all.json. *)
Theorem generic_error_backoff_then_abandon self type_name client :
  (forall st e,
     generic_api_error e = true ->
     client (calls st) (build_params self type_name (page st)) = Raise e ->
     let r := retry_count st + 1 in
     let p := build_params self type_name (page st) in
     (r <= max_retries ->
      exists st',
        loop_body self type_name client st = Continue st' /\
        retry_count st' = r /\ page st' = page st /\ items st' = items st /\
        total_items st' = total_items st /\
        trace st' = trace st ++ [list_call p; sleep (Z.min (2 ^ (r - 1)) 30)]) /\
     (r > max_retries ->
      exists st',
        loop_body self type_name client st = Break st' /\
        abandoned st' /\ page st' = page st /\ items st' = items st /\
        trace st' = trace st ++ [list_call p])) /\
  (forall st fuel,
     retry_count st = 0 ->
     total_items st < max_items_per_type self ->
     (forall i q, (i < 5)%nat ->
        exists e, generic_api_error e = true /\
                  client (calls st + i)%nat q = Raise e) ->
     let p := build_params self type_name (page st) in
     exists st',
       while_loop (5 + fuel) self type_name client st
         = while_loop fuel self type_name client st' /\
       page st' = page st /\ retry_count st' = 5 /\ items st' = items st /\
       trace st' = trace st ++ [list_call p; sleep 1; list_call p; sleep 2;
                                list_call p; sleep 4; list_call p; sleep 8;
                                list_call p; sleep 16]) /\
  (forall stats st,
     pagination self type_name client = Some (Done st) ->
     abandoned st ->
     exists stats' tr,
       _backup_content_type self None type_name client stats
         = Some (Returned (items st), stats', tr) /\
       stats' !! type_name
         = Some (count_pages (Z.of_nat (length (items st))) (page st)) /\
       items st = concat (map snd (page_files tr)) /\
       (items st <> [] -> aggregates tr = [items st])).
Proof.
  split; [|split].
  - intros st e G E r p.
    rewrite (loop_body_generic_error _ _ _ _ _ G E).
    match goal with |- context [backoff ?c ?s] =>
      destruct (backoff_cases c s) as [[Hle ->]|[Hgt ->]] end;
      cbn in *; subst r p.
    + split; [intros _ | lia].
      eexists. split; [reflexivity|]. cbn.
      replace (retry_count st + 1 - 1) with (retry_count st) by lia.
      rewrite <- app_assoc. auto.
    + split; [lia | intros _].
      eexists. split; [reflexivity|]. unfold abandoned. cbn. auto.
  - intros st fuel Hr Hlt Hc p.
    eexists. split.
    + apply five_backoffs with (cap := 30); [assumption | assumption |].
      intros st1 Hcalls.
      destruct (Hc (calls st1 - calls st)%nat
                   (build_params self type_name (page st1)))
        as (e & G & E); [lia|].
      replace (calls st + (calls st1 - calls st))%nat with (calls st1) in E
        by lia.
      apply (loop_body_generic_error _ _ _ _ _ G E).
    + cbn. auto.
  - intros stats st Hp Hab.
    unfold _backup_content_type. rewrite Hp.
    destruct (finish type_name stats (Done st)) as [[res stats'] tr] eqn:F.
    pose proof (pagination_files _ _ _ _ Hp) as Hf. cbn [exit_locals] in Hf.
    destruct (finish_done_files _ _ _ _ _ _ Hf F)
      as (-> & -> & _ & _ & _ & Hc & Ha & _).
    do 2 eexists. split; [reflexivity|].
    split; [apply lookup_insert_eq|]. split; [assumption|].
    intros Hne. apply Ha. intros Hnil. rewrite Hnil in Hc. auto.
Qed.




End CollectorFacts.

(** ** The statements on concrete runs *)

Section CollectorRuns.

Import Collector Examples.

Lemma unauthenticated_list_calls_witness :
  is_authenticated public_cfg = false /\
  ("posts" = "posts" \/ "posts" = "pages" \/
     String.prefix "cpt_" "posts" = true) /\
  exists res stats' tr,
    _backup_content_type public_cfg None "posts" short_page ∅
      = Some (res, stats', tr) /\
    Forall (fun p => param_status p = Some "publish") (list_calls tr).
Proof.
  split; [reflexivity|]. split; [left; reflexivity|].
  apply (unauthenticated_list_calls_ask_for_published
           public_cfg None "posts" short_page ∅);
    [reflexivity | left; reflexivity].
Defined.

Lemma rate_limit_backoff_witness :
  (exists st',
     loop_body public_cfg "posts" always_rate_limited initial = Continue st' /\
     retry_count st' = 1 /\ page st' = 1 /\ items st' = [] /\
     total_items st' = 0 /\
     trace st' = [list_call (Params 1 100 (Some "publish")); sleep 1]) /\
  (exists st',
     while_loop 6 public_cfg "posts" always_rate_limited initial
       = while_loop 1 public_cfg "posts" always_rate_limited st' /\
     page st' = 1 /\ retry_count st' = 5 /\ items st' = [] /\
     sleeps (trace st') = [1; 2; 4; 8; 16]) /\
  retry_count (step_locals (loop_body public_cfg "posts" short_page initial)) = 0.
Proof.
  destruct (rate_limit_backoff_schedule public_cfg "posts" always_rate_limited)
    as (One & Five & _).
  destruct (rate_limit_backoff_schedule public_cfg "posts" short_page)
    as (_ & _ & Reset).
  split; [|split].
  - destruct (One initial "429" eq_refl) as [Retry _].
    apply Retry. unfold max_retries. cbn. lia.
  - destruct (Five initial 1%nat eq_refl) as (st' & E & Hp & Hr & Hi & Ht).
    + cbn. lia.
    + intros i q _. exists "429". reflexivity.
    + exists st'. rewrite Ht. repeat split; assumption.
  - apply (Reset initial 1%nat [2%nat; 3%nat]). reflexivity.
Defined.

(** C3, against the claim as stated: a collection given up after
    [max_retries] retries has no error in its entry of the statistics. *)
Lemma abandoned_collection_has_no_error_entry :
  ~ (forall (client : endpoint_client nat) self type_name stats st res stats' tr,
       pagination self type_name client = Some (Done st) ->
       abandoned st ->
       _backup_content_type self None type_name client stats
         = Some (res, stats', tr) ->
       exists msg, stats' !! type_name = Some (error_entry msg)).
Proof.
  intros H.
  assert (pagination authenticated_cfg "posts" page_then_failing
            = Some (Done (locals_after authenticated_cfg "posts"
                            page_then_failing))) as E
    by (vm_compute; reflexivity).
  edestruct (H page_then_failing authenticated_cfg "posts" ∅) as [msg Hm].
  - exact E.
  - vm_compute. reflexivity.
  - unfold _backup_content_type. rewrite E. cbn [finish]. reflexivity.
  - rewrite lookup_insert_eq in Hm. discriminate Hm.
Qed.

Lemma generic_error_backoff_witness :
  (exists st',
     loop_body authenticated_cfg "posts" always_failing initial = Continue st' /\
     retry_count st' = 1 /\ page st' = 1 /\ items st' = [] /\
     total_items st' = 0 /\
     trace st' = [list_call (Params 1 100 None); sleep 1]) /\
  (exists st',
     while_loop 6 authenticated_cfg "posts" always_failing initial
       = while_loop 1 authenticated_cfg "posts" always_failing st' /\
     page st' = 1 /\ retry_count st' = 5 /\ items st' = [] /\
     sleeps (trace st') = [1; 2; 4; 8; 16]) /\
  (let st := locals_after authenticated_cfg "posts" page_then_failing in
   abandoned st /\ page st = 2 /\ length (items st) = 100%nat /\
   exists stats' tr,
     _backup_content_type authenticated_cfg None "posts" page_then_failing ∅
       = Some (Returned (items st), stats', tr) /\
     stats' !! "posts" = Some (count_pages 100 2) /\
     items st = concat (map snd (page_files tr)) /\
     aggregates tr = [items st]).
Proof.
  destruct (generic_error_backoff_then_abandon authenticated_cfg "posts"
              always_failing) as (One & Five & _).
  destruct (generic_error_backoff_then_abandon authenticated_cfg "posts"
              page_then_failing) as (_ & _ & Abandon).
  split; [|split].
  - destruct (One initial (WPAPIError "500") eq_refl eq_refl) as [Retry _].
    apply Retry. unfold max_retries. cbn. lia.
  - destruct (Five initial 1%nat eq_refl) as (st' & E & Hp & Hr & Hi & Ht).
    + cbn. lia.
    + intros i q _. exists (WPAPIError "500"). split; reflexivity.
    + exists st'. rewrite Ht. repeat split; assumption.
  - cbv zeta.
    assert (abandoned (locals_after authenticated_cfg "posts" page_then_failing))
      as Hab by (vm_compute; reflexivity).
    split; [exact Hab|]. split; [vm_compute; reflexivity|].
    split; [vm_compute; reflexivity|].
    destruct (Abandon ∅ (locals_after authenticated_cfg "posts" page_then_failing))
      as (stats' & tr & E & Hs & Hc & Ha).
    + vm_compute. reflexivity.
    + exact Hab.
    + exists stats', tr. repeat split; try assumption.
      apply Ha. vm_compute. discriminate.
Defined.



End CollectorRuns.

(** * Properties of the sanitization *)

Section SanitizeFacts.

Import Sanitize.

Variables printable_above_latin1 space_above_latin1 : char -> bool.

Local Abbreviation isprintable := (isprintable printable_above_latin1).
Local Abbreviation cleaned := (cleaned printable_above_latin1).
Local Abbreviation clean_char := (clean_char printable_above_latin1).
Local Abbreviation blank := (blank space_above_latin1).
Local Abbreviation sanitize :=
  (_sanitize_filename printable_above_latin1 space_above_latin1).

Lemma replace_invalid_map (s : pystr) :
  replace_invalid s = map (fun c => if is_invalid c then underscore else c) s.
Proof.
  unfold replace_invalid, invalid_chars. cbn [fold_left]. unfold replace.
  rewrite !map_map. apply map_ext. intros c.
  unfold is_invalid, invalid_chars. cbn [existsb].
  repeat match goal with
         | |- context [(c =? ?k)%N] =>
             destruct (N.eqb_spec c k) as [->|?]; [reflexivity|]; cbv iota
         end.
  reflexivity.
Qed.

Lemma cleaned_map (s : pystr) : cleaned s = map clean_char s.
Proof.
  unfold Sanitize.cleaned, replace_unprintable. rewrite replace_invalid_map, map_map.
  apply map_ext. intros c. unfold Sanitize.clean_char.
  destruct (is_invalid c); [reflexivity|].
  cbn [orb]. destruct (isprintable c); reflexivity.
Qed.

Lemma splitext_app (p base ext : pystr) :
  splitext p = (base, ext) -> p = base ++ ext.
Proof.
  unfold splitext.
  destruct (_ <? _); [destruct (existsb _ _)|]; intros [= <- <-];
    rewrite ?app_nil_r, ?take_drop; reflexivity.
Qed.

Lemma sanitize_cons (c : char) (s : pystr) :
  sanitize (c :: s) =
  let t := truncate (cleaned (c :: s)) in
  if blank t then placeholder else t.
Proof. reflexivity. Qed.

Lemma truncate_short (s : pystr) : len s <= 255 -> truncate s = s.
Proof.
  intros H. unfold truncate.
  destruct (len s >? 255) eqn:E; [lia | reflexivity].
Qed.

(** The truncation when the extension leaves room for it. *)
Lemma truncate_long (s base ext : pystr) :
  len s > 255 -> splitext s = (base, ext) -> len ext <= 255 ->
  truncate s = take (Z.to_nat (255 - len ext)) s ++ ext /\
  len (truncate s) = 255.
Proof.
  intros Hlong Hsplit Hext. unfold truncate.
  destruct (len s >? 255) eqn:E; [|lia]. rewrite Hsplit.
  apply splitext_app in Hsplit. subst s.
  unfold len in *. rewrite length_app in Hlong.
  unfold slice_to. destruct (255 - Z.of_nat (length ext) <? 0) eqn:N; [lia|].
  rewrite take_app_le by lia. split; [reflexivity|].
  rewrite length_app, length_take_le by lia. lia.
Qed.

(** C6, as the code has it.  The empty name gives the placeholder.
    Otherwise each of the characters < > : double quote / backslash | ? *
    and each non-printable character is replaced by an underscore; a result
    of at most 255 characters is kept; a longer one whose extension has at
    most 255 characters is cut to its first characters followed by the
    extension, 255 characters in all; and a name that is then empty or
    blank gives the placeholder.  The three examples of the claim hold. *)
Theorem sanitize_filename_replaces_and_truncates :
  sanitize [] = placeholder /\
  (forall s, cleaned s = map clean_char s) /\
  (forall s, s <> [] -> len (cleaned s) <= 255 ->
     sanitize s = if blank (cleaned s) then placeholder else cleaned s) /\
  (forall s base ext,
     len (cleaned s) > 255 ->
     splitext (cleaned s) = (base, ext) ->
     len ext <= 255 ->
     let t := take (Z.to_nat (255 - len ext)) (cleaned s) ++ ext in
     len t = 255 /\ endswith t ext /\
     sanitize s = if blank t then placeholder else t) /\
  sanitize (of_string "a/b\c:d?e") = of_string "a_b_c_d_e" /\
  (len Examples.long_png = 300 /\
   len (sanitize Examples.long_png) = 255 /\
   endswith (sanitize Examples.long_png) (of_string ".png")).
Proof.
  split; [reflexivity|]. split; [exact cleaned_map|].
  split; [|split; [|split]].
  - intros [|c s] Hne Hlen; [congruence|].
    rewrite sanitize_cons, truncate_short by assumption. reflexivity.
  - intros s base ext Hlong Hsplit Hext t.
    destruct (truncate_long _ _ _ Hlong Hsplit Hext) as [Ht Hl].
    fold t in Ht. rewrite Ht in Hl.
    split; [exact Hl|]. split; [eexists; reflexivity|].
    destruct s as [|c s]; [vm_compute in Hlong; discriminate Hlong|].
    rewrite sanitize_cons, Ht. reflexivity.
  - vm_compute. reflexivity.
  - split; [vm_compute; reflexivity|]. split; [vm_compute; reflexivity|].
    exists (repeat 97%N 251). vm_compute. reflexivity.
Qed.

Lemma clean_char_idempotent (c : char) : clean_char (clean_char c) = clean_char c.
Proof.
  unfold Sanitize.clean_char.
  destruct (is_invalid c || negb (isprintable c)) eqn:E; [reflexivity|].
  rewrite E. reflexivity.
Qed.

Lemma cleaned_fixed (s : pystr) :
  Forall (fun c => clean_char c = c) s -> cleaned s = s.
Proof.
  intros H. rewrite cleaned_map.
  induction H as [|c s Hc _ IH]; cbn; [reflexivity|].
  rewrite Hc, IH. reflexivity.
Qed.

Lemma truncate_keeps (P : char -> Prop) (s : pystr) :
  Forall P s -> Forall P (truncate s).
Proof.
  intros H. unfold truncate. destruct (len s >? 255); [|exact H].
  destruct (splitext s) as [base ext] eqn:E.
  apply splitext_app in E. subst s. apply Forall_app in H as [Hb He].
  apply Forall_app. split; [|exact He].
  unfold slice_to. destruct (_ <? 0); apply Forall_take; exact Hb.
Qed.

(** X8.  Within the documented limit of 255 characters a second pass
    changes nothing. *)
Lemma sanitize_idempotent_within_limit (s : pystr) :
  len (sanitize s) <= 255 -> sanitize (sanitize s) = sanitize s.
Proof.
  destruct s as [|c s]; [reflexivity|].
  rewrite sanitize_cons. cbv zeta.
  set (t := truncate (cleaned (c :: s))).
  destruct (blank t) eqn:B; [reflexivity|]. intros Hlen.
  assert (cleaned t = t) as Hfix.
  { apply cleaned_fixed. apply truncate_keeps. rewrite cleaned_map.
    apply Forall_map, Forall_true. intros x. cbn. apply clean_char_idempotent. }
  destruct t as [|x t'] eqn:Et; [discriminate B|].
  rewrite sanitize_cons, Hfix. cbv zeta.
  rewrite truncate_short by assumption. rewrite B. reflexivity.
Qed.

(** C10, on the code: the name a.bbb...b with 300 times b comes out with
    301 characters, more than the 255 the code documents, and a second
    pass cuts it to 255, so the second pass changes the result. *)
Theorem sanitize_twice_differs_on_long_extension :
  len (sanitize Examples.long_extension) = 301 /\
  len (sanitize (sanitize Examples.long_extension)) = 255 /\
  sanitize (sanitize Examples.long_extension) <> sanitize Examples.long_extension.
Proof.
  assert (len (sanitize Examples.long_extension) = 301) as A
    by (vm_compute; reflexivity).
  assert (len (sanitize (sanitize Examples.long_extension)) = 255) as B
    by (vm_compute; reflexivity).
  repeat split; try assumption.
  intros E. rewrite E in B. lia.
Qed.

End SanitizeFacts.

(** C6, against the claim as stated: 200 times the letter U+00E9 is a name
    of 200 printable characters, kept as it is, whose UTF-8 encoding has 400
    bytes. *)
Lemma sanitized_name_longer_than_255_bytes :
  ~ (forall (printable space : Sanitize.char -> bool) (s : Sanitize.pystr),
       Sanitize.utf8_length (Sanitize._sanitize_filename printable space s)
         <= 255).
Proof.
  intros H.
  specialize (H (fun _ => true) (fun _ => false) Examples.accented).
  vm_compute in H. apply H. reflexivity.
Qed.

Lemma sanitize_filename_witness :
  Examples.long_png <> [] /\
  Sanitize.len (Sanitize.cleaned (fun _ => true) Examples.long_png) > 255 /\
  Sanitize.splitext (Sanitize.cleaned (fun _ => true) Examples.long_png)
    = (repeat 97%N 296, Sanitize.of_string ".png") /\
  Sanitize.len (Sanitize.of_string ".png") <= 255 /\
  Sanitize.len (Sanitize.cleaned (fun _ => true) (Sanitize.of_string "a.txt"))
    <= 255 /\
  Sanitize._sanitize_filename (fun _ => true) (fun _ => false)
    (Sanitize.of_string "a.txt") = Sanitize.of_string "a.txt" /\
  Sanitize._sanitize_filename (fun _ => true) (fun _ => false) Examples.long_png
    = repeat 97%N 251 ++ Sanitize.of_string ".png".
Proof.
  destruct (sanitize_filename_replaces_and_truncates
              (fun _ => true) (fun _ => false))
    as (_ & _ & Short & Long & _).
  assert (Sanitize.len (Sanitize.cleaned (fun _ => true) Examples.long_png) > 255)
    as Hlong by (vm_compute; reflexivity).
  assert (Sanitize.splitext (Sanitize.cleaned (fun _ => true) Examples.long_png)
            = (repeat 97%N 296, Sanitize.of_string ".png")) as Hsplit
    by (vm_compute; reflexivity).
  assert (Sanitize.len (Sanitize.of_string ".png") <= 255) as Hext
    by (vm_compute; discriminate).
  assert (Sanitize.len (Sanitize.cleaned (fun _ => true)
                          (Sanitize.of_string "a.txt")) <= 255) as Hshort
    by (vm_compute; discriminate).
  split; [discriminate|]. split; [exact Hlong|]. split; [exact Hsplit|].
  split; [exact Hext|]. split; [exact Hshort|]. split.
  - rewrite (Short (Sanitize.of_string "a.txt")); [| discriminate | exact Hshort].
    vm_compute. reflexivity.
  - destruct (Long Examples.long_png _ _ Hlong Hsplit Hext) as (_ & _ & E).
    rewrite E. vm_compute. reflexivity.
Defined.

(** * Properties of the media download *)

Section MediaFacts.

Import Media.

Context {path : Type} `{Countable path}.

Implicit Types (net : remote path) (item : media_item path)
  (fs : gmap path Z).

(** The file exists with the size the record gives. *)
Lemma skipped_by_record_size net item fs url size :
  source_url item = Some url -> url <> "" ->
  fs !! target item = Some size ->
  filesize item = Some (int_ok size) ->
  _download_media_file net item fs = (Returned (true, 0, "skipped"), fs, []).
Proof.
  intros Hu Hne Hfs Hsz. unfold _download_media_file, same_size_as_record.
  rewrite Hu, Hfs, Hsz, Z.eqb_refl.
  destruct url; [congruence | reflexivity].
Qed.

(** The file exists with the positive size the probe reports. *)
Lemma skipped_by_remote_size net item fs url size :
  source_url item = Some url -> url <> "" ->
  fs !! target item = Some size ->
  same_size_as_record fs item = Some false ->
  mkdir_parent net (target item) = None ->
  head net url = head_ok size -> size > 0 ->
  _download_media_file net item fs
    = (Returned (true, 0, "skipped"), fs, [head_request url]).
Proof.
  intros Hu Hne Hfs Hrec Hmk Hhead Hpos. unfold _download_media_file.
  rewrite Hu, Hrec, Hmk, Hhead. unfold same_size_as_remote.
  rewrite Hfs, Z.eqb_refl.
  destruct (size >? 0) eqn:E; [|lia].
  destruct url; [congruence | reflexivity].
Qed.

(** What a completed download tells about the run that made it. *)
Lemma downloaded_inv net item fs fs' n reqs :
  _download_media_file net item fs = (Returned (true, n, ""), fs', reqs) ->
  exists url,
    source_url item = Some url /\ url <> "" /\
    mkdir_parent net (target item) = None /\
    fs' = <[target item := n]> fs.
Proof.
  unfold _download_media_file.
  destruct (source_url item) as [[|a url]|]; try discriminate.
  destruct (same_size_as_record fs item) as [[|]|]; try discriminate.
  destruct (mkdir_parent net (target item)); try discriminate.
  assert (forall rs, fetch net (String a url) item fs rs
                       = (Returned (true, n, ""), fs', reqs) ->
                     fs' = <[target item := n]> fs) as F.
  { intros rs. unfold fetch.
    destruct (get net (String a url)); try discriminate;
      destruct (open_wb net (target item)); try discriminate.
    intros [= <- <- _]. reflexivity. }
  intros E. exists (String a url).
  repeat split; try discriminate.
  destruct (head net (String a url)).
  - eapply F, E.
  - destruct (same_size_as_remote fs item content_length);
      [discriminate | eapply F, E].
Qed.

(** C5, as the code has it.  A record with a source URL whose target file
    exists is skipped, with zero bytes, the file system unchanged and no
    GET request, when the size of the file equals the size in the record,
    or, the record giving no such size, when it equals a positive
    Content-Length reported by the probe.  In particular a download of a
    positive number of bytes followed by a second attempt, the size in the
    record or the probed size being that number, is skipped the second
    time. *)
Theorem existing_file_of_known_size_is_skipped net item :
  (forall fs url size,
     source_url item = Some url -> url <> "" ->
     fs !! target item = Some size ->
     filesize item = Some (int_ok size) \/
       (same_size_as_record fs item = Some false /\
        mkdir_parent net (target item) = None /\
        head net url = head_ok size /\ size > 0) ->
     exists reqs,
       _download_media_file net item fs
         = (Returned (true, 0, "skipped"), fs, reqs) /\
       get_request url ∉ reqs) /\
  (forall fs fs' n reqs,
     _download_media_file net item fs = (Returned (true, n, ""), fs', reqs) ->
     filesize item <> Some int_TypeError ->
     filesize item = Some (int_ok n) \/
       (n > 0 /\
        forall url, source_url item = Some url -> head net url = head_ok n) ->
     exists reqs',
       _download_media_file net item fs'
         = (Returned (true, 0, "skipped"), fs', reqs') /\
       forall url, get_request url ∉ reqs').
Proof.
  split.
  - intros fs url size Hu Hne Hfs [Hsz|(Hrec & Hmk & Hhead & Hpos)].
    + exists []. split; [|apply not_elem_of_nil].
      eapply skipped_by_record_size; eassumption.
    + exists [head_request url]. split.
      * eapply skipped_by_remote_size; eassumption.
      * intros Hin. apply list_elem_of_singleton in Hin. discriminate Hin.
  - intros fs fs' n reqs Hrun Hty Hknown.
    destruct (downloaded_inv _ _ _ _ _ _ Hrun) as (url & Hu & Hne & Hmk & ->).
    assert (<[target item := n]> fs !! target item = Some n) as Hfs
      by apply lookup_insert_eq.
    destruct (filesize item) as [[m| |]|] eqn:Hsz.
    + destruct (Z.eq_dec m n) as [->|Hmn].
      * exists []. split; [|intros u; apply not_elem_of_nil].
        eapply skipped_by_record_size; eassumption.
      * destruct Hknown as [[= ?]|[Hpos Hhead]]; [congruence|].
        exists [head_request url]. split.
        -- eapply skipped_by_remote_size; try eassumption; [|auto].
           unfold same_size_as_record. rewrite Hfs, Hsz.
           destruct (n =? m) eqn:E; [lia | reflexivity].
        -- intros u Hin. apply list_elem_of_singleton in Hin. discriminate Hin.
    + destruct Hknown as [[= ]|[Hpos Hhead]].
      exists [head_request url]. split.
      * eapply skipped_by_remote_size; try eassumption; [|auto].
        unfold same_size_as_record. rewrite Hfs, Hsz. reflexivity.
      * intros u Hin. apply list_elem_of_singleton in Hin. discriminate Hin.
    + congruence.
    + destruct Hknown as [[= ]|[Hpos Hhead]].
      exists [head_request url]. split.
      * eapply skipped_by_remote_size; try eassumption; [|auto].
        unfold same_size_as_record. rewrite Hfs, Hsz. reflexivity.
      * intros u Hin. apply list_elem_of_singleton in Hin. discriminate Hin.
Qed.

(** The tally never counts a result of [_download_media_file] as skipped:
    a skip is returned with [success] true and takes the first branch. *)
Lemma skipped_is_counted_as_success net item fs r fs' reqs d :
  _download_media_file net item fs = (r, fs', reqs) ->
  skipped (tally r d) = skipped d.
Proof.
  assert (forall url rs, fetch net url item fs rs = (r, fs', reqs) ->
                         skipped (tally r d) = skipped d) as F.
  { intros url rs. unfold fetch.
    destruct (get net url); try destruct (open_wb net (target item));
      intros [= <- _ _]; reflexivity. }
  unfold _download_media_file.
  destruct (source_url item) as [[|a url]|]; try (intros [= <- _ _]; reflexivity).
  destruct (same_size_as_record fs item) as [[|]|];
    try (intros [= <- _ _]; reflexivity).
  destruct (mkdir_parent net (target item));
    try (intros [= <- _ _]; reflexivity).
  destruct (head net (String a url)); [apply F|].
  destruct (same_size_as_remote fs item content_length);
    [intros [= <- _ _]; reflexivity | apply F].
Qed.

End MediaFacts.

Section MediaRuns.

Import Media Examples.

(** C5, against the claim as stated: an existing empty file whose record
    gives no size, the probe reporting Content-Length 0, is not skipped but
    downloaded again. *)
Lemma empty_file_is_downloaded_again :
  ~ (forall (net : remote string) (item : media_item string)
            (fs : gmap string Z) url size,
       source_url item = Some url -> url <> "" ->
       fs !! target item = Some size ->
       mkdir_parent net (target item) = None ->
       filesize item = Some (int_ok size) \/
         (filesize item = None /\ head net url = head_ok size) ->
       exists reqs,
         _download_media_file net item fs
           = (Returned (true, 0, "skipped"), fs, reqs)).
Proof.
  intros H.
  destruct (H serving_empty photo_without_size
              {["2024/01/photo.png" := 0]}
              "https://example.com/photo.png" 0) as [reqs E].
  - reflexivity.
  - discriminate.
  - apply lookup_singleton_eq.
  - reflexivity.
  - right. split; reflexivity.
  - unfold _download_media_file, same_size_as_record, same_size_as_remote in E.
    cbn [source_url photo_without_size target filesize] in E.
    rewrite lookup_singleton_eq in E. cbn in E. discriminate E.
Qed.

Lemma existing_file_skipped_witness :
  (source_url photo = Some "https://example.com/photo.png" /\
   ({["2024/01/photo.png" := 1200]} : gmap string Z) !! target photo
     = Some 1200 /\
   filesize photo = Some (int_ok 1200) /\
   exists reqs,
     _download_media_file serving_photo photo {["2024/01/photo.png" := 1200]}
       = (Returned (true, 0, "skipped"), {["2024/01/photo.png" := 1200]}, reqs) /\
     get_request "https://example.com/photo.png" ∉ reqs) /\
  (_download_media_file serving_photo photo_without_size ∅
     = (Returned (true, 1200, ""), {["2024/01/photo.png" := 1200]},
        [head_request "https://example.com/photo.png";
         get_request "https://example.com/photo.png"]) /\
   exists reqs',
     _download_media_file serving_photo photo_without_size
         {["2024/01/photo.png" := 1200]}
       = (Returned (true, 0, "skipped"), {["2024/01/photo.png" := 1200]}, reqs') /\
     forall url, get_request url ∉ reqs').
Proof.
  destruct (existing_file_of_known_size_is_skipped serving_photo photo)
    as [Known _].
  destruct (existing_file_of_known_size_is_skipped serving_photo
              photo_without_size) as [_ Twice].
  assert (_download_media_file serving_photo photo_without_size ∅
            = (Returned (true, 1200, ""), {["2024/01/photo.png" := 1200]},
               [head_request "https://example.com/photo.png";
                get_request "https://example.com/photo.png"])) as First.
  { unfold _download_media_file, same_size_as_record, same_size_as_remote.
    cbn [source_url photo_without_size target filesize].
    rewrite lookup_empty. reflexivity. }
  split.
  - split; [reflexivity|]. split; [apply lookup_singleton_eq|].
    split; [reflexivity|].
    apply (Known {["2024/01/photo.png" := 1200]}
                 "https://example.com/photo.png" 1200);
      [reflexivity | discriminate | apply lookup_singleton_eq
       | left; reflexivity].
  - split; [exact First|].
    apply (Twice ∅ {["2024/01/photo.png" := 1200]} 1200 _ First);
      [discriminate |].
    right. split; [lia | intros url _; reflexivity].
Defined.

End MediaRuns.

(** * Properties of the orchestrator *)

Section OrchestratorFacts.

Import Orchestrator.

Implicit Types (self : self_cfg) (w : world).

(** C9, as the code has it.  A rejection of the credentials during the
    initialisation of the client is raised again when the tool runs in
    authenticated mode, and the construction of the tool fails with it;
    only in public mode is the client made anew without credentials and
    the run goes on. *)
Theorem rejected_credentials_are_raised username password force_public msg :
  (authenticated_mode username password force_public = true ->
   WordPressBackup username password force_public (Some (WPAPIAuthError msg))
     = Raised (WPAPIAuthError msg)) /\
  (authenticated_mode username password force_public = false ->
   WordPressBackup username password force_public (Some (WPAPIAuthError msg))
     = Returned (false, anonymous)).
Proof.
  unfold WordPressBackup, _init_wp_client.
  split; intros ->; reflexivity.
Qed.

Lemma quiet_refl w : quiet w w.
Proof. exists []. rewrite app_nil_r. repeat split. constructor. Qed.

Lemma quiet_trans w1 w2 w3 : quiet w1 w2 -> quiet w2 w3 -> quiet w1 w3.
Proof.
  intros (e1 & T1 & S1 & I1) (e2 & T2 & S2 & I2).
  exists (e1 ++ e2). rewrite T2, T1, <- app_assoc.
  split; [reflexivity|]. split; [|congruence].
  unfold saved_statuses in *. rewrite omap_app. apply Forall_app.
  split; [exact S1 | rewrite <- I1; exact S2].
Qed.

Lemma backup_one_quiet self content_type w r w' :
  backup_one self content_type w = (r, w') -> quiet w w'.
Proof.
  unfold backup_one.
  destruct (bool_decide _); [intros [= _ <-]; apply quiet_refl|].
  destruct (methods self content_type) as [m|];
    [|intros [= _ <-]; apply quiet_refl].
  cbn [emit info stats].
  destruct (m _) as [[e|] st]; [destruct (captured e)|];
    intros [= _ <-]; exists [backup_method content_type];
    repeat split; constructor.
Qed.

Lemma backup_each_quiet self types : forall w r w',
  backup_each self types w = (r, w') -> quiet w w'.
Proof.
  induction types as [|content_type rest IH]; intros w r w'; cbn [backup_each].
  - intros [= _ <-]. apply quiet_refl.
  - destruct (backup_one self content_type w) as [[e|] w1] eqn:B.
    + intros [= _ <-]. eapply backup_one_quiet, B.
    + intros E. eapply quiet_trans; [eapply backup_one_quiet, B | eapply IH, E].
Qed.

Lemma detect_quiet self w r w' : detect self w = (r, w') -> quiet w w'.
Proof.
  unfold detect. destruct (bool_decide _); [|intros [= _ <-]; apply quiet_refl].
  cbn [emit info stats]. destruct (_detect_custom_post_types self _) as [e st].
  intros [= _ <-]. exists [detect_custom_post_types].
  repeat split; constructor.
Qed.

Lemma upload_quiet self w r w' : upload self w = (r, w') -> quiet w w'.
Proof.
  unfold upload. destruct (s3 self) as [[e|]|].
  - destruct (is_Exception e); intros [= _ <-]; exists [upload_to_s3];
      repeat split; constructor.
  - intros [= _ <-]. exists [upload_to_s3; save_backup_info (info w)].
    split; [cbn; rewrite <- app_assoc; reflexivity|].
    split; [|reflexivity]. cbn. constructor; [reflexivity | constructor].
  - intros [= _ <-]. apply quiet_refl.
Qed.

Lemma try_body_statuses self w r w' :
  try_body self w = (r, w') ->
  exists rest again,
    trace w' = trace w ++ save_backup_info (info (set_status in_progress w)) :: rest /\
    saved_statuses rest
      = again ++ match r with None => [Some completed] | Some _ => [] end /\
    Forall (fun s => s = Some in_progress) again /\
    status (info w')
      = match r with None => Some completed | Some _ => Some in_progress end.
Proof.
  unfold try_body.
  set (w0 := _save_backup_info (set_status in_progress w)).
  assert (trace w0 = trace w ++ [save_backup_info (info (set_status in_progress w))])
    as T0 by reflexivity.
  assert (status (info w0) = Some in_progress) as S0 by reflexivity.
  assert (forall w1, quiet w0 w1 ->
            exists rest again,
              trace w1 = trace w ++
                save_backup_info (info (set_status in_progress w)) :: rest /\
              saved_statuses rest = again ++ [] /\
              Forall (fun s => s = Some in_progress) again /\
              status (info w1) = Some in_progress) as Q.
  { intros w1 (evs & T & S & I). exists evs, (saved_statuses evs).
    rewrite T, T0, <- app_assoc, app_nil_r.
    repeat split; [rewrite <- S0; exact S | congruence]. }
  destruct (detect self w0) as [[e|] w1] eqn:D.
  { intros [= <- <-]. apply Q. eapply detect_quiet, D. }
  destruct (backup_each self (content_types self) w1) as [[e|] w2] eqn:B.
  { intros [= <- <-]. apply Q.
    eapply quiet_trans; [eapply detect_quiet, D | eapply backup_each_quiet, B]. }
  destruct (upload self w2) as [[e|] w3] eqn:U.
  { intros [= <- <-]. apply Q.
    eapply quiet_trans; [eapply detect_quiet, D|].
    eapply quiet_trans; [eapply backup_each_quiet, B | eapply upload_quiet, U]. }
  intros [= <- <-].
  destruct (Q w3) as (rest & again & T & S & A & I).
  { eapply quiet_trans; [eapply detect_quiet, D|].
    eapply quiet_trans; [eapply backup_each_quiet, B | eapply upload_quiet, U]. }
  exists (rest ++ [save_backup_info (info (set_status completed w3))]), again.
  cbn [_save_backup_info emit trace info set_status status].
  rewrite T, <- app_assoc. split; [reflexivity|].
  unfold saved_statuses in *. rewrite omap_app, S, app_nil_r.
  repeat split. exact A.
Qed.

(** The statuses written by a run: [in_progress] first, before anything
    else the run does, [in_progress] again if the upload writes the file,
    then the status that goes with the outcome of the run, or none when the
    run is ended by an exception outside [KeyboardInterrupt] and
    [Exception]. *)
Lemma run_backup_statuses self w r w' :
  run_backup self w = (r, w') ->
  exists i rest again,
    trace w' = trace w ++ save_backup_info i :: rest /\
    status i = Some in_progress /\
    saved_statuses rest = again ++ terminal_statuses r /\
    Forall (fun s => s = Some in_progress) again /\
    (forall e, r = Raised e -> is_Exception e = true ->
       error (info w') = Some (str e)).
Proof.
  unfold run_backup.
  destruct (try_body self w) as [[e|] w1] eqn:E;
    destruct (try_body_statuses _ _ _ _ E) as (rest & again & T & S & A & I).
  - rewrite app_nil_r in S.
    destruct e; cbn [is_Exception]; intros [= <- <-];
      eexists _, _, again;
      cbn [_save_backup_info emit trace info set_status set_error status error];
      rewrite ?T, <- ?app_assoc;
      (split; [cbn [app]; reflexivity|]); (split; [reflexivity|]);
      unfold saved_statuses in *; rewrite ?omap_app, ?S, ?app_nil_r;
      (split; [reflexivity|]); (split; [exact A|]);
      intros e' [= <-]; try discriminate; reflexivity.
  - intros [= <- <-]. eexists _, _, again. rewrite T.
    split; [reflexivity|]. split; [reflexivity|]. split; [exact S|].
    split; [exact A | discriminate].
Qed.

Lemma backup_each_app self pre post w :
  backup_each self (pre ++ post) w =
  match backup_each self pre w with
  | (None, w') => backup_each self post w'
  | (Some e, w') => (Some e, w')
  end.
Proof.
  revert w. induction pre as [|content_type pre IH]; intros w; cbn; [reflexivity|].
  destruct (backup_one self content_type w) as [[e|] w']; [reflexivity | apply IH].
Qed.

Section NoInterrupt.

Variable self : self_cfg.

(** No backup method is ended by an exception outside [Exception]. *)
Hypothesis methods_raise_exceptions :
  forall content_type m st e,
    methods self content_type = Some m ->
    fst (m st) = Some e ->
    is_Exception e = true.

Lemma captured_exception e :
  is_Exception e = true -> exists msg, captured e = Some msg.
Proof. destruct e; try discriminate; intros _; cbn; eauto. Qed.

Lemma backup_one_goes_on content_type w :
  exists w',
    backup_one self content_type w = (None, w') /\
    attempted (trace w') = attempted (trace w) ++ eligible self [content_type].
Proof.
  unfold backup_one, eligible.
  destruct (decide (content_type = "custom_post_types")) as [->|Hne].
  { eexists. split; [reflexivity|].
    rewrite filter_cons_False by (intros [? _]; congruence).
    rewrite filter_nil, app_nil_r. reflexivity. }
  rewrite bool_decide_eq_false_2 by assumption.
  destruct (methods self content_type) as [m|] eqn:M.
  - rewrite filter_cons_True by (split; [assumption | eauto]).
    rewrite filter_nil. cbn [emit info stats trace].
    destruct (m (stats (info w))) as [[e|] st] eqn:R.
    + destruct (captured_exception e) as [msg C].
      { eapply methods_raise_exceptions; [exact M | rewrite R; reflexivity]. }
      rewrite C. eexists. split; [reflexivity|]. cbn.
      unfold attempted. rewrite omap_app. reflexivity.
    + eexists. split; [reflexivity|]. cbn.
      unfold attempted. rewrite omap_app. reflexivity.
  - rewrite filter_cons_False by (intros [_ [? ?]]; congruence).
    eexists. split; [reflexivity|]. rewrite filter_nil, app_nil_r. reflexivity.
Qed.

Lemma backup_each_goes_on types : forall w,
  exists w',
    backup_each self types w = (None, w') /\
    attempted (trace w') = attempted (trace w) ++ eligible self types.
Proof.
  induction types as [|content_type rest IH]; intros w; cbn [backup_each].
  - exists w. split; [reflexivity|]. unfold eligible.
    rewrite filter_nil, app_nil_r. reflexivity.
  - destruct (backup_one_goes_on content_type w) as (w1 & -> & A1).
    destruct (IH w1) as (w2 & E & A2).
    exists w2. split; [exact E|]. rewrite A2, A1, <- app_assoc.
    unfold eligible. rewrite <- filter_app. reflexivity.
Qed.

Lemma backup_one_records content_type m w :
  content_type <> "custom_post_types" ->
  methods self content_type = Some m ->
  exists w',
    backup_one self content_type w = (None, w') /\
    attempted (trace w') = attempted (trace w) ++ [content_type] /\
    (forall st, m (stats (info w)) = (None, st) -> stats (info w') = st) /\
    (forall e st, m (stats (info w)) = (Some e, st) ->
       exists msg, captured e = Some msg /\
         stats (info w') = <[content_type := error_entry msg]> st).
Proof.
  intros Hne M. unfold backup_one.
  rewrite bool_decide_eq_false_2, M by assumption.
  cbn [emit info stats trace].
  destruct (m (stats (info w))) as [[e|] st] eqn:R.
  - destruct (captured_exception e) as [msg C].
    { eapply methods_raise_exceptions; [exact M | rewrite R; reflexivity]. }
    rewrite C. eexists. split; [reflexivity|]. cbn.
    split; [unfold attempted; rewrite omap_app; reflexivity|].
    split; [discriminate|]. intros e' st' [= <- <-]. eauto.
  - eexists. split; [reflexivity|]. cbn.
    split; [unfold attempted; rewrite omap_app; reflexivity|].
    split; [intros st' [= <-]; reflexivity | discriminate].
Qed.

(** C7, as the code has it.  In the loop over the configured content
    types, a backup method that raises an error has that error stored as
    the error entry of its content type, and the loop goes through the
    whole list: every content type after it that has a backup method is
    handed to that method, and what the method leaves is recorded, its
    statistics when it returns and its own error entry when it raises.
    The discovery of the custom post types is not part of the loop: an
    error it raises is raised by the run, which ends with the status
    [failed] and no content type attempted. *)
Theorem failed_collection_is_recorded_and_the_rest_attempted
    (pre post : list string) content_type m w :
  content_type <> "custom_post_types" ->
  methods self content_type = Some m ->
  (exists w1 w2 w3,
     backup_each self pre w = (None, w1) /\
     backup_one self content_type w1 = (None, w2) /\
     attempted (trace w2) = attempted (trace w1) ++ [content_type] /\
     (forall e, fst (m (stats (info w1))) = Some e ->
        exists msg, captured e = Some msg /\
          stats (info w2) !! content_type = Some (error_entry msg)) /\
     backup_each self (pre ++ content_type :: post) w = (None, w3) /\
     attempted (trace w3) = attempted (trace w2) ++ eligible self post) /\
  (forall post1 later post2 m',
     post = post1 ++ later :: post2 ->
     later <> "custom_post_types" ->
     methods self later = Some m' ->
     exists wa wb,
       backup_each self (pre ++ content_type :: post1) w = (None, wa) /\
       backup_one self later wa = (None, wb) /\
       attempted (trace wb) = attempted (trace wa) ++ [later] /\
       (forall st, m' (stats (info wa)) = (None, st) ->
          stats (info wb) = st) /\
       (forall e st, m' (stats (info wa)) = (Some e, st) ->
          exists msg, captured e = Some msg /\
            stats (info wb) = <[later := error_entry msg]> st)) /\
  (forall w0 e st,
     "custom_post_types" ∈ content_types self ->
     _detect_custom_post_types self (stats (info w0)) = (Some e, st) ->
     is_Exception e = true ->
     exists w',
       run_backup self w0 = (Raised e, w') /\
       attempted (trace w') = attempted (trace w0) /\
       status (info w') = Some failed /\
       error (info w') = Some (str e)).
Proof.
  intros Hne M. split; [|split].
  - destruct (backup_each_goes_on pre w) as (w1 & E1 & _).
    destruct (backup_one_records content_type m w1 Hne M)
      as (w2 & E2 & A2 & _ & Herr).
    destruct (backup_each_goes_on post w2) as (w3 & E3 & A3).
    exists w1, w2, w3. split; [exact E1|]. split; [exact E2|].
    split; [exact A2|]. split; [|split].
    + intros e R.
      destruct (m (stats (info w1))) as [r st] eqn:Rm. cbn in R. subst r.
      destruct (Herr e st eq_refl) as (msg & C & S).
      exists msg. split; [exact C|]. rewrite S. apply lookup_insert_eq.
    + rewrite backup_each_app, E1. cbn [backup_each]. rewrite E2. exact E3.
    + exact A3.
  - intros post1 later post2 m' _ Hl M'.
    destruct (backup_each_goes_on (pre ++ content_type :: post1) w)
      as (wa & Ea & _).
    destruct (backup_one_records later m' wa Hl M') as (wb & Eb & Ab & R1 & R2).
    exists wa, wb. repeat split; assumption.
  - intros w0 e st Hin Hd He. unfold run_backup, try_body, detect.
    rewrite bool_decide_eq_true_2 by assumption.
    cbn [_save_backup_info set_status emit info stats trace]. rewrite Hd.
    destruct e; try discriminate He; cbn [is_Exception];
      (eexists; split; [reflexivity|]);
      cbn [_save_backup_info set_status set_error set_stats emit info stats
           trace status error];
      unfold attempted; rewrite !omap_app; cbn;
      rewrite ?app_nil_r; auto.
Qed.

End NoInterrupt.

End OrchestratorFacts.

Section OrchestratorRuns.

Import Orchestrator Examples.

(** C9, against the claim as stated: with credentials supplied, a
    rejection of them ends the construction of the tool with the
    authentication error; no client is made and no run follows. *)
Lemma rejected_credentials_abort_the_construction :
  ~ (forall username password msg,
       authenticated_mode username password false = true ->
       exists mode,
         WordPressBackup username password false (Some (WPAPIAuthError msg))
           = Returned (mode, anonymous)).
Proof.
  intros H.
  destruct (H (Some "admin") (Some "secret") "401" eq_refl) as [mode E].
  discriminate E.
Qed.

Lemma rejected_credentials_witness :
  (authenticated_mode (Some "admin") (Some "secret") false = true /\
   WordPressBackup (Some "admin") (Some "secret") false
       (Some (WPAPIAuthError "401"))
     = Raised (WPAPIAuthError "401")) /\
  (authenticated_mode None None false = false /\
   WordPressBackup None None false (Some (WPAPIAuthError "401"))
     = Returned (false, anonymous)).
Proof.
  split.
  - split; [reflexivity|].
    apply (rejected_credentials_are_raised
             (Some "admin") (Some "secret") false "401").
    reflexivity.
  - split; [reflexivity|].
    apply (rejected_credentials_are_raised None None false "401").
    reflexivity.
Defined.

Lemma posts_fail_raises_exceptions :
  forall content_type m st e,
    methods posts_fail content_type = Some m ->
    fst (m st) = Some e ->
    is_Exception e = true.
Proof.
  intros content_type m st e. unfold posts_fail. cbn [methods].
  repeat case_bool_decide; intros [= <-]; cbn; intros [= <-]; reflexivity.
Defined.

Lemma failed_collection_witness :
  "posts" <> "custom_post_types" /\
  methods posts_fail "posts" = Some failing /\
  (exists w1 w2 w3,
     backup_each posts_fail [] not_started = (None, w1) /\
     backup_one posts_fail "posts" w1 = (None, w2) /\
     attempted (trace w2) = attempted (trace w1) ++ ["posts"] /\
     (forall e, fst (failing (stats (info w1))) = Some e ->
        exists msg, captured e = Some msg /\
          stats (info w2) !! "posts" = Some (error_entry msg)) /\
     backup_each posts_fail
         ([] ++ "posts" :: ["custom_post_types"; "pages"; "tags"]) not_started
       = (None, w3) /\
     attempted (trace w3)
       = attempted (trace w2)
         ++ eligible posts_fail ["custom_post_types"; "pages"; "tags"]) /\
  (exists wa wb,
     backup_each posts_fail ([] ++ "posts" :: ["custom_post_types"; "pages"])
                 not_started = (None, wa) /\
     backup_one posts_fail "tags" wa = (None, wb) /\
     attempted (trace wb) = attempted (trace wa) ++ ["tags"] /\
     (forall st, storing "tags" 3 (stats (info wa)) = (None, st) ->
        stats (info wb) = st)).
Proof.
  split; [discriminate|]. split; [reflexivity|].
  destruct (failed_collection_is_recorded_and_the_rest_attempted
              posts_fail posts_fail_raises_exceptions
              [] ["custom_post_types"; "pages"; "tags"] "posts" failing
              not_started) as (A & B & _);
    [discriminate | reflexivity |].
  split; [exact A|].
  destruct (B ["custom_post_types"; "pages"] "tags" [] (storing "tags" 3))
    as (wa & wb & Ea & Eb & Ab & R & _);
    [reflexivity | discriminate | reflexivity |].
  exists wa, wb. repeat split; assumption.
Defined.

(** C7, against the claim as stated: 'custom_post_types' is one of the
    configured collections, and an error raised while its discovery runs
    is not stored as its error entry and ends the run before any other
    configured collection is attempted. *)
Lemma failed_discovery_stops_the_later_collections :
  ~ (forall (self : self_cfg) pre post e st r w',
       content_types self = pre ++ "custom_post_types" :: post ->
       _detect_custom_post_types self (stats (info not_started))
         = (Some e, st) ->
       is_Exception e = true ->
       run_backup self not_started = (r, w') ->
       (exists msg,
          stats (info w') !! "custom_post_types" = Some (error_entry msg)) /\
       (forall later,
          later ∈ eligible self post -> later ∈ attempted (trace w'))).
Proof.
  intros H.
  destruct (run_backup MoreExamples.discovery_fails not_started) as [r w']
    eqn:E.
  destruct (H MoreExamples.discovery_fails ["posts"] ["pages"]
              (WPAPIError "500") (stats (info not_started)) r w')
    as [_ A]; [reflexivity | reflexivity | reflexivity | exact E |].
  assert (w' = snd (run_backup MoreExamples.discovery_fails not_started))
    as -> by (rewrite E; reflexivity).
  assert (eligible MoreExamples.discovery_fails ["pages"] = ["pages"]) as El.
  { unfold eligible. rewrite filter_cons_True; [reflexivity|].
    split; [discriminate | eexists; reflexivity]. }
  specialize (A "pages"). rewrite El in A.
  assert ("pages" ∈ attempted
            (trace (snd (run_backup MoreExamples.discovery_fails not_started))))
    as Hin by (apply A, elem_of_cons; left; reflexivity).
  vm_compute in Hin. inversion Hin.
Qed.

(** The run of [posts_fail], evaluated: posts have an error entry, pages
    and tags their counts, and the run completes. *)
Lemma posts_fail_run :
  exists i w',
    run_backup posts_fail not_started = (Returned i, w') /\
    i = info w' /\
    attempted (trace w') = ["posts"; "pages"; "tags"] /\
    stats (info w') !! "posts" = Some (error_entry "500") /\
    stats (info w') !! "pages" = Some (count_pages 12 1) /\
    stats (info w') !! "tags" = Some (count_pages 3 1) /\
    saved_statuses (trace w') = [Some in_progress; Some completed].
Proof.
  eexists _, _. split; [vm_compute; reflexivity|].
  repeat split; vm_compute; reflexivity.
Qed.

(** C8, on the code: a SIGINT that arrives while the pages are backed up
    runs the handler the module installs, which raises [SystemExit];
    neither handler of [run_backup] catches it, so the run ends with
    [in_progress] as the only status ever written, on disk and in memory,
    and the content types after pages are not attempted. *)
Theorem sigint_leaves_the_manifest_in_progress :
  exists w',
    run_backup sigint_during_pages not_started = (Raised (SystemExit 1), w') /\
    saved_statuses (trace w') = [Some in_progress] /\
    status (info w') = Some in_progress /\
    error (info w') = None /\
    attempted (trace w') = ["posts"; "pages"].
Proof.
  eexists. split; [vm_compute; reflexivity|].
  repeat split; vm_compute; reflexivity.
Qed.

End OrchestratorRuns.

(** * Further properties of the collector *)

Section CollectorMore.

Import Collector PageOrder.

Context {record : Type}.

Implicit Types (st : locals record) (client : endpoint_client record)
  (self : self_cfg) (type_name : string).

(** All the ways one iteration can end. *)
Lemma loop_body_cases self type_name client st :
  let p := build_params self type_name (page st) in
  let st1 := Locals (items st) (page st) (total_items st) (retry_count st)
                    (S (calls st)) (trace st ++ [list_call p]) in
  loop_body self type_name client st = Break st1 \/
  (exists e, loop_body self type_name client st = Propagate e st1) \/
  (retry_count st + 1 > max_retries /\
   loop_body self type_name client st
     = Break (set_retry_count (retry_count st + 1) st1)) \/
  (exists cap,
     (cap = 30 \/ cap = 60) /\ retry_count st + 1 <= max_retries /\
     loop_body self type_name client st
       = Continue (emit (sleep (Z.min (2 ^ retry_count st) cap))
                        (set_retry_count (retry_count st + 1) st1))) \/
  (exists r b,
     client (calls st) p = Batch (r :: b) /\
     ((Z.of_nat (length (r :: b)) < per_page /\
       loop_body self type_name client st = Break (accept_batch (r :: b) st1)) \/
      loop_body self type_name client st
        = Continue (set_page (page st + 1) (accept_batch (r :: b) st1)))).
Proof.
  cbv zeta. unfold loop_body.
  destruct (client _ _) as [[|r b]|e] eqn:E.
  - left. reflexivity.
  - do 4 right. exists r, b. split; [reflexivity|].
    destruct (_ <? per_page) eqn:L; [left | right; reflexivity].
    split; [apply Z.ltb_lt in L; exact L | reflexivity].
  - destruct e;
      try (right; left; eexists; reflexivity);
      try (left; reflexivity);
      match goal with |- context [backoff ?c ?s] =>
        destruct (backoff_cases c s) as [[Hle ->]|[Hgt ->]] end;
      cbn [retry_count] in *;
      try (right; right; left; split; [assumption | reflexivity]);
      right; right; right; left; eexists; (split; [|split; [eassumption|reflexivity]]);
      auto.
Qed.

Lemma finish_trace_projections type_name stats (x : loop_exit record) :
  list_calls (snd (finish type_name stats x)) = list_calls (trace (exit_locals x)) /\
  page_files (snd (finish type_name stats x)) = page_files (trace (exit_locals x)) /\
  sleeps (snd (finish type_name stats x)) = sleeps (trace (exit_locals x)).
Proof.
  destruct x as [st|e st]; cbn.
  - destruct (items st); [auto|].
    unfold list_calls, page_files, sleeps. rewrite !omap_app. cbn.
    rewrite !app_nil_r. auto.
  - destruct e; auto.
Qed.

(** X1.  A list call answered by "not found" or "permission denied" ends
    the pass at once: no sleep, no retry, the items fetched so far are
    returned and the entry of the collection is its count and page, not an
    error. *)
Theorem absent_or_forbidden_endpoint_ends_the_pass
    self type_name client st e stats :
  (exists m, e = WPAPINotFoundError m \/ e = WPAPIPermissionError m) ->
  total_items st < max_items_per_type self ->
  client (calls st) (build_params self type_name (page st)) = Raise e ->
  let st' := Locals (items st) (page st) (total_items st) (retry_count st)
                    (S (calls st))
                    (trace st ++ [list_call (build_params self type_name (page st))]) in
  (forall fuel, while_loop (S fuel) self type_name client st = Some (Done st')) /\
  sleeps (trace st') = sleeps (trace st) /\
  fst (fst (finish type_name stats (Done st'))) = Returned (items st) /\
  snd (fst (finish type_name stats (Done st'))) !! type_name
    = Some (count_pages (Z.of_nat (length (items st))) (page st)).
Proof.
  intros (m & He) Hlt E st'. split; [|split; [|split]].
  - intros fuel. cbn [while_loop]. apply Z.ltb_lt in Hlt. rewrite Hlt.
    unfold loop_body. rewrite E. destruct He as [-> | ->]; reflexivity.
  - subst st'. cbn [trace]. unfold sleeps. rewrite omap_app. cbn.
    apply app_nil_r.
  - reflexivity.
  - cbn. apply lookup_insert_eq.
Qed.

(** X2.  Without a positive cap on the items nothing is asked of the
    remote site: the method returns no items, writes no file and records a
    count of 0 on page 1. *)
Theorem nothing_is_fetched_without_a_positive_cap
    self type_name client stats :
  max_items_per_type self <= 0 ->
  _backup_content_type self None type_name client stats
    = Some (Returned [], <[type_name := count_pages 0 1]> stats, []).
Proof.
  intros Hmax. unfold _backup_content_type, pagination.
  assert (forall fuel, while_loop fuel self type_name client initial
                         = Some (Done initial)) as W.
  { intros fuel.
    destruct fuel; cbn [while_loop];
      (destruct (total_items initial <? max_items_per_type self) eqn:L;
       [apply Z.ltb_lt in L; cbn in L; lia | reflexivity]). }
  rewrite W. reflexivity.
Qed.

Lemma pages_requested_snoc (tr : list (event record)) (p : params) :
  pages_requested (tr ++ [list_call p]) = pages_requested tr ++ [param_page p].
Proof.
  unfold pages_requested, list_calls. rewrite omap_app, map_app. reflexivity.
Qed.

Lemma pages_requested_other (tr : list (event record)) (e : event record) :
  (forall p, e <> list_call p) ->
  pages_requested (tr ++ [e]) = pages_requested tr.
Proof.
  intros He. unfold pages_requested, list_calls. rewrite omap_app.
  destruct e; [exfalso; eapply He; reflexivity | |]; cbn;
    rewrite app_nil_r; reflexivity.
Qed.

Lemma page_files_other (tr : list (event record)) (e : event record) :
  (forall n d, e <> save_json_file (page_json n) d) ->
  page_files (tr ++ [e]) = page_files tr.
Proof.
  intros He. unfold page_files. rewrite omap_app.
  destruct e as [| |[n|] d]; cbn; rewrite ?app_nil_r; try reflexivity.
  exfalso. eapply He. reflexivity.
Qed.

Lemma page_files_snoc (tr : list (event record)) (n : Z) (d : list record) :
  page_files (tr ++ [save_json_file (page_json n) d]) = page_files tr ++ [(n, d)].
Proof. unfold page_files. rewrite omap_app. reflexivity. Qed.

Lemma param_page_build self type_name pg :
  param_page (build_params self type_name pg) = pg.
Proof. unfold build_params. destruct (_ && _); reflexivity. Qed.

Lemma in_page_order_snoc (l : list Z) (pg : Z) :
  in_page_order l ->
  (l = [] /\ pg = 1) \/ (exists l' p, l = l' ++ [p] /\ (pg = p \/ pg = p + 1)) ->
  in_page_order (l ++ [pg]).
Proof.
  intros Hl [[-> ->]|(l' & p & -> & Hp)].
  - apply first_page.
  - rewrite <- app_assoc. apply next_page; assumption.
Qed.

Lemma seqZ_snoc (k : Z) : 0 <= k -> seqZ 1 k ++ [k + 1] = seqZ 1 (k + 1).
Proof.
  intros Hk. rewrite (seqZ_app 1 k 1) by lia.
  rewrite (seqZ_cons (1 + k) 1) by lia.
  rewrite (seqZ_nil (Z.succ (1 + k)) (Z.pred 1)) by lia.
  replace (1 + k) with (k + 1) by lia. reflexivity.
Qed.

Lemma pages_invariant_step self type_name client st :
  pages_invariant st ->
  match loop_body self type_name client st with
  | Continue st' => pages_invariant st'
  | Break st' => pages_at_exit st'
  | Propagate _ st' => pages_at_exit st'
  end.
Proof.
  intros (H1 & Hf & Ho & Hl).
  assert (in_page_order (pages_requested (trace st) ++ [page st])) as Ho'
    by (apply in_page_order_snoc; assumption).
  assert (pages_requested
            (trace st ++ [list_call (build_params self type_name (page st))])
          = pages_requested (trace st) ++ [page st]) as R1
    by (rewrite pages_requested_snoc, param_page_build; reflexivity).
  assert (page_files
            (trace st ++ [list_call (build_params self type_name (page st))])
          = page_files (trace st)) as F1
    by (apply page_files_other; discriminate).
  destruct (loop_body_cases self type_name client st)
    as [->|[(e & ->)|[(_ & ->)|[(cap & _ & _ & ->)|(r & b & _ & [(_ & ->)| ->])]]]];
    unfold pages_at_exit, pages_invariant;
    cbn [trace page emit set_retry_count set_page accept_batch].
  - rewrite R1, F1. split; [exact Ho'|].
    exists (page st - 1). repeat split; [lia | exact Hf | right; lia | lia].
  - rewrite R1, F1. split; [exact Ho'|].
    exists (page st - 1). repeat split; [lia | exact Hf | right; lia | lia].
  - rewrite R1, F1. split; [exact Ho'|].
    exists (page st - 1). repeat split; [lia | exact Hf | right; lia | lia].
  - rewrite pages_requested_other by discriminate.
    rewrite page_files_other by discriminate.
    rewrite R1, F1. repeat split; [lia | exact Hf | exact Ho' |].
    right. eexists _, _. split; [reflexivity | left; reflexivity].
  - rewrite pages_requested_other by discriminate.
    rewrite page_files_snoc, R1, F1. split; [exact Ho'|].
    exists (page st). rewrite map_app, Hf. cbn.
    repeat split; [lia | | left; reflexivity | lia].
    replace (page st) with (page st - 1 + 1) at 2 3 by lia.
    apply seqZ_snoc. lia.
  - rewrite pages_requested_other by discriminate.
    rewrite page_files_snoc, R1, F1. repeat split; [lia | | exact Ho' |].
    + rewrite map_app, Hf. cbn.
      replace (page st + 1 - 1) with (page st - 1 + 1) by lia.
      replace (page st) with (page st - 1 + 1) at 2 by lia.
      apply seqZ_snoc. lia.
    + right. eexists _, _. split; [reflexivity | right; reflexivity].
Qed.

Lemma pagination_pages self type_name client x :
  pagination self type_name client = Some x ->
  pages_at_exit (exit_locals x).
Proof.
  unfold pagination.
  apply (while_loop_invariant self type_name client
           pages_invariant pages_at_exit).
  - intros st (H1 & Hf & Ho & Hl) _. split; [exact Ho|].
    exists (page st - 1). repeat split; [lia | exact Hf | right; lia | lia].
  - intros st Hst _. apply pages_invariant_step. exact Hst.
  - repeat split; [cbn; lia | constructor | left; split; reflexivity].
Qed.

(** X3.  The pages of a pass are asked for in order: the first list call
    is for page 1 and every later one for the same page as the call before
    it or for the next page; the per-page files written are page_1.json to
    page_k.json, one after the other; and the page number recorded for the
    collection is k or k + 1. *)
Theorem pages_are_fetched_in_order self type_name client stats :
  exists res stats' tr,
    _backup_content_type self None type_name client stats
      = Some (res, stats', tr) /\
    in_page_order (pages_requested tr) /\
    exists k,
      0 <= k /\
      map fst (page_files tr) = seqZ 1 k /\
      forall its c p,
        res = Returned its ->
        stats' !! type_name = Some (count_pages c p) ->
        p = k \/ p = k + 1.
Proof.
  unfold _backup_content_type.
  destruct (pagination_returns self type_name client) as [x Hx]. rewrite Hx.
  destruct (finish_trace_projections type_name stats x) as (Hc & Hf & _).
  destruct (pagination_pages _ _ _ _ Hx) as (Ho & k & Hk & Hp & Hpage & _).
  destruct (finish type_name stats x) as [[res stats'] tr] eqn:F.
  cbn [snd] in Hc, Hf.
  exists res, stats', tr. split; [reflexivity|]. split.
  - unfold pages_requested. rewrite Hc. exact Ho.
  - exists k. split; [exact Hk|]. split; [rewrite Hf; exact Hp|].
    intros its c p Hr Hs.
    destruct x as [st|e st]; cbn [finish exit_locals] in *.
    + injection F as <- <- <-. rewrite lookup_insert_eq in Hs.
      injection Hs as <- <-. exact Hpage.
    + destruct e; cbn [is_Exception] in F; injection F as <- <- <-;
        try (rewrite lookup_insert_eq in Hs; discriminate Hs);
        discriminate Hr.
Qed.

(** X4.  The cap on the items is checked between pages only: when no
    batch has more than [per_page] records, the items returned are fewer than
    the cap plus one page. *)
Theorem items_exceed_the_cap_by_less_than_a_page
    self type_name client stats :
  (forall n p batch, client n p = Batch batch ->
     Z.of_nat (length batch) <= per_page) ->
  exists res stats' tr,
    _backup_content_type self None type_name client stats
      = Some (res, stats', tr) /\
    forall its, res = Returned its ->
      Z.of_nat (length its) < Z.max 0 (max_items_per_type self) + per_page.
Proof.
  intros Hb. unfold _backup_content_type.
  destruct (pagination_returns self type_name client) as [x Hx]. rewrite Hx.
  set (P := fun st : locals record =>
              total_items st = Z.of_nat (length (items st)) /\
              total_items st < Z.max 0 (max_items_per_type self) + per_page).
  assert (P (exit_locals x)) as [Ht Hlt].
  { unfold pagination in Hx.
    apply (while_loop_invariant self type_name client P P)
      with (fuel := enough_fuel self) (st := initial); [| | | exact Hx];
      subst P; cbv beta.
    - auto.
    - intros st [Ht Hlt] Hcap.
      destruct (loop_body_cases self type_name client st)
        as [->|[(e & ->)|[(_ & ->)|[(cap & _ & _ & ->)|(r & b & E & [(_ & ->)| ->])]]]];
        cbn [total_items items emit set_retry_count set_page accept_batch];
        try (split; assumption);
        apply Hb in E; rewrite length_app; split; lia.
    - cbn. unfold per_page. lia. }
  destruct (finish type_name stats x) as [[res stats'] tr] eqn:F.
  exists res, stats', tr. split; [reflexivity|].
  intros its Hr. subst res.
  destruct x as [st|e st]; cbn [finish exit_locals] in *.
  - simplify_eq. lia.
  - destruct e; cbn [is_Exception] in F; simplify_eq;
      cbn; unfold per_page; lia.
Qed.

Lemma loop_body_calls self type_name client st :
  calls (step_locals (loop_body self type_name client st)) = S (calls st).
Proof.
  destruct (loop_body_cases self type_name client st)
    as [->|[(e & ->)|[(_ & ->)|[(cap & _ & _ & ->)|(r & b & _ & [(_ & ->)| ->])]]]];
    reflexivity.
Qed.

Lemma while_loop_calls self type_name client fuel : forall st x,
  while_loop fuel self type_name client st = Some x ->
  (calls (exit_locals x) <= calls st + fuel)%nat.
Proof.
  induction fuel as [|fuel IH]; intros st x; cbn [while_loop];
    destruct (total_items st <? max_items_per_type self);
    try discriminate; try (intros [= <-]; cbn; lia).
  pose proof (loop_body_calls self type_name client st) as C.
  destruct (loop_body self type_name client st) as [st'|st'|e st'];
    cbn [step_locals] in C.
  - intros E. apply IH in E. lia.
  - intros [= <-]. cbn. lia.
  - intros [= <-]. cbn. lia.
Qed.

(** X5.  A pass issues a bounded number of list calls: never more than six
    for each item of the cap, plus six. *)
Theorem list_calls_are_bounded self type_name client stats :
  exists res stats' tr,
    _backup_content_type self None type_name client stats
      = Some (res, stats', tr) /\
    Z.of_nat (length (list_calls tr))
      <= Z.max 0 (6 * max_items_per_type self + 6).
Proof.
  unfold _backup_content_type.
  destruct (pagination_returns self type_name client) as [x Hx]. rewrite Hx.
  destruct (finish_trace_projections type_name stats x) as (Hc & _ & _).
  destruct (finish type_name stats x) as [[res stats'] tr] eqn:F.
  cbn [snd] in Hc. exists res, stats', tr. split; [reflexivity|].
  rewrite Hc.
  assert (calls (exit_locals x) = length (list_calls (trace (exit_locals x))))
    as Hlen.
  { unfold pagination in Hx.
    apply (while_loop_invariant self type_name client
             (fun st => calls st = length (list_calls (trace st)))
             (fun st => calls st = length (list_calls (trace st))))
      with (fuel := enough_fuel self) (st := initial); [| | | exact Hx].
    - auto.
    - intros st Hst _.
      pose proof (loop_body_calls self type_name client st) as C.
      pose proof (loop_body_list_calls self type_name client st) as L.
      assert (calls (step_locals (loop_body self type_name client st))
              = length (list_calls (trace (step_locals
                          (loop_body self type_name client st))))) as G
        by (rewrite C, L, length_app, Hst; cbn; lia).
      destruct (loop_body self type_name client st); exact G.
    - reflexivity. }
  unfold pagination in Hx. apply while_loop_calls in Hx.
  rewrite <- Hlen. unfold enough_fuel in Hx. cbn [calls initial] in Hx. lia.
Qed.

(** One failed call that is retried, whichever handler takes it: for the
    retries the loop allows, neither cap is reached. *)
Lemma while_loop_retry self type_name client fuel st e :
  total_items st < max_items_per_type self ->
  (exists m, e = WPAPIRateLimitError m) \/ generic_api_error e = true ->
  client (calls st) (build_params self type_name (page st)) = Raise e ->
  0 <= retry_count st < max_retries ->
  while_loop (S fuel) self type_name client st =
  while_loop fuel self type_name client
    (Locals (items st) (page st) (total_items st) (retry_count st + 1)
            (S (calls st))
            (trace st ++ [list_call (build_params self type_name (page st));
                          sleep (2 ^ retry_count st)])).
Proof.
  intros Hlt He E Hr.
  assert (forall cap, 30 <= cap -> Z.min (2 ^ retry_count st) cap
                                   = 2 ^ retry_count st) as Hmin.
  { intros cap Hcap. unfold max_retries in Hr.
    assert (retry_count st = 0 \/ retry_count st = 1 \/ retry_count st = 2 \/
            retry_count st = 3 \/ retry_count st = 4) as Hcases by lia.
    destruct Hcases as [->|[->|[->|[->| ->]]]]; cbn; lia. }
  destruct He as [(m & ->)|G].
  - rewrite while_loop_backoff with (cap := 60);
      [| assumption | apply (loop_body_rate_limited _ _ _ _ _ E) | lia].
    rewrite Hmin by lia. reflexivity.
  - rewrite while_loop_backoff with (cap := 30);
      [| assumption | apply (loop_body_generic_error _ _ _ _ _ G E) | lia].
    rewrite Hmin by lia. reflexivity.
Qed.

Lemma while_loop_give_up self type_name client fuel st e :
  total_items st < max_items_per_type self ->
  (exists m, e = WPAPIRateLimitError m) \/ generic_api_error e = true ->
  client (calls st) (build_params self type_name (page st)) = Raise e ->
  retry_count st = max_retries ->
  while_loop (S fuel) self type_name client st =
  Some (Done (Locals (items st) (page st) (total_items st) (max_retries + 1)
                     (S (calls st))
                     (trace st ++ [list_call (build_params self type_name (page st))]))).
Proof.
  intros Hlt He E Hr. cbn [while_loop]. apply Z.ltb_lt in Hlt. rewrite Hlt.
  assert (loop_body self type_name client st =
          backoff (if generic_api_error e then 30 else 60)
            (Locals (items st) (page st) (total_items st) (retry_count st)
                    (S (calls st))
                    (trace st ++ [list_call (build_params self type_name (page st))])))
    as B.
  { destruct He as [(m & ->)|G].
    - apply (loop_body_rate_limited _ _ _ _ _ E).
    - rewrite G. apply (loop_body_generic_error _ _ _ _ _ G E). }
  rewrite B.
  match goal with |- context [backoff ?c ?s] =>
    destruct (backoff_cases c s) as [[Hle _]|[_ ->]] end.
  - cbn in Hle. lia.
  - unfold set_retry_count. cbn. rewrite Hr. reflexivity.
Qed.

(** X6.  The two kinds of retried errors share one retry counter: six
    failed calls in a row, rate limits and other API errors in any mix, end
    the pass.  The same page is asked for six times, the sleeps between the
    calls are 1, 2, 4, 8 and 16 seconds whatever the mix, and the items
    fetched before are kept. *)
Theorem six_failures_of_any_kind_end_the_pass
    self type_name client st fuel :
  retry_count st = 0 ->
  total_items st < max_items_per_type self ->
  (forall i q, (i < 6)%nat ->
     exists e,
       ((exists m, e = WPAPIRateLimitError m) \/ generic_api_error e = true) /\
       client (calls st + i)%nat q = Raise e) ->
  exists st',
    while_loop (6 + fuel) self type_name client st = Some (Done st') /\
    abandoned st' /\ items st' = items st /\ page st' = page st /\
    sleeps (trace st') = sleeps (trace st) ++ [1; 2; 4; 8; 16] /\
    pages_requested (trace st')
      = pages_requested (trace st) ++ repeat (page st) 6.
Proof.
  destruct st as [it pg tot rc cl tr].
  cbn [retry_count total_items calls page items trace].
  intros -> Hlt Hc.
  assert (forall i st1, (i < 6)%nat -> calls st1 = (cl + i)%nat ->
            exists e,
              ((exists m, e = WPAPIRateLimitError m) \/
               generic_api_error e = true) /\
              client (calls st1) (build_params self type_name (page st1))
                = Raise e) as Hstep.
  { intros i st1 Hi ->. apply Hc. exact Hi. }
  change (6 + fuel)%nat with (S (S (S (S (S (S fuel)))))).
  do 5 (match goal with |- context [while_loop (S ?f) _ _ _ ?s] =>
          let i := constr:((calls s - cl)%nat) in
          destruct (Hstep i s) as (? & ? & ?); [cbn; lia | cbn; lia |];
          erewrite (while_loop_retry _ _ _ f s);
          [| assumption | eassumption | eassumption
           | cbn; unfold max_retries; lia]
        end; cbn [items page total_items retry_count calls trace]).
  match goal with |- context [while_loop (S ?f) _ _ _ ?s] =>
    destruct (Hstep 5%nat s) as (? & ? & ?); [lia | cbn; lia |];
    erewrite (while_loop_give_up _ _ _ f s);
    [| assumption | eassumption | eassumption | reflexivity]
  end.
  eexists. split; [reflexivity|].
  cbn [items page trace]. unfold abandoned. cbn [retry_count].
  split; [unfold max_retries; lia|]. split; [reflexivity|].
  split; [reflexivity|].
  rewrite <- !app_assoc. cbn [app].
  unfold sleeps, pages_requested, list_calls. rewrite !omap_app, !map_app.
  cbn. rewrite !param_page_build. split; reflexivity.
Qed.

End CollectorMore.

Section CollectorMoreRuns.

Import Collector PageOrder Examples MoreExamples.

Lemma absent_endpoint_witness :
  (exists m, WPAPINotFoundError "404" = WPAPINotFoundError m \/
             WPAPINotFoundError "404" = WPAPIPermissionError m) /\
  total_items (@initial nat) < max_items_per_type public_cfg /\
  (forall fuel, while_loop (S fuel) public_cfg "posts" missing_endpoint initial
     = Some (Done (Locals [] 1 0 0 1%nat
                          [list_call (Params 1 100 (Some "publish"))]))) /\
  fst (fst (finish "posts" ∅
              (Done (Locals [] 1 0 0 1%nat
                            [list_call (Params 1 100 (Some "publish"))]))))
    = Returned ([] : list nat).
Proof.
  assert (exists m, WPAPINotFoundError "404" = WPAPINotFoundError m \/
                    WPAPINotFoundError "404" = WPAPIPermissionError m) as He
    by (exists "404"; left; reflexivity).
  assert (total_items (@initial nat) < max_items_per_type public_cfg) as Hlt
    by (cbn; lia).
  destruct (absent_or_forbidden_endpoint_ends_the_pass
              public_cfg "posts" missing_endpoint initial
              (WPAPINotFoundError "404") ∅ He Hlt eq_refl)
    as (Hloop & _ & Hres & _).
  split; [exact He|]. split; [exact Hlt|]. split; [exact Hloop | exact Hres].
Defined.

Lemma no_positive_cap_witness :
  max_items_per_type capped_at_zero <= 0 /\
  _backup_content_type capped_at_zero None "posts" two_pages ∅
    = Some (Returned [], <["posts" := count_pages 0 1]> ∅, []).
Proof.
  assert (max_items_per_type capped_at_zero <= 0) as H by (cbn; lia).
  split; [exact H|].
  apply (nothing_is_fetched_without_a_positive_cap
           capped_at_zero "posts" two_pages ∅ H).
Defined.

Lemma items_within_cap_witness :
  (forall n p batch, two_pages n p = Batch batch ->
     Z.of_nat (length batch) <= per_page) /\
  exists res stats' tr,
    _backup_content_type authenticated_cfg None "posts" two_pages ∅
      = Some (res, stats', tr) /\
    forall its, res = Returned its ->
      Z.of_nat (length its)
        < Z.max 0 (max_items_per_type authenticated_cfg) + per_page.
Proof.
  assert (forall n p batch, two_pages n p = Batch batch ->
            Z.of_nat (length batch) <= per_page) as Hb.
  { intros [|n] p batch [= <-]; vm_compute; discriminate. }
  split; [exact Hb|].
  apply (items_exceed_the_cap_by_less_than_a_page
           authenticated_cfg "posts" two_pages ∅ Hb).
Defined.

Lemma six_failures_witness :
  retry_count (@initial nat) = 0 /\
  total_items (@initial nat) < max_items_per_type authenticated_cfg /\
  exists st',
    while_loop 6 authenticated_cfg "posts" mixed_failures initial
      = Some (Done st') /\
    abandoned st' /\ items st' = [] /\ page st' = 1 /\
    sleeps (trace st') = [1; 2; 4; 8; 16] /\
    pages_requested (trace st') = [1; 1; 1; 1; 1; 1].
Proof.
  assert (total_items (@initial nat) < max_items_per_type authenticated_cfg)
    as Hlt by (cbn; lia).
  split; [reflexivity|]. split; [exact Hlt|].
  apply (six_failures_of_any_kind_end_the_pass
           authenticated_cfg "posts" mixed_failures initial 0%nat eq_refl Hlt).
  intros i q _. unfold mixed_failures. cbn [calls initial Nat.add].
  destruct (Nat.even i).
  - exists (WPAPIRateLimitError "429").
    split; [left; exists "429"; reflexivity | reflexivity].
  - exists (WPAPIError "500"). split; [right; reflexivity | reflexivity].
Defined.

End CollectorMoreRuns.

(** * Further properties of the sanitization *)

Section SanitizeMore.

Import Sanitize.

Variables printable_above_latin1 space_above_latin1 : char -> bool.

Local Abbreviation isprintable := (isprintable printable_above_latin1).
Local Abbreviation cleaned := (cleaned printable_above_latin1).
Local Abbreviation clean_char := (clean_char printable_above_latin1).
Local Abbreviation blank := (blank space_above_latin1).
Local Abbreviation sanitize :=
  (_sanitize_filename printable_above_latin1 space_above_latin1).

Lemma clean_char_acceptable (c : char) :
  is_invalid (clean_char c) = false /\ isprintable (clean_char c) = true.
Proof.
  unfold Sanitize.clean_char.
  destruct (is_invalid c) eqn:I; [split; reflexivity|].
  destruct (isprintable c) eqn:P; cbn [orb negb].
  - split; assumption.
  - split; reflexivity.
Qed.

(** X7.  Whatever the input, the sanitized name is not empty, is not made of
    blanks only, and holds none of the characters the function replaces:
    every character of it is printable and none is one of
    < > : double quote / backslash | ? *. *)
Theorem sanitized_name_is_acceptable (s : pystr) :
  sanitize s <> [] /\
  blank (sanitize s) = false /\
  Forall (fun c => is_invalid c = false /\ isprintable c = true) (sanitize s).
Proof.
  assert (placeholder <> [] /\ blank placeholder = false /\
          Forall (fun c => is_invalid c = false /\ isprintable c = true)
                 placeholder) as Hp.
  { split; [discriminate|]. split; [reflexivity|].
    unfold placeholder. cbn. repeat constructor. }
  destruct s as [|c s]; [exact Hp|].
  rewrite (sanitize_cons printable_above_latin1 space_above_latin1). cbv zeta.
  destruct (blank (truncate (cleaned (c :: s)))) eqn:B; [exact Hp|].
  split; [intros E; rewrite E in B; discriminate B|]. split; [exact B|].
  apply truncate_keeps.
  rewrite (cleaned_map printable_above_latin1).
  apply Forall_map, Forall_true. intros x. apply clean_char_acceptable.
Qed.

(** X9.  A name that needs no change is returned as it is: not empty, not
    blank, at most 255 characters, all of them printable and none of them
    among the replaced ones. *)
Theorem acceptable_name_is_kept (s : pystr) :
  s <> [] ->
  blank s = false ->
  len s <= 255 ->
  Forall (fun c => is_invalid c = false /\ isprintable c = true) s ->
  sanitize s = s.
Proof.
  intros Hne Hb Hlen Hok.
  assert (cleaned s = s) as Hfix.
  { apply (cleaned_fixed printable_above_latin1).
    eapply Forall_impl; [exact Hok|]. cbv beta. intros c [I P].
    unfold Sanitize.clean_char. rewrite I, P. reflexivity. }
  destruct s as [|c s]; [congruence|].
  rewrite (sanitize_cons printable_above_latin1 space_above_latin1), Hfix.
  cbv zeta. rewrite truncate_short by assumption. rewrite Hb. reflexivity.
Qed.

End SanitizeMore.

Lemma sanitize_idempotent_witness :
  Sanitize.len (Sanitize._sanitize_filename (fun _ => true) (fun _ => false)
                  (Sanitize.of_string "a<b>.txt")) <= 255 /\
  Sanitize._sanitize_filename (fun _ => true) (fun _ => false)
    (Sanitize._sanitize_filename (fun _ => true) (fun _ => false)
       (Sanitize.of_string "a<b>.txt"))
  = Sanitize._sanitize_filename (fun _ => true) (fun _ => false)
      (Sanitize.of_string "a<b>.txt").
Proof.
  assert (Sanitize.len (Sanitize._sanitize_filename (fun _ => true)
                          (fun _ => false) (Sanitize.of_string "a<b>.txt"))
          <= 255) as H by (vm_compute; discriminate).
  split; [exact H|].
  apply (sanitize_idempotent_within_limit (fun _ => true) (fun _ => false)
           (Sanitize.of_string "a<b>.txt") H).
Defined.

Lemma acceptable_name_witness :
  Sanitize.of_string "report 2024.pdf" <> [] /\
  Sanitize.blank (fun _ => false) (Sanitize.of_string "report 2024.pdf") = false /\
  Sanitize.len (Sanitize.of_string "report 2024.pdf") <= 255 /\
  Sanitize._sanitize_filename (fun _ => true) (fun _ => false)
    (Sanitize.of_string "report 2024.pdf")
  = Sanitize.of_string "report 2024.pdf".
Proof.
  assert (Sanitize.len (Sanitize.of_string "report 2024.pdf") <= 255) as Hlen
    by (vm_compute; discriminate).
  split; [discriminate|]. split; [reflexivity|]. split; [exact Hlen|].
  apply (acceptable_name_is_kept (fun _ => true) (fun _ => false)
           (Sanitize.of_string "report 2024.pdf"));
    [discriminate | reflexivity | exact Hlen |].
  vm_compute. repeat constructor.
Defined.

(** * Further properties of the media download *)

Section MediaMore.

Import Media Coordinator.

Context {path : Type} `{Countable path}.

Implicit Types (net : remote path) (item : media_item path)
  (fs : gmap path Z).

(** What [fetch] does. *)
Lemma fetch_cases net url item fs rs r fs' reqs :
  fetch net url item fs rs = (r, fs', reqs) ->
  reqs = rs ++ [get_request url] /\
  ((exists msg, r = Returned (false, 0, msg) /\ msg <> "skipped" /\ fs' = fs) \/
   (exists n, r = Returned (true, n, "") /\ fs' = <[target item := n]> fs) \/
   (exists n msg, r = Returned (false, 0, msg) /\ msg <> "skipped" /\
                  fs' = <[target item := n]> fs)).
Proof.
  unfold fetch.
  destruct (get net url) as [msg|sizes|sizes msg].
  - intros [= <- <- <-]. split; [reflexivity|].
    left. eexists. repeat split. discriminate.
  - destruct (open_wb net (target item)); intros [= <- <- <-];
      (split; [reflexivity|]).
    + left. eexists. repeat split. discriminate.
    + right. left. eexists. split; reflexivity.
  - destruct (open_wb net (target item)); intros [= <- <- <-];
      (split; [reflexivity|]).
    + left. eexists. repeat split. discriminate.
    + right. right. eexists _, _. repeat split. discriminate.
Qed.

(** All the ways a download can end. *)
Lemma download_cases net item fs r fs' reqs :
  _download_media_file net item fs = (r, fs', reqs) ->
  (fs' = fs /\ reqs = [] /\
   (r = Returned (true, 0, "skipped") \/ r = Raised (OtherException "TypeError") \/
    exists msg, r = Returned (false, 0, msg) /\ msg <> "skipped")) \/
  (exists url,
     source_url item = Some url /\ url <> "" /\
     ((fs' = fs /\ reqs = [head_request url] /\
       r = Returned (true, 0, "skipped")) \/
      (reqs = [head_request url; get_request url] /\
       ((exists msg, r = Returned (false, 0, msg) /\ msg <> "skipped" /\ fs' = fs) \/
        (exists n, r = Returned (true, n, "") /\ fs' = <[target item := n]> fs) \/
        (exists n msg, r = Returned (false, 0, msg) /\ msg <> "skipped" /\
                       fs' = <[target item := n]> fs))))).
Proof.
  unfold _download_media_file.
  destruct (source_url item) as [[|a url]|].
  - intros [= <- <- <-]. left. repeat split. right. right.
    eexists. split; [reflexivity | discriminate].
  - destruct (same_size_as_record fs item) as [[|]|].
    + intros [= <- <- <-]. left. auto.
    + destruct (mkdir_parent net (target item)).
      * intros [= <- <- <-]. left. repeat split. right. right.
        eexists. split; [reflexivity | discriminate].
      * intros E. right. exists (String a url).
        split; [reflexivity|]. split; [discriminate|].
        destruct (head net (String a url)).
        -- right. apply fetch_cases in E as [-> E]. split; [reflexivity | exact E].
        -- destruct (same_size_as_remote fs item content_length).
           ++ injection E as <- <- <-. left. auto.
           ++ right. apply fetch_cases in E as [-> E].
              split; [reflexivity | exact E].
    + intros [= <- <- <-]. left. auto.
  - intros [= <- <- <-]. left. repeat split. right. right.
    eexists. split; [reflexivity | discriminate].
Qed.

(** X10.  A download leaves every file but its target as it was, and
    without a GET request it leaves the whole file system as it was. *)
Theorem download_touches_only_its_target net item fs r fs' reqs :
  _download_media_file net item fs = (r, fs', reqs) ->
  (forall p, p <> target item -> fs' !! p = fs !! p) /\
  ((forall url, get_request url ∉ reqs) -> fs' = fs).
Proof.
  intros E. apply download_cases in E.
  destruct E as [(-> & -> & _)|(url & _ & _ & [(-> & -> & _)|(-> & C)])].
  - split; [reflexivity | reflexivity].
  - split; [reflexivity | reflexivity].
  - split.
    + intros p Hp.
      destruct C as [(msg & _ & _ & ->)|[(n & _ & ->)|(n & msg & _ & _ & ->)]];
        [reflexivity | apply lookup_insert_ne; congruence
         | apply lookup_insert_ne; congruence].
    + intros Hno. exfalso. apply (Hno url).
      apply list_elem_of_In. right. left. reflexivity.
Qed.

(** X11.  A download sends no request at all, or one HEAD request to the
    source URL of the record, or that HEAD request followed by one GET
    request to the same URL: never a GET without the probe before it, and
    never a second attempt. *)
Theorem download_sends_a_probe_then_at_most_one_get net item fs r fs' reqs :
  _download_media_file net item fs = (r, fs', reqs) ->
  reqs = [] \/
  exists url,
    source_url item = Some url /\
    (reqs = [head_request url] \/
     reqs = [head_request url; get_request url]).
Proof.
  intros E. apply download_cases in E.
  destruct E as [(_ & -> & _)|(url & Hu & _ & [(_ & -> & _)|(-> & _)])].
  - left. reflexivity.
  - right. exists url. auto.
  - right. exists url. auto.
Qed.

(** X12.  The result of a download agrees with what it did: a failure
    reports 0 bytes; a success with an empty message reports the size the
    target file now has; and a success with any other message is a skip,
    with 0 bytes and the file system as it was. *)
Theorem download_result_agrees_with_the_files
    net item fs ok bytes msg fs' reqs :
  _download_media_file net item fs = (Returned (ok, bytes, msg), fs', reqs) ->
  (ok = false -> bytes = 0 /\ msg <> "skipped") /\
  (ok = true -> msg = "" -> fs' !! target item = Some bytes) /\
  (ok = true -> msg <> "" -> msg = "skipped" /\ bytes = 0 /\ fs' = fs).
Proof.
  intros E. apply download_cases in E.
  assert (forall m : string,
            Returned (ok, bytes, msg) = Returned (false, 0, m) ->
            m <> "skipped" ->
            (ok = false -> bytes = 0 /\ msg <> "skipped") /\
            (ok = true -> msg = "" -> fs' !! target item = Some bytes) /\
            (ok = true -> msg <> "" -> msg = "skipped" /\ bytes = 0 /\ fs' = fs))
    as Failure.
  { intros m [= -> -> ->] Hm.
    split; [intros _; split; [reflexivity | assumption]|].
    split; intros [=]. }
  assert (fs' = fs ->
          Returned (ok, bytes, msg) = Returned (true, 0, "skipped") ->
            (ok = false -> bytes = 0 /\ msg <> "skipped") /\
            (ok = true -> msg = "" -> fs' !! target item = Some bytes) /\
            (ok = true -> msg <> "" -> msg = "skipped" /\ bytes = 0 /\ fs' = fs))
    as Skip.
  { intros -> [= -> -> ->].
    split; [intros [=]|]. split; [intros _ [=] | intros _ _; auto]. }
  destruct E as [(Hfs & _ & [R|[R|(m & R & Hm)]])
                |(url & _ & _ & [(Hfs & _ & R)|(_ & C)])].
  - apply Skip; assumption.
  - discriminate R.
  - apply (Failure m); assumption.
  - apply Skip; assumption.
  - destruct C as [(m & R & Hm & _)|[(n & R & ->)|(n & m & R & Hm & _)]].
    + apply (Failure m); assumption.
    + injection R as -> -> ->.
      split; [intros [=]|].
      split; [intros _ _; apply lookup_insert_eq | intros _ Hne; congruence].
    + apply (Failure m); assumption.
Qed.

Lemma tally_step (r : outcome result) (d : download_stats) :
  total (tally r d) = total d /\
  success (tally r d) + failed (tally r d) + skipped (tally r d)
    = success d + failed d + skipped d + 1 /\
  bytes_downloaded (tally r d) = bytes_downloaded d + bytes_of r.
Proof.
  destruct r as [[[[|] n] e]|e]; cbn; [| case_bool_decide |]; cbn; lia.
Qed.

Lemma tally_fold (l : list (outcome result)) : forall d,
  total (fold_left (fun d r => tally r d) l d) = total d /\
  success (fold_left (fun d r => tally r d) l d)
  + failed (fold_left (fun d r => tally r d) l d)
  + skipped (fold_left (fun d r => tally r d) l d)
    = success d + failed d + skipped d + Z.of_nat (length l) /\
  bytes_downloaded (fold_left (fun d r => tally r d) l d)
    = bytes_downloaded d + fold_right Z.add 0 (map bytes_of l).
Proof.
  induction l as [|r l IH]; intros d; cbn [fold_left length map fold_right].
  - lia.
  - destruct (IH (tally r d)) as (T & C & B).
    destruct (tally_step r d) as (T1 & C1 & B1).
    rewrite T, C, B, T1, C1, B1. lia.
Qed.

Lemma tally_comm (r1 r2 : outcome result) (d : download_stats) :
  tally r1 (tally r2 d) = tally r2 (tally r1 d).
Proof.
  destruct r1 as [[[[|] n1] e1]|e1], r2 as [[[[|] n2] e2]|e2]; cbn;
    repeat case_bool_decide; cbn; f_equal; lia.
Qed.

Lemma tally_fold_permutation (l l' : list (outcome result)) :
  Permutation l l' ->
  forall d, fold_left (fun d r => tally r d) l d
            = fold_left (fun d r => tally r d) l' d.
Proof.
  induction 1 as [|x l l' _ IH|x y l|l1 l2 l3 _ IH1 _ IH2]; intros d; cbn.
  - reflexivity.
  - apply IH.
  - rewrite tally_comm. reflexivity.
  - rewrite IH1. apply IH2.
Qed.

(** X13.  The statistics of the media downloads account for every item
    once, in whatever order the downloads complete: the total is the number
    of items, the three counters add up to it, the bytes are those of the
    successes, and two orders of completion give the same statistics. *)
Theorem media_statistics_account_for_every_item
    (completed : list (outcome result)) :
  let d := _download_media_files completed in
  total d = Z.of_nat (length completed) /\
  success d + failed d + skipped d = Z.of_nat (length completed) /\
  bytes_downloaded d = fold_right Z.add 0 (map bytes_of completed) /\
  forall completed',
    Permutation completed completed' ->
    _download_media_files completed' = d.
Proof.
  cbv zeta. unfold _download_media_files.
  destruct (tally_fold completed
              (DownloadStats (Z.of_nat (length completed)) 0 0 0 0))
    as (T & C & B).
  cbn [total success failed skipped bytes_downloaded] in T, C, B.
  repeat split; [exact T | lia | lia |].
  intros completed' P. rewrite <- (Permutation_length P).
  symmetry. apply tally_fold_permutation. exact P.
Qed.

(** X14.  The counter of skipped downloads stays at 0 whatever the
    downloads return: a skip comes back with the success flag set and is
    counted as a success. *)
Theorem skipped_counter_stays_at_zero (completed : list (outcome result)) :
  Forall (fun r => exists net item fs fs' reqs,
                     _download_media_file net item fs = (r, fs', reqs))
         completed ->
  skipped (_download_media_files completed) = 0.
Proof.
  intros Hall. unfold _download_media_files.
  assert (forall d, skipped (fold_left (fun d r => tally r d) completed d)
                    = skipped d) as G.
  { induction Hall as [|r l (net & item & fs & fs' & reqs & E) _ IH];
      intros d; cbn [fold_left]; [reflexivity|].
    rewrite IH. eapply skipped_is_counted_as_success, E. }
  rewrite G. reflexivity.
Qed.

End MediaMore.

Section MediaMoreRuns.

Import Media Coordinator Examples.

Lemma first_download_of_the_photo :
  _download_media_file serving_photo photo_without_size ∅
  = (Returned (true, 1200, ""), {["2024/01/photo.png" := 1200]},
     [head_request "https://example.com/photo.png";
      get_request "https://example.com/photo.png"]).
Proof.
  unfold _download_media_file, same_size_as_record, same_size_as_remote.
  cbn [source_url photo_without_size target filesize].
  rewrite lookup_empty. reflexivity.
Defined.

Lemma second_download_of_the_photo :
  _download_media_file serving_photo photo {["2024/01/photo.png" := 1200]}
  = (Returned (true, 0, "skipped"), {["2024/01/photo.png" := 1200]}, []).
Proof.
  unfold _download_media_file, same_size_as_record.
  cbn [source_url photo target filesize].
  rewrite lookup_singleton_eq. reflexivity.
Defined.

Lemma download_touches_only_its_target_witness :
  _download_media_file serving_photo photo_without_size ∅
    = (Returned (true, 1200, ""), {["2024/01/photo.png" := 1200]},
       [head_request "https://example.com/photo.png";
        get_request "https://example.com/photo.png"]) /\
  (forall p, p <> target photo_without_size ->
     ({["2024/01/photo.png" := 1200]} : gmap string Z) !! p
       = (∅ : gmap string Z) !! p).
Proof.
  split; [exact first_download_of_the_photo|].
  apply (download_touches_only_its_target _ _ _ _ _ _
           first_download_of_the_photo).
Defined.

Lemma download_requests_witness :
  _download_media_file serving_photo photo_without_size ∅
    = (Returned (true, 1200, ""), {["2024/01/photo.png" := 1200]},
       [head_request "https://example.com/photo.png";
        get_request "https://example.com/photo.png"]) /\
  ([head_request "https://example.com/photo.png";
    get_request "https://example.com/photo.png"] = [] \/
   exists url,
     source_url photo_without_size = Some url /\
     ([head_request "https://example.com/photo.png";
       get_request "https://example.com/photo.png"] = [head_request url] \/
      [head_request "https://example.com/photo.png";
       get_request "https://example.com/photo.png"]
        = [head_request url; get_request url])).
Proof.
  split; [exact first_download_of_the_photo|].
  apply (download_sends_a_probe_then_at_most_one_get _ _ _ _ _ _
           first_download_of_the_photo).
Defined.

Lemma download_result_witness :
  _download_media_file serving_photo photo_without_size ∅
    = (Returned (true, 1200, ""), {["2024/01/photo.png" := 1200]},
       [head_request "https://example.com/photo.png";
        get_request "https://example.com/photo.png"]) /\
  ({["2024/01/photo.png" := 1200]} : gmap string Z) !! target photo_without_size
    = Some 1200.
Proof.
  split; [exact first_download_of_the_photo|].
  destruct (download_result_agrees_with_the_files _ _ _ _ _ _ _ _
              first_download_of_the_photo) as (_ & Size & _).
  apply Size; reflexivity.
Defined.

Lemma media_statistics_witness :
  Permutation
    [Returned (true, 1200, ""); Returned (false, 0, "Download error: 404");
     Returned (true, 0, "skipped")]
    [Returned (true, 0, "skipped"); Returned (true, 1200, "");
     Returned (false, 0, "Download error: 404")] /\
  _download_media_files
    [Returned (true, 0, "skipped"); Returned (true, 1200, "");
     Returned (false, 0, "Download error: 404")]
  = _download_media_files
      [Returned (true, 1200, ""); Returned (false, 0, "Download error: 404");
       Returned (true, 0, "skipped")].
Proof.
  assert (Permutation
            [Returned (true, 1200, ""); Returned (false, 0, "Download error: 404");
             Returned (true, 0, "skipped")]
            [Returned (true, 0, "skipped"); Returned (true, 1200, "");
             Returned (false, 0, "Download error: 404")]) as P.
  { apply Permutation_sym.
    apply (Permutation_cons_append
             [Returned (true, 1200, "");
              Returned (false, 0, "Download error: 404")]
             (Returned (true, 0, "skipped"))). }
  split; [exact P|].
  destruct (media_statistics_account_for_every_item
              [Returned (true, 1200, "");
               Returned (false, 0, "Download error: 404");
               Returned (true, 0, "skipped")]) as (_ & _ & _ & Order).
  apply Order. exact P.
Defined.

Lemma skipped_counter_witness :
  Forall (fun r => exists (net : remote string) item fs fs' reqs,
                     _download_media_file net item fs = (r, fs', reqs))
         [Returned (true, 1200, ""); Returned (true, 0, "skipped")] /\
  skipped (_download_media_files
             [Returned (true, 1200, ""); Returned (true, 0, "skipped")]) = 0.
Proof.
  assert (Forall (fun r => exists (net : remote string) item fs fs' reqs,
                             _download_media_file net item fs = (r, fs', reqs))
                 [Returned (true, 1200, ""); Returned (true, 0, "skipped")])
    as Hall.
  { constructor; [|constructor; [|constructor]].
    - eexists _, _, _, _, _. exact first_download_of_the_photo.
    - eexists _, _, _, _, _. exact second_download_of_the_photo. }
  split; [exact Hall|].
  apply (@skipped_counter_stays_at_zero string _ _ _ Hall).
Defined.

End MediaMoreRuns.

(** * Further properties of the orchestrator *)

Section OrchestratorMore.

Import Orchestrator Selection Main.

Implicit Types (self : self_cfg) (w : world).

(** X15.  In public mode the content types that need authentication are
    never selected: asked for or not, 'users' and 'settings' are left out,
    and what else was asked for is kept in its order.  With credentials the
    list asked for is taken as it is. *)
Theorem public_mode_leaves_out_the_authenticated_types
    (content_types : option (list string)) :
  ("users" ∉ select_content_types false content_types) /\
  ("settings" ∉ select_content_types false content_types) /\
  (forall types, content_types = Some types -> types <> [] ->
     select_content_types false content_types
       = filter (fun ct => ct ∉ AUTH_CONTENT_TYPES) types /\
     select_content_types true content_types = types).
Proof.
  assert (forall types : list string,
            (if (length (filter (fun ct => ct ∉ AUTH_CONTENT_TYPES) types)
                 <? length types)%nat
             then filter (fun ct => ct ∉ AUTH_CONTENT_TYPES) types
             else types)
            = filter (fun ct => ct ∉ AUTH_CONTENT_TYPES) types) as Hf.
  { intros types.
    destruct (_ <? _)%nat eqn:L; [reflexivity|].
    apply Nat.ltb_ge in L.
    induction types as [|ct types IH]; [reflexivity|].
    destruct (decide (ct ∉ AUTH_CONTENT_TYPES)) as [Hin|Hin].
    - rewrite filter_cons_True in * by assumption. cbn in L.
      rewrite <- IH at 1; [reflexivity | lia].
    - rewrite filter_cons_False in L by assumption. cbn in L.
      pose proof (length_filter (fun ct => ct ∉ AUTH_CONTENT_TYPES) types).
      lia. }
  assert (forall x, x ∈ AUTH_CONTENT_TYPES ->
            x ∉ select_content_types false content_types) as Hout.
  { assert (Forall (fun x => x ∉ PUBLIC_CONTENT_TYPES) AUTH_CONTENT_TYPES)
      as Hd.
    { repeat constructor; intros Hin;
        repeat (apply elem_of_cons in Hin as [Hin|Hin]; [discriminate Hin|]);
        apply elem_of_nil in Hin; exact Hin. }
    rewrite Forall_forall in Hd.
    intros x Hx. unfold select_content_types.
    destruct content_types as [[|ct types]|].
    - apply Hd. exact Hx.
    - cbv zeta. rewrite Hf. intros Hin.
      apply list_elem_of_filter in Hin as [Hn _]. contradiction.
    - apply Hd. exact Hx. }
  split; [apply Hout; set_solver|]. split; [apply Hout; set_solver|].
  intros types -> Hne. unfold select_content_types.
  destruct types as [|ct types]; [congruence|].
  cbv zeta. rewrite Hf. split; reflexivity.
Qed.

Lemma detect_attempted self w r w' :
  detect self w = (r, w') -> attempted (trace w') = attempted (trace w).
Proof.
  unfold detect. destruct (bool_decide _); [|intros [= _ <-]; reflexivity].
  cbn [emit info stats]. destruct (_detect_custom_post_types self _) as [e st].
  intros [= _ <-]. cbn. unfold attempted. rewrite omap_app. cbn.
  apply app_nil_r.
Qed.

Lemma upload_attempted self w r w' :
  upload self w = (r, w') -> attempted (trace w') = attempted (trace w).
Proof.
  unfold upload. destruct (s3 self) as [[e|]|].
  - destruct (is_Exception e); intros [= _ <-]; cbn;
      unfold attempted; rewrite omap_app; cbn; apply app_nil_r.
  - intros [= _ <-]. cbn. unfold attempted. rewrite !omap_app. cbn.
    rewrite !app_nil_r. reflexivity.
  - intros [= _ <-]. reflexivity.
Qed.

(** X16.  An error raised by the discovery of the custom post types ends
    the whole run: it is raised by [run_backup], the status written is
    [failed] with the text of the error, and no content type of the list is
    attempted, wherever 'custom_post_types' stands in it. *)
Theorem failed_discovery_ends_the_run self w e st :
  "custom_post_types" ∈ content_types self ->
  _detect_custom_post_types self (stats (info w)) = (Some e, st) ->
  is_Exception e = true ->
  exists w',
    run_backup self w = (Raised e, w') /\
    attempted (trace w') = attempted (trace w) /\
    saved_statuses (trace w')
      = saved_statuses (trace w) ++ [Some in_progress; Some failed] /\
    status (info w') = Some failed /\
    error (info w') = Some (str e).
Proof.
  intros Hin Hd He. unfold run_backup, try_body, detect.
  rewrite bool_decide_eq_true_2 by assumption.
  cbn [_save_backup_info set_status emit info stats trace]. rewrite Hd.
  destruct e; try discriminate He; cbn [is_Exception];
    (eexists; split; [reflexivity|]);
    cbn [_save_backup_info set_status set_error set_stats emit info stats trace
         status error];
    unfold attempted, saved_statuses; rewrite !omap_app; cbn;
    rewrite ?app_nil_r, <- ?app_assoc; auto.
Qed.

Section Completed.

Variable self : self_cfg.

Hypothesis detection_returns :
  forall st, fst (_detect_custom_post_types self st) = None.

Hypothesis methods_raise_exceptions :
  forall content_type m st e,
    methods self content_type = Some m ->
    fst (m st) = Some e ->
    is_Exception e = true.

Hypothesis upload_raises_exceptions :
  forall e, s3 self = Some (Some e) -> is_Exception e = true.

(** X17.  When the discovery returns, and the backup methods and the upload
    raise nothing outside [Exception], the run returns with the status
    [completed] and the exit status of [main] is 0, whatever errors the
    backup methods raised: every content type that has a backup method was
    attempted, and the errors are in the entries of their content types. *)
Theorem run_completes_whatever_the_collections_raise w :
  exists i w',
    run_backup self w = (Returned i, w') /\
    i = info w' /\
    status i = Some completed /\
    attempted (trace w')
      = attempted (trace w) ++ eligible self (content_types self) /\
    (w = not_started -> fst (main None self) = Returned 0).
Proof.
  assert (forall w0, exists w1, detect self w0 = (None, w1)) as D.
  { intros w0. unfold detect. destruct (bool_decide _); [|eauto].
    cbn [emit info stats]. pose proof (detection_returns (stats (info w0))) as E.
    destruct (_detect_custom_post_types self (stats (info w0))) as [r st].
    cbn in E. subst r. eauto. }
  assert (forall w0, exists w1, upload self w0 = (None, w1)) as U.
  { intros w0. unfold upload. destruct (s3 self) as [[e|]|] eqn:S; [|eauto..].
    rewrite (upload_raises_exceptions e eq_refl). eauto. }
  assert (exists i w', run_backup self w = (Returned i, w') /\
            i = info w' /\ status i = Some completed /\
            attempted (trace w')
              = attempted (trace w) ++ eligible self (content_types self)) as R.
  { unfold run_backup, try_body.
    destruct (D (_save_backup_info (set_status in_progress w))) as [w1 E1].
    rewrite E1.
    destruct (backup_each_goes_on self methods_raise_exceptions
                (content_types self) w1) as (w2 & E2 & A2).
    rewrite E2.
    destruct (U w2) as [w3 E3]. rewrite E3.
    eexists _, _. split; [reflexivity|]. split; [reflexivity|].
    split; [reflexivity|].
    cbn [_save_backup_info set_status emit trace info].
    unfold attempted at 1. rewrite omap_app. cbn. rewrite app_nil_r.
    fold (attempted (trace w3)).
    rewrite (upload_attempted _ _ _ _ E3), A2, (detect_attempted _ _ _ _ E1).
    cbn. unfold attempted at 1. rewrite omap_app. cbn. rewrite app_nil_r.
    reflexivity. }
  destruct R as (i & w' & E & Hi & Hs & Ha).
  exists i, w'. repeat split; try assumption.
  intros ->. unfold main. rewrite E. reflexivity.
Qed.

End Completed.

(** X18.  The exit status of [main] is 0 exactly when the construction of
    the tool and the run both return, and 1 for every [Exception] and for
    [KeyboardInterrupt]; an exception outside these, such as the
    [SystemExit] of the signal handlers, is not turned into an exit status
    by [main]. *)
Theorem main_exit_status constructed self :
  (fst (main constructed self) = Returned 0 <->
   constructed = None /\
   exists i, fst (run_backup self not_started) = Returned i) /\
  (forall e,
     constructed = Some e \/
       (constructed = None /\ fst (run_backup self not_started) = Raised e) ->
     (is_Exception e = true \/ e = KeyboardInterrupt ->
        fst (main constructed self) = Returned 1) /\
     (is_Exception e = false -> e <> KeyboardInterrupt ->
        fst (main constructed self) = Raised e)).
Proof.
  assert (forall e, (is_Exception e = true \/ e = KeyboardInterrupt ->
                     exit_status e = Returned 1) /\
                    (is_Exception e = false -> e <> KeyboardInterrupt ->
                     exit_status e = Raised e)) as X.
  { intros e. destruct e; cbn; split; try reflexivity;
      try (intros [?|?]; congruence); try discriminate; congruence. }
  assert (forall e, exit_status e <> Returned 0) as N0.
  { intros e. destruct e; cbn; discriminate. }
  split.
  - unfold main. destruct constructed as [e|].
    + cbn. split; [intros E; exfalso; exact (N0 _ E) | intros [[=] _]].
    + destruct (run_backup self not_started) as [[i|e] w]; cbn.
      * split; [eauto | reflexivity].
      * split; [intros E; exfalso; exact (N0 _ E) | intros [_ [i [=]]]].
  - intros e [-> | [-> E]]; unfold main.
    + cbn. apply X.
    + destruct (run_backup self not_started) as [[i|e'] w]; cbn in *;
        [discriminate E|]. injection E as ->. apply X.
Qed.

End OrchestratorMore.

(** * Properties of the discovery of custom post types *)

Section DiscoveryFacts.

Import Discovery.

Lemma last_segment_no_slash (s : string) : has_slash (last_segment s) = false.
Proof.
  induction s as [|c rest IH]; [reflexivity|]. cbn [last_segment].
  destruct (has_slash rest) eqn:R; [exact IH|].
  destruct (Ascii.eqb c "/") eqn:C; [exact R|].
  cbn [has_slash]. rewrite C, R. reflexivity.
Qed.

(** X19.  A name taken from the advertised routes is what follows the last
    slash of a route that starts with /wp/v2/; it is not empty, holds no
    slash and is none of 'posts', 'pages' and 'media'. *)
Theorem route_names_are_last_segments (routes : list string) (cpt : string) :
  cpt ∈ from_routes (Some routes) ->
  exists route,
    route ∈ routes /\
    String.prefix "/wp/v2/" route = true /\
    cpt = last_segment route /\
    cpt <> "" /\
    has_slash cpt = false /\
    cpt ∉ ["posts"; "pages"; "media"].
Proof.
  cbn [from_routes]. intros Hin.
  apply list_elem_of_omap in Hin as (route & Hr & E).
  exists route. split; [exact Hr|].
  unfold route_post_type in E.
  destruct (String.prefix "/wp/v2/" route) eqn:P; [|discriminate E].
  destruct (negb (existsb _ _)); [|discriminate E]. cbn [andb] in E.
  cbv zeta in E.
  destruct (String.eqb (last_segment route) "") eqn:N; [discriminate E|].
  cbn [negb andb] in E. case_bool_decide as M; [discriminate E|].
  cbn [negb] in E. injection E as <-.
  split; [reflexivity|]. split; [reflexivity|].
  split; [apply String.eqb_neq; exact N|].
  split; [apply last_segment_no_slash|].
  intros Hb. apply M. apply elem_of_cons. right. exact Hb.
Qed.

Lemma try_common_filter (probe : string -> probe_result)
    (candidates : list string) :
  (forall cpt e, probe cpt = probe_raises e -> is_WPAPIError e = true) ->
  try_common probe candidates
    = Returned (List.filter (confirmed probe) candidates).
Proof.
  intros Hp. induction candidates as [|cpt rest IH]; [reflexivity|].
  cbn [try_common List.filter]. unfold confirmed at 1.
  destruct (probe cpt) as [[|]|e] eqn:E.
  - rewrite IH. reflexivity.
  - rewrite IH. reflexivity.
  - rewrite (Hp _ _ E). exact IH.
Qed.

(** X20.  The common names are probed only when the routes give no custom
    post type.  The list stored is then made of the common names whose
    probe returned items, in the order of the list: a name whose probe
    raised an API error, permission denied included, is left out, with or
    without credentials. *)
Theorem common_names_are_kept_when_probed_with_items (s : site) routes :
  discover_endpoints s = Returned routes ->
  (forall cpt e, probe s cpt = probe_raises e -> is_WPAPIError e = true) ->
  (from_routes routes = [] ->
     snd (fst (_detect_custom_post_types s))
       = Some (List.filter (confirmed (probe s)) COMMON_CUSTOM_POST_TYPES)) /\
  (from_routes routes <> [] ->
     snd (fst (_detect_custom_post_types s)) = Some (from_routes routes)) /\
  (forall cpt m,
     from_routes routes = [] ->
     probe s cpt = probe_raises (WPAPIPermissionError m) ->
     forall l, snd (fst (_detect_custom_post_types s)) = Some l -> cpt ∉ l).
Proof.
  intros Hd Hp.
  assert (from_routes routes = [] ->
          snd (fst (_detect_custom_post_types s))
            = Some (List.filter (confirmed (probe s)) COMMON_CUSTOM_POST_TYPES))
    as Hempty.
  { intros He. unfold _detect_custom_post_types. rewrite Hd. cbv zeta.
    rewrite He, (try_common_filter _ _ Hp).
    destruct (backup_all _ _) as [r started]. reflexivity. }
  split; [exact Hempty|]. split.
  - intros Hne. unfold _detect_custom_post_types. rewrite Hd. cbv zeta.
    destruct (from_routes routes) as [|c l] eqn:F; [congruence|].
    destruct (backup_all _ _) as [r started]. reflexivity.
  - intros cpt m He Hprobe l Hl. rewrite (Hempty He) in Hl.
    assert (l = List.filter (confirmed (probe s)) COMMON_CUSTOM_POST_TYPES)
      as -> by congruence.
    intros Hin. apply list_elem_of_In, filter_In in Hin as [_ Hc].
    unfold confirmed in Hc. rewrite Hprobe in Hc. discriminate Hc.
Qed.

Lemma backup_all_stops (backup : string -> option exn)
    (before after : list string) (cpt : string) (e : exn) :
  (forall c, c ∈ before -> backup c = None) ->
  backup cpt = Some e ->
  backup_all backup (before ++ cpt :: after) = (Some e, before ++ [cpt]).
Proof.
  intros Hb He. induction before as [|c before IH]; cbn [app backup_all].
  - rewrite He. reflexivity.
  - rewrite (Hb c) by (apply elem_of_cons; left; reflexivity).
    rewrite IH by (intros c' Hc'; apply Hb, elem_of_cons; right; exact Hc').
    reflexivity.
Qed.

(** X21.  The custom post types found are backed up in order until one
    raises: those after it are not started.  A permission error ends the
    method without an exception; any other one is raised to the caller. *)
Theorem first_failing_custom_post_type_ends_the_discovery
    (s : site) routes (before after : list string) (cpt : string) (e : exn) :
  discover_endpoints s = Returned routes ->
  from_routes routes = before ++ cpt :: after ->
  (forall c, c ∈ before -> _backup_custom_post_type s c = None) ->
  _backup_custom_post_type s cpt = Some e ->
  _detect_custom_post_types s
    = (handled e, Some (before ++ cpt :: after), before ++ [cpt]) /\
  (forall m, e = WPAPIPermissionError m -> handled e = None) /\
  ((forall m, e <> WPAPIPermissionError m) -> handled e = Some e).
Proof.
  intros Hd Hr Hb He. split; [|split].
  - unfold _detect_custom_post_types. rewrite Hd. cbv zeta. rewrite Hr.
    destruct (before ++ cpt :: after) as [|c l] eqn:L;
      [destruct before; discriminate L|].
    rewrite <- L, (backup_all_stops _ _ _ _ _ Hb He). reflexivity.
  - intros m ->. reflexivity.
  - intros Hn. destruct e; try reflexivity. exfalso. eapply Hn. reflexivity.
Qed.

End DiscoveryFacts.

(** * Properties of the custom fields, the upload and the manifest *)

Section MetaFacts.

Import Meta.




(** X23.  Without credentials, or without items, no custom field is asked
    for and the statistics are left as they are. *)
Theorem no_custom_fields_without_credentials_or_items
    (is_authenticated : bool) (post_type : string) (setup : option exn)
    (get_all : Z -> meta_result) (items : list (option Z))
    (stats : gmap string stat_entry) :
  is_authenticated = false \/ items = [] ->
  backup_meta is_authenticated post_type setup get_all items stats
    = (None, stats, []).
Proof.
  intros [-> | ->]; unfold backup_meta; [destruct items|]; reflexivity.
Qed.

End MetaFacts.

Section UploadFacts.

Import Upload.

Lemma replace_backslash_clean (s : string) :
  has_backslash (replace_backslash s) = false.
Proof.
  induction s as [|c rest IH]; [reflexivity|]. cbn.
  destruct (Ascii.eqb c backslash) eqn:E; rewrite ?E, IH; reflexivity.
Qed.

Lemma replace_backslash_app (a b : string) :
  replace_backslash (a +:+ b) = replace_backslash a +:+ replace_backslash b.
Proof.
  induction a as [|c rest IH]; [reflexivity|].
  change (String c rest +:+ b) with (String c (rest +:+ b)).
  cbn [replace_backslash]. rewrite IH. reflexivity.
Qed.

(** X24.  An S3 key holds no backslash.  For a relative path that does not
    start with a slash, the key is the path itself under an empty prefix,
    and the prefix, a slash and the path under a prefix that is not empty
    and does not end with a slash, backslashes being written as slashes
    throughout. *)
Theorem s3_keys_are_normalised (s3_prefix relative_path : string) :
  has_backslash (s3_key s3_prefix relative_path) = false /\
  (String.prefix "/" relative_path = false ->
   (s3_prefix = "" ->
      s3_key s3_prefix relative_path = replace_backslash relative_path) /\
   (s3_prefix <> "" -> Discovery.endswith s3_prefix "/" = false ->
      s3_key s3_prefix relative_path
        = replace_backslash s3_prefix +:+ "/"
          +:+ replace_backslash relative_path)).
Proof.
  split; [apply replace_backslash_clean|].
  intros Hrel. unfold s3_key, join. rewrite Hrel. split.
  - intros ->. reflexivity.
  - intros Hne Hend. rewrite Hend.
    destruct (String.eqb s3_prefix "") eqn:E;
      [apply String.eqb_eq in E; congruence|].
    cbn [orb]. rewrite !replace_backslash_app. reflexivity.
Qed.

Lemma upload_loop_counts (files_to_upload : list (string * transfer)) :
  Forall (fun f => forall e, snd f = transfer_raises e -> is_Exception e = true)
         files_to_upload ->
  forall acc,
    exists summary,
      upload_loop files_to_upload acc = (None, summary) /\
      files_uploaded summary + upload_errors summary
        = files_uploaded acc + upload_errors acc
          + Z.of_nat (length files_to_upload) /\
      total_bytes summary
        = total_bytes acc
          + fold_right Z.add 0
              (map (fun f => match snd f with
                             | transferred n => n
                             | transfer_raises _ => 0
                             end) files_to_upload).
Proof.
  induction 1 as [|[key t] rest Hf _ IH]; intros acc.
  - exists acc. cbn. split; [reflexivity|]. lia.
  - cbn [upload_loop]. destruct t as [n|e].
    + destruct (IH (S3Upload (files_uploaded acc + 1) (upload_errors acc)
                             (total_bytes acc + n))) as (sm & E & C & B).
      exists sm. split; [exact E|]. cbn in *. lia.
    + rewrite (Hf e eq_refl).
      destruct (IH (S3Upload (files_uploaded acc) (upload_errors acc + 1)
                             (total_bytes acc))) as (sm & E & C & B).
      exists sm. split; [exact E|]. cbn in *. lia.
Qed.

Lemma prepare_counts (s3_prefix : string) (files : list walked) :
  Forall (fun f => forall e, transfer_of f = transfer_raises e ->
                             is_Exception e = true) files ->
  Forall (fun f => forall e, snd f = transfer_raises e -> is_Exception e = true)
         (fst (prepare s3_prefix files)) /\
  snd (prepare s3_prefix files)
    + Z.of_nat (length (fst (prepare s3_prefix files)))
    = Z.of_nat (length files) /\
  fold_right Z.add 0
    (map (fun f => match snd f with
                   | transferred n => n
                   | transfer_raises _ => 0
                   end) (fst (prepare s3_prefix files)))
    = fold_right Z.add 0 (map size_transferred files) /\
  Forall (fun f => has_backslash (fst f) = false)
         (fst (prepare s3_prefix files)).
Proof.
  induction 1 as [|f rest Hf _ IH]; cbn [prepare].
  - repeat split; constructor.
  - destruct (prepare s3_prefix rest) as [to_upload errs].
    destruct IH as (A & B & C & D). cbn [fst snd] in *.
    change (map size_transferred (f :: rest))
      with (size_transferred f :: map size_transferred rest).
    assert (S : size_transferred f
               = match relative_path f, transfer_of f with
                 | Some _, transferred file_size => file_size
                 | _, _ => 0
                 end) by reflexivity.
    destruct (relative_path f) as [rel|]; cbn [fst snd length map fold_right];
      rewrite S, <- C.
    + repeat split.
      * constructor; [exact Hf | exact A].
      * lia.
      * constructor; [apply replace_backslash_clean | exact D].
    + repeat split; [exact A | lia | exact D].
Qed.

(** X25.  When no transfer is ended by an exception outside [Exception],
    the upload goes through all the files of the walk: it returns, every
    file is counted once, as uploaded or as an error, and the bytes counted
    are the sizes of the files uploaded. *)
Theorem every_file_is_uploaded_or_counted_as_an_error
    (s3_prefix : string) (files : list walked) :
  Forall (fun f => forall e, transfer_of f = transfer_raises e ->
                             is_Exception e = true) files ->
  exists summary,
    _upload_to_s3 s3_prefix files = (None, Some summary) /\
    files_uploaded summary + upload_errors summary = Z.of_nat (length files) /\
    total_bytes summary = fold_right Z.add 0 (map size_transferred files).
Proof.
  intros Hf. unfold _upload_to_s3.
  destruct (prepare_counts s3_prefix files Hf) as (A & B & C & _).
  destruct (prepare s3_prefix files) as [to_upload errs]. cbn [fst snd] in *.
  destruct (upload_loop_counts to_upload A (S3Upload 0 errs 0))
    as (sm & E & Hc & Hb).
  rewrite E. exists sm. split; [reflexivity|]. cbn in Hc, Hb. lia.
Qed.

End UploadFacts.

Section ManifestFacts.

Import Manifest.

Lemma written_end_times_fixed (clock : list Z) (t : Z) :
  written_end_times clock (Some t) = repeat (Some t) (length clock).
Proof.
  induction clock as [|now later IH]; [reflexivity|].
  cbn. rewrite IH. reflexivity.
Qed.

(** X26.  The end time of the manifest is the time of the first call that
    writes it and is never brought up to date: every file written later
    carries that same time. *)
Theorem end_time_is_the_time_of_the_first_save (first : Z) (later : list Z) :
  written_end_times (first :: later) None
    = repeat (Some first) (S (length later)).
Proof. cbn. rewrite written_end_times_fixed. reflexivity. Qed.

End ManifestFacts.

(** * The further properties on concrete runs *)

Section MoreRuns.

Import Orchestrator Selection Main Examples MoreExamples.

Lemma public_mode_witness :
  ("users" ∉ select_content_types false (Some ["posts"; "users"; "pages"])) /\
  ("settings" ∉ select_content_types false (Some ["posts"; "users"; "pages"]))
  /\
  select_content_types false (Some ["posts"; "users"; "pages"])
    = filter (fun ct => ct ∉ AUTH_CONTENT_TYPES) ["posts"; "users"; "pages"] /\
  select_content_types true (Some ["posts"; "users"; "pages"])
    = ["posts"; "users"; "pages"].
Proof.
  destruct (public_mode_leaves_out_the_authenticated_types
              (Some ["posts"; "users"; "pages"])) as (A & B & C).
  destruct (C ["posts"; "users"; "pages"] eq_refl) as [D E]; [discriminate|].
  exact (conj A (conj B (conj D E))).
Defined.

Lemma failed_discovery_witness :
  ("custom_post_types" ∈ content_types discovery_fails) /\
  _detect_custom_post_types discovery_fails (stats (info not_started))
    = (Some (WPAPIError "500"), stats (info not_started)) /\
  exists w',
    run_backup discovery_fails not_started = (Raised (WPAPIError "500"), w') /\
    attempted (trace w') = attempted (trace not_started) /\
    saved_statuses (trace w')
      = saved_statuses (trace not_started) ++ [Some in_progress; Some failed] /\
    status (info w') = Some failed /\
    error (info w') = Some (str (WPAPIError "500")).
Proof.
  assert ("custom_post_types" ∈ content_types discovery_fails) as Hin.
  { apply elem_of_cons. right. apply elem_of_cons. left. reflexivity. }
  split; [exact Hin|]. split; [reflexivity|].
  apply (failed_discovery_ends_the_run discovery_fails not_started
           (WPAPIError "500") (stats (info not_started)) Hin eq_refl eq_refl).
Defined.

Lemma run_completes_witness :
  (forall st, fst (_detect_custom_post_types posts_fail st) = None) /\
  exists i w',
    run_backup posts_fail not_started = (Returned i, w') /\
    i = info w' /\
    status i = Some completed /\
    attempted (trace w')
      = attempted (trace not_started)
        ++ eligible posts_fail (content_types posts_fail) /\
    (not_started = not_started -> fst (main None posts_fail) = Returned 0).
Proof.
  assert (forall st, fst (_detect_custom_post_types posts_fail st) = None)
    as Hd by reflexivity.
  split; [exact Hd|].
  apply (run_completes_whatever_the_collections_raise posts_fail Hd
           posts_fail_raises_exceptions).
  intros e. discriminate.
Defined.

Lemma main_exit_status_witness :
  fst (run_backup sigint_during_pages not_started) = Raised (SystemExit 1) /\
  fst (main None sigint_during_pages) = Raised (SystemExit 1) /\
  fst (main (Some (WPAPIAuthError "401")) sigint_during_pages) = Returned 1.
Proof.
  assert (fst (run_backup sigint_during_pages not_started)
          = Raised (SystemExit 1)) as Hr by (vm_compute; reflexivity).
  split; [exact Hr|].
  destruct (main_exit_status None sigint_during_pages) as [_ H].
  destruct (H (SystemExit 1) (or_intror (conj eq_refl Hr))) as [_ K].
  destruct (main_exit_status (Some (WPAPIAuthError "401")) sigint_during_pages)
    as [_ H'].
  destruct (H' (WPAPIAuthError "401") (or_introl eq_refl)) as [K' _].
  split; [apply K; [reflexivity | discriminate] | apply K'; left; reflexivity].
Defined.

End MoreRuns.

Section DiscoveryRuns.

Import Discovery MoreExamples.

Lemma route_names_witness :
  ("book" ∈ from_routes
     (Some ["/"; "/wp/v2/posts"; "/wp/v2/book"; "/wp/v2/book/(?P<id>[\d]+)"]))
  /\
  exists route,
    route ∈ ["/"; "/wp/v2/posts"; "/wp/v2/book"; "/wp/v2/book/(?P<id>[\d]+)"]
    /\
    String.prefix "/wp/v2/" route = true /\
    "book" = last_segment route /\
    "book" <> "" /\
    has_slash "book" = false /\
    ("book" ∉ ["posts"; "pages"; "media"]).
Proof.
  assert ("book" ∈ from_routes
            (Some ["/"; "/wp/v2/posts"; "/wp/v2/book";
                   "/wp/v2/book/(?P<id>[\d]+)"])) as Hin.
  { assert (from_routes
              (Some ["/"; "/wp/v2/posts"; "/wp/v2/book";
                     "/wp/v2/book/(?P<id>[\d]+)"])
            = ["book"; "(?P<id>[\d]+)"]) as -> by (vm_compute; reflexivity).
    apply elem_of_cons. left. reflexivity. }
  split; [exact Hin|].
  apply (route_names_are_last_segments _ "book" Hin).
Defined.

Lemma plain_site_probe :
  forall cpt e, probe plain_site cpt = probe_raises e -> is_WPAPIError e = true.
Proof.
  intros cpt e. cbn [probe plain_site].
  repeat case_bool_decide; intros [= <-]; reflexivity.
Defined.

Lemma common_names_witness :
  discover_endpoints plain_site
    = Returned (Some ["/"; "/wp/v2/posts"; "/wp/v2/pages"]) /\
  from_routes (Some ["/"; "/wp/v2/posts"; "/wp/v2/pages"]) = [] /\
  probe plain_site "event" = probe_raises (WPAPIPermissionError "403") /\
  snd (fst (_detect_custom_post_types plain_site))
    = Some (List.filter (confirmed (probe plain_site)) COMMON_CUSTOM_POST_TYPES)
  /\
  ("event" ∉ List.filter (confirmed (probe plain_site)) COMMON_CUSTOM_POST_TYPES).
Proof.
  assert (from_routes (Some ["/"; "/wp/v2/posts"; "/wp/v2/pages"]) = [])
    as Hr by (vm_compute; reflexivity).
  split; [reflexivity|]. split; [exact Hr|]. split; [reflexivity|].
  destruct (common_names_are_kept_when_probed_with_items plain_site
              (Some ["/"; "/wp/v2/posts"; "/wp/v2/pages"]) eq_refl
              plain_site_probe) as (A & _ & C).
  split; [exact (A Hr)|].
  exact (C "event" "403" Hr eq_refl _ (A Hr)).
Defined.

Lemma first_failing_witness :
  from_routes (Some ["/"; "/wp/v2"; "/wp/v2/posts"; "/wp/v2/product"; "/wp/v2/book";
                     "/oembed/1.0/embed"; "/wp/v2/film"])
    = ["product"] ++ "book" :: ["film"] /\
  _backup_custom_post_type shop "book" = Some (WPAPIPermissionError "403") /\
  _detect_custom_post_types shop
    = (handled (WPAPIPermissionError "403"),
       Some (["product"] ++ "book" :: ["film"]), ["product"] ++ ["book"]) /\
  handled (WPAPIPermissionError "403") = None.
Proof.
  assert (from_routes (Some ["/"; "/wp/v2"; "/wp/v2/posts"; "/wp/v2/product";
                             "/wp/v2/book"; "/oembed/1.0/embed"; "/wp/v2/film"])
          = ["product"] ++ "book" :: ["film"]) as Hr by (vm_compute; reflexivity).
  split; [exact Hr|]. split; [reflexivity|].
  destruct (first_failing_custom_post_type_ends_the_discovery shop _
              ["product"] ["film"] "book" (WPAPIPermissionError "403")
              eq_refl Hr) as (A & B & _).
  - intros c Hc. apply elem_of_cons in Hc as [-> | Hc]; [reflexivity|].
    apply elem_of_nil in Hc. destruct Hc.
  - reflexivity.
  - split; [exact A | exact (B "403" eq_refl)].
Defined.

End DiscoveryRuns.

Section MetaRuns.

Import Meta Upload MoreExamples.



Lemma no_custom_fields_witness :
  (false = false \/ [Some 5; Some 7] = []) /\
  backup_meta false "book" None custom_fields [Some 5; Some 7] ∅
    = (None, ∅, []).
Proof.
  split; [left; reflexivity|].
  apply (no_custom_fields_without_credentials_or_items false "book" None
           custom_fields [Some 5; Some 7] ∅ (or_introl eq_refl)).
Defined.

Lemma s3_keys_witness :
  has_backslash (s3_key windows_prefix windows_path) = false /\
  s3_key windows_prefix windows_path
    = replace_backslash windows_prefix +:+ "/"
      +:+ replace_backslash windows_path /\
  s3_key "" windows_path = replace_backslash windows_path.
Proof.
  destruct (s3_keys_are_normalised windows_prefix windows_path) as [A B].
  destruct (B eq_refl) as [_ C].
  destruct (s3_keys_are_normalised "" windows_path) as [_ B'].
  destruct (B' eq_refl) as [C' _].
  split; [exact A|]. split; [apply C; [discriminate | reflexivity]|].
  apply C'. reflexivity.
Defined.

Lemma walk_raises_exceptions :
  Forall (fun f => forall e, transfer_of f = transfer_raises e ->
                             is_Exception e = true) walk.
Proof.
  repeat constructor; cbn; intros e; try discriminate.
  intros [= <-]. reflexivity.
Defined.

Lemma upload_witness :
  exists summary,
    _upload_to_s3 windows_prefix walk = (None, Some summary) /\
    files_uploaded summary + upload_errors summary = Z.of_nat (length walk) /\
    total_bytes summary = fold_right Z.add 0 (map size_transferred walk).
Proof.
  apply (every_file_is_uploaded_or_counted_as_an_error windows_prefix walk
           walk_raises_exceptions).
Defined.

End MetaRuns.

(** * Properties of the settings and of the routes *)

Section SettingsFacts.

Import Orchestrator Settings.

(** X27.  The step of the run for the settings, when the calls raise
    nothing outside [Exception]: the run goes on; an error of the call is
    stored with its own text, or with a fixed text for a permission error,
    never with the prefixes the run gives to the errors of the other
    content types; a count of 1 is stored for settings that are not empty,
    whether or not a file could be written; and empty settings leave the
    statistics as they are. *)
Theorem settings_step_of_the_run
    (self : self_cfg) (w : world) (get : get_result)
    (mkdir dump simplified_dump : option exn) :
  methods self "settings"
    = Some (backup_method get mkdir dump simplified_dump) ->
  (forall e, get = get_raises e \/ mkdir = Some e \/ dump = Some e
             \/ simplified_dump = Some e -> is_Exception e = true) ->
  exists w',
    backup_one self "settings" w = (None, w') /\
    (forall e, get = get_raises e ->
       stats (info w') !! "settings" = Some (error_entry (error_text e))) /\
    (get = settings true -> mkdir = None ->
       stats (info w') !! "settings" = Some (count_only 1) /\
       exists f,
         snd (_backup_settings get mkdir dump simplified_dump (stats (info w)))
           = Some f /\
         (f = written <-> dump = None) /\
         (f = lost <-> dump <> None /\ simplified_dump <> None)) /\
    (get = settings false -> stats (info w') = stats (info w)).
Proof.
  intros Hm Hx. unfold backup_one.
  rewrite bool_decide_eq_false_2 by discriminate. rewrite Hm.
  cbn [emit info stats]. unfold backup_method, _backup_settings.
  destruct get as [[|]|e].
  - destruct mkdir as [e|].
    + pose proof (Hx e (or_intror (or_introl eq_refl))) as He.
      destruct e; try discriminate He; cbn;
        (eexists; split; [reflexivity|]);
        (split; [discriminate|]); (split; [discriminate|]); discriminate.
    + unfold _save_json_file.
      destruct dump as [e|].
      * rewrite (Hx e) by auto.
        destruct simplified_dump as [e'|].
        -- rewrite (Hx e') by auto. cbn.
           eexists. split; [reflexivity|]. split; [discriminate|].
           split; [|discriminate]. intros _ _. cbn.
           split; [apply lookup_insert_eq|].
           exists lost. split; [reflexivity|].
           split; split; try discriminate; try reflexivity.
           ++ intros _. split; discriminate.
        -- cbn. eexists. split; [reflexivity|]. split; [discriminate|].
           split; [|discriminate]. intros _ _. cbn.
           split; [apply lookup_insert_eq|].
           exists simplified. split; [reflexivity|].
           split; split; try discriminate.
           ++ intros [_ H]. congruence.
      * cbn. eexists. split; [reflexivity|]. split; [discriminate|].
        split; [|discriminate]. intros _ _. cbn.
        split; [apply lookup_insert_eq|].
        exists written. split; [reflexivity|].
        split; split; try discriminate; try reflexivity.
        ++ intros [H _]. congruence.
  - cbn. eexists. split; [reflexivity|]. split; [discriminate|].
    split; [discriminate|]. reflexivity.
  - pose proof (Hx e (or_introl eq_refl)) as He.
    destruct e; try discriminate He; cbn;
      (eexists; split; [reflexivity|]);
      (split; [intros e' [= <-]; cbn; apply lookup_insert_eq|]);
      (split; discriminate).
Qed.

End SettingsFacts.

Section RouteFacts.

Import Discovery.

Lemma substring_all (s : string) :
  String.substring 0 (String.length s) s = s.
Proof.
  induction s as [|c s IH]; [reflexivity|]. cbn. rewrite IH. reflexivity.
Qed.

Lemma substring_suffix (s : string) (k : nat) :
  (k <= String.length s)%nat ->
  exists pre, s = pre +:+ String.substring k (String.length s - k) s.
Proof.
  revert k. induction s as [|c s IH]; intros k Hk.
  - exists EmptyString. destruct k; reflexivity.
  - destruct k as [|k].
    + exists EmptyString. rewrite Nat.sub_0_r, substring_all. reflexivity.
    + cbn in Hk. destruct (IH k) as [pre E]; [lia|].
      exists (String c pre). cbn [String.length Nat.sub String.substring].
      change (String c pre +:+ String.substring k (String.length s - k) s)
        with (String c (pre +:+ String.substring k (String.length s - k) s)).
      rewrite <- E. reflexivity.
Qed.

Lemma endswith_app (s suffix : string) :
  endswith s suffix = true -> exists pre, s = pre +:+ suffix.
Proof.
  unfold endswith. cbv zeta. intros H.
  apply andb_true_iff in H as [L E].
  apply Nat.leb_le in L. apply String.eqb_eq in E.
  destruct (substring_suffix s (String.length s - String.length suffix))
    as [pre P]; [lia|].
  exists pre.
  replace (String.length s - (String.length s - String.length suffix))%nat
    with (String.length suffix) in P by lia.
  rewrite E in P. exact P.
Qed.

Lemma has_slash_app (pre rest : string) :
  has_slash (pre +:+ String "/" rest) = true.
Proof.
  induction pre as [|c pre IH]; [reflexivity|].
  change (String c pre +:+ String "/" rest)
    with (String c (pre +:+ String "/" rest)).
  cbn [has_slash]. rewrite IH. apply orb_true_r.
Qed.

Lemma last_segment_app (pre name : string) :
  has_slash name = false -> last_segment (pre +:+ String "/" name) = name.
Proof.
  intros Hn. induction pre as [|c pre IH].
  - change (EmptyString +:+ String "/" name) with (String "/" name).
    cbn [last_segment]. rewrite Hn. reflexivity.
  - change (String c pre +:+ String "/" name)
      with (String c (pre +:+ String "/" name)).
    cbn [last_segment]. rewrite has_slash_app. exact IH.
Qed.

(** X28.  Every route under /wp/v2/ whose last segment is not empty and is
    none of 'posts', 'pages' and 'media' gives a custom post type, with
    that segment as its name: this holds for the routes below a collection
    as well, such as those of one item or of its revisions. *)
Theorem routes_below_a_collection_name_post_types (route : string) :
  String.prefix "/wp/v2/" route = true ->
  last_segment route ∉ [""; "posts"; "pages"; "media"] ->
  route_post_type route = Some (last_segment route).
Proof.
  intros Hp Hn. unfold route_post_type. rewrite Hp.
  assert (forall cpt, has_slash cpt = false ->
            cpt ∈ [""; "posts"; "pages"; "media"] ->
            endswith route ("/" +:+ cpt) = false) as Hend.
  { intros cpt Hs Hin. destruct (endswith route ("/" +:+ cpt)) eqn:E;
      [|reflexivity].
    apply endswith_app in E as [pre ->]. exfalso. apply Hn.
    change ("/" +:+ cpt) with (String "/" cpt).
    rewrite (last_segment_app pre cpt Hs). exact Hin. }
  cbn [existsb].
  rewrite !Hend by (try reflexivity; set_solver).
  cbn [orb negb andb]. cbv zeta.
  rewrite bool_decide_eq_false_2 by exact Hn.
  destruct (String.eqb (last_segment route) "") eqn:N; [|reflexivity].
  apply String.eqb_eq in N. exfalso. apply Hn. rewrite N.
  apply elem_of_cons. left. reflexivity.
Qed.

End RouteFacts.

Section SettingsRuns.

Import Orchestrator Settings Discovery MoreExamples.

Lemma settings_missing_raises_exceptions :
  forall e,
    get_raises (WPAPINotFoundError "404") = get_raises e \/
    @None exn = Some e \/ @None exn = Some e \/ @None exn = Some e ->
    is_Exception e = true.
Proof.
  intros e [[= <-] | [H | [H | H]]]; try discriminate H. reflexivity.
Defined.

Lemma settings_step_witness :
  methods settings_missing "settings"
    = Some (backup_method (get_raises (WPAPINotFoundError "404"))
                          None None None) /\
  exists w',
    backup_one settings_missing "settings" not_started = (None, w') /\
    stats (info w') !! "settings" = Some (error_entry "404").
Proof.
  split; [reflexivity|].
  destruct (settings_step_of_the_run settings_missing not_started
              (get_raises (WPAPINotFoundError "404")) None None None eq_refl
              settings_missing_raises_exceptions) as (w' & E & A & _).
  exists w'. split; [exact E|]. exact (A _ eq_refl).
Defined.

Lemma routes_below_a_collection_witness :
  String.prefix "/wp/v2/" "/wp/v2/posts/(?P<parent>[\d]+)/revisions" = true /\
  route_post_type "/wp/v2/posts/(?P<parent>[\d]+)/revisions"
    = Some (last_segment "/wp/v2/posts/(?P<parent>[\d]+)/revisions") /\
  last_segment "/wp/v2/posts/(?P<parent>[\d]+)/revisions" = "revisions".
Proof.
  split; [reflexivity|]. split; [|reflexivity].
  apply (routes_below_a_collection_name_post_types
           "/wp/v2/posts/(?P<parent>[\d]+)/revisions" eq_refl).
  change (last_segment "/wp/v2/posts/(?P<parent>[\d]+)/revisions")
    with "revisions".
  intros Hin.
  repeat (apply elem_of_cons in Hin as [Hin|Hin]; [discriminate Hin|]).
  apply elem_of_nil in Hin. exact Hin.
Defined.

End SettingsRuns.
